(** * FileSyncer: the versioned synchronisation and history engine

    A shallow embedding of [src/history/historyManager.ts] (HistoryManager),
    [src/history/historyStorage.ts] (HistoryStorage), [src/sftp/sftpClient.ts],
    [src/sftp/sftpManager.ts], [src/sync/syncManager.ts] (SyncManager),
    [src/sync/syncScheduler.ts], [src/utils/pathUtils.ts] and
    [src/config/profileManager.ts], followed by the properties of the
    specification that concern them and by further properties of the code.

    Modelling conventions.
    - Asynchronous methods are run to completion one after the other: an
      operation is a function from the state of the extension (the [World])
      to an outcome and a new state.  A JavaScript exception is the outcome
      [Throw]; the state reached when it was raised is kept.  The callback
      of a save timer is the exception: what it does after the upload it
      awaits is an event of the scheduler of its own.
    - The host is POSIX ([path.sep] is ["/"]) and the working directory is
      the root, so a path names a node of the tree by its components.
    - The local and the remote file system are finite trees of directories
      and regular files.  A file-system call fails the way Node's [fs] does
      on such a tree (ENOENT, ENOTDIR, EISDIR, EEXIST, ENOTEMPTY); failures
      from outside the tree (permissions, a full disk) are not modelled.
    - Time stamps are integral milliseconds inside the range of ECMAScript
      time values, as [Date.now()] returns them, so [toISOString] is total.
    - The singletons exist: an operation is a method of managers that
      were constructed before, so the history directory is fixed, while the
      workspace folder and the configuration are read when it is called.
    - Everything the extension reads from outside is in [Env]: the
      configuration, the libraries ([minimatch], [md5]), and, indexed by how
      many were read before, the clock, the random source, the answers of
      the user and the faults of the SFTP connection. *)

From Stdlib Require Import ZArith Lia Strings.Ascii Strings.Byte Sorting.Sorted.
From stdpp Require Import base option list strings gmap pretty.

Local Open Scope Z_scope.

(** ** JavaScript strings and errors *)

Module JS.

(** The double quote, as a string. *)
Definition quote : string := String (Ascii.ascii_of_nat 34) EmptyString.

(** [s.startsWith(p)] *)
Definition startsWith (s p : string) : bool := String.prefix p s.

(** [s.includes(t)] *)
Definition includes (s t : string) : bool :=
  match String.index 0 t s with Some _ => true | None => false end.

(** [s.slice(0, -n)] *)
Definition dropLast (n : nat) (s : string) : string :=
  String.substring 0 (String.length s - n) s.

(** [s.replace(/[:.]/g, '-')] *)
Fixpoint replaceColonDot (s : string) : string :=
  match s with
  | EmptyString => EmptyString
  | String c s' =>
      String (if (Ascii.eqb c ":" || Ascii.eqb c ".")%bool then "-"%char else c)
             (replaceColonDot s')
  end.

(** [ToIntegerOrInfinity] followed by the clamping of
    [Array.prototype.slice(start)]: the index the slice starts at. *)
Definition sliceStart (len : nat) (start : Z) : nat :=
  if (start <? 0)%Z then Z.to_nat (Z.max (Z.of_nat len + start) 0)
  else Nat.min (Z.to_nat start) len.

(** [arr.slice(start)] *)
Definition slice {A} (start : Z) (arr : list A) : list A :=
  drop (sliceStart (length arr) start) arr.

(** What a [catch] clause can receive: an [Error] built by the program or
    a library, or a system error of Node's [fs]. *)
Inductive exn :=
| Error (message : string)
| SystemError (code syscall path : string).

Definition describe (code : string) : string :=
  if String.eqb code "ENOENT" then "no such file or directory"
  else if String.eqb code "ENOTDIR" then "not a directory"
  else if String.eqb code "EISDIR" then "illegal operation on a directory"
  else if String.eqb code "EEXIST" then "file already exists"
  else if String.eqb code "ENOTEMPTY" then "directory not empty"
  else "unknown error".

(** [String(error)] *)
Definition toString (e : exn) : string :=
  match e with
  | Error m => "Error: " +:+ m
  | SystemError code syscall p =>
      "Error: " +:+ code +:+ ": " +:+ describe code +:+ ", " +:+ syscall
        +:+ " '" +:+ p +:+ "'"
  end.

(** Left-padding of a non-negative number to [w] decimal digits. *)
Fixpoint zeros (n : nat) : string :=
  match n with O => "" | S n' => "0" +:+ zeros n' end.

Definition pad (w : nat) (n : Z) : string :=
  let s := pretty (Z.to_nat n) in zeros (w - String.length s) +:+ s.

(** [new Date(t).toISOString()], by the civil-from-days computation on the
    proleptic Gregorian calendar. *)
Definition toISOString (t : Z) : string :=
  let days := t / 86400000 in
  let ms := t mod 86400000 in
  let z := days + 719468 in
  let era := z / 146097 in
  let doe := z mod 146097 in
  let yoe := (doe - doe / 1460 + doe / 36524 - doe / 146096) / 365 in
  let doy := doe - (365 * yoe + yoe / 4 - yoe / 100) in
  let mp := (5 * doy + 2) / 153 in
  let d := doy - (153 * mp + 2) / 5 + 1 in
  let m := if mp <? 10 then mp + 3 else mp - 9 in
  let y := yoe + era * 400 + (if m <=? 2 then 1 else 0) in
  let year :=
    if ((0 <=? y) && (y <=? 9999))%bool then pad 4 y
    else (if y <? 0 then "-" else "+") +:+ pad 6 (Z.abs y) in
  year +:+ "-" +:+ pad 2 m +:+ "-" +:+ pad 2 d +:+ "T"
    +:+ pad 2 (ms / 3600000) +:+ ":" +:+ pad 2 (ms / 60000 mod 60) +:+ ":"
    +:+ pad 2 (ms / 1000 mod 60) +:+ "." +:+ pad 3 (ms mod 1000) +:+ "Z".

End JS.

(** ** Node's [path] module, POSIX flavour *)

Module Path.

(** The pieces of [s] between separators, empty pieces included. *)
Fixpoint segmentsFrom (acc s : string) : list string :=
  match s with
  | EmptyString => [acc]
  | String c s' =>
      if Ascii.eqb c "/" then acc :: segmentsFrom "" s'
      else segmentsFrom (acc +:+ String c "") s'
  end.

Definition segments (s : string) : list string := segmentsFrom "" s.

(** [normalizeString]: drops empty and ["."] pieces and resolves [".."]
    against the piece before it; [stack] is the result so far, reversed. *)
Fixpoint resolveDots (allowAboveRoot : bool) (stack segs : list string)
  : list string :=
  match segs with
  | [] => rev stack
  | s :: rest =>
      if (String.eqb s "" || String.eqb s ".")%bool
      then resolveDots allowAboveRoot stack rest
      else if String.eqb s ".." then
        match stack with
        | top :: below =>
            if String.eqb top ".."
            then resolveDots allowAboveRoot (".." :: stack) rest
            else resolveDots allowAboveRoot below rest
        | [] =>
            resolveDots allowAboveRoot
              (if allowAboveRoot then [".."] else []) rest
        end
      else resolveDots allowAboveRoot (s :: stack) rest
  end.

Definition isAbsolute (p : string) : bool := JS.startsWith p "/".

Definition endsWithSep (p : string) : bool :=
  match last (segments p) with Some "" => true | _ => false end.

(** The components of the node that [p] names, from the root. *)
Definition components (p : string) : list string :=
  resolveDots false [] (segments p).

(** [path.normalize(p)] *)
Definition normalize (p : string) : string :=
  if String.eqb p "" then "."
  else
    let body := String.concat "/" (resolveDots (negb (isAbsolute p)) [] (segments p)) in
    if String.eqb body "" then
      if isAbsolute p then "/" else if endsWithSep p then "./" else "."
    else
      (if isAbsolute p then "/" else "") +:+ body
        +:+ (if endsWithSep p then "/" else "").

(** [path.join(a, b)] *)
Definition join (a b : string) : string :=
  if String.eqb a "" then normalize b
  else if String.eqb b "" then normalize a
  else normalize (a +:+ "/" +:+ b).

(** [path.basename(p)] *)
Definition basename (p : string) : string :=
  default "" (last (filter (λ s, s ≠ "") (segments p))).

(** [path.dirname(p)], up to redundant separators. *)
Definition dirname (p : string) : string :=
  let parent := removelast (filter (λ s, s ≠ "") (segments p)) in
  if isAbsolute p then "/" +:+ String.concat "/" parent
  else if decide (parent = []) then "." else String.concat "/" parent.

Fixpoint stripCommon (a b : list string) : list string * list string :=
  match a, b with
  | x :: a', y :: b' => if String.eqb x y then stripCommon a' b' else (a, b)
  | _, _ => (a, b)
  end.

(** [path.relative(from, to)] *)
Definition relative (from to : string) : string :=
  let '(up, down) := stripCommon (components from) (components to) in
  String.concat "/" (map (λ _, "..") up ++ down).

End Path.

(** ** Outcomes and the state-and-exception monad *)

Inductive Result (A : Type) :=
| Ok (a : A)
| Throw (e : JS.exn).
Arguments Ok {A} a.
Arguments Throw {A} e.

(** A computation over a state [S]: it returns or throws, and in both cases
    leaves a state behind. *)
Definition M (S A : Type) : Type := S → Result A * S.

Definition ret {S A} (a : A) : M S A := λ s, (Ok a, s).

Definition bind {S A B} (m : M S A) (k : A → M S B) : M S B :=
  λ s, match m s with
       | (Ok a, s') => k a s'
       | (Throw e, s') => (Throw e, s')
       end.

Definition throw {S A} (e : JS.exn) : M S A := λ s, (Throw e, s).

(** [try { m } catch (error) { handler(error) }] *)
Definition tryCatch {S A} (m : M S A) (handler : JS.exn → M S A) : M S A :=
  λ s, match m s with
       | (Ok a, s') => (Ok a, s')
       | (Throw e, s') => handler e s'
       end.

Definition gets {S A} (f : S → A) : M S A := λ s, (Ok (f s), s).

Definition modify {S} (f : S → S) : M S unit := λ s, (Ok tt, f s).

(** Lifts the result of a file-system call: an error code becomes the
    system error of that call. *)
Definition orThrow {S A} (syscall path : string) (r : string + A) : M S A :=
  match r with
  | inr a => ret a
  | inl code => throw (JS.SystemError code syscall path)
  end.

Notation "'let*' x ':=' m 'in' k" := (bind m (λ x, k))
  (at level 10, x pattern, m at level 100, k at level 200,
   format "'[v' 'let*'  x  ':='  m  'in' '/' k ']'").
Notation "m ';;' k" := (bind m (λ _, k))
  (at level 100, k at level 200, right associativity,
   format "'[v' m  ';;' '/' k ']'").

(** ** The file system: a tree of directories and regular files *)

Module Fs.

#[local] Set Warnings "-register-all".

Inductive node :=
| File (data : list byte)
| Dir (entries : list (string * node)).

(** The entry of a directory with the given name. *)
Fixpoint child (name : string) (entries : list (string * node)) : option node :=
  match entries with
  | [] => None
  | (n, x) :: rest => if String.eqb n name then Some x else child name rest
  end.

(** Replaces the entry called [name]. *)
Fixpoint setChild (name : string) (x : node) (entries : list (string * node))
  : list (string * node) :=
  match entries with
  | [] => []
  | (n, y) :: rest =>
      if String.eqb n name then (n, x) :: rest
      else (n, y) :: setChild name x rest
  end.

(** Removes the entry called [name]. *)
Fixpoint dropChild (name : string) (entries : list (string * node))
  : list (string * node) :=
  match entries with
  | [] => []
  | (n, y) :: rest =>
      if String.eqb n name then rest else (n, y) :: dropChild name rest
  end.

Inductive lookup :=
| Found (n : node)
| Missing
| Blocked.   (* a proper prefix of the path is a regular file *)

Fixpoint walk (p : list string) (n : node) : lookup :=
  match p with
  | [] => Found n
  | c :: p' =>
      match n with
      | File _ => Blocked
      | Dir es =>
          match child c es with
          | Some m => walk p' m
          | None => Missing
          end
      end
  end.

(** Writes a regular file at [p], replacing the one there or adding an
    entry at the end of its directory. *)
Fixpoint put (p : list string) (data : list byte) (n : node) : string + node :=
  match p with
  | [] =>
      match n with
      | File _ => inr (File data)
      | Dir _ => inl "EISDIR"
      end
  | c :: p' =>
      match n with
      | File _ => inl "ENOTDIR"
      | Dir es =>
          match child c es with
          | Some m =>
              match put p' data m with
              | inr m' => inr (Dir (setChild c m' es))
              | inl code => inl code
              end
          | None =>
              match p' with
              | [] => inr (Dir (es ++ [(c, File data)]))
              | _ => inl "ENOENT"
              end
          end
      end
  end.

(** [mkdir -p] *)
Fixpoint mkdirp (p : list string) (n : node) : string + node :=
  match p with
  | [] =>
      match n with
      | Dir _ => inr n
      | File _ => inl "EEXIST"
      end
  | c :: p' =>
      match n with
      | File _ => inl "ENOTDIR"
      | Dir es =>
          match child c es with
          | Some m =>
              match mkdirp p' m with
              | inr m' => inr (Dir (setChild c m' es))
              | inl code => inl code
              end
          | None =>
              match mkdirp p' (Dir []) with
              | inr m' => inr (Dir (es ++ [(c, m')]))
              | inl code => inl code
              end
          end
      end
  end.

(** Removes the entry at [p] when [removable] accepts it, and otherwise
    fails with the code [removable] gives. *)
Fixpoint removeAt (removable : node → option string) (p : list string)
  (n : node) : string + node :=
  match p with
  | [] => inl "EPERM"
  | c :: p' =>
      match n with
      | File _ => inl "ENOTDIR"
      | Dir es =>
          match child c es with
          | None => inl "ENOENT"
          | Some m =>
              match p' with
              | [] =>
                  match removable m with
                  | None => inr (Dir (dropChild c es))
                  | Some code => inl code
                  end
              | _ =>
                  match removeAt removable p' m with
                  | inr m' => inr (Dir (setChild c m' es))
                  | inl code => inl code
                  end
              end
          end
      end
  end.

Definition isFile (n : node) : option string :=
  match n with File _ => None | Dir _ => Some "EISDIR" end.

Definition isEmptyDir (n : node) : option string :=
  match n with
  | Dir [] => None
  | Dir _ => Some "ENOTEMPTY"
  | File _ => Some "ENOTDIR"
  end.

(** [fs.existsSync(path)] *)
Definition existsSync (root : node) (path : string) : bool :=
  match walk (Path.components path) root with Found _ => true | _ => false end.

(** [fs.readFileSync(path)] *)
Definition readFileSync (root : node) (path : string) : string + list byte :=
  match walk (Path.components path) root with
  | Found (File data) => inr data
  | Found (Dir _) => inl "EISDIR"
  | Missing => inl "ENOENT"
  | Blocked => inl "ENOTDIR"
  end.

(** [fs.readdirSync(path, { withFileTypes: true })]: the names with
    [isDirectory()]. *)
Definition readdirTypes (root : node) (path : string)
  : string + list (string * bool) :=
  match walk (Path.components path) root with
  | Found (Dir es) =>
      inr (map (λ e, (e.1, match e.2 with Dir _ => true | File _ => false end)) es)
  | Found (File _) => inl "ENOTDIR"
  | Missing => inl "ENOENT"
  | Blocked => inl "ENOTDIR"
  end.

(** [fs.readdirSync(path)] *)
Definition readdirSync (root : node) (path : string) : string + list string :=
  match readdirTypes root path with
  | inr l => inr (map fst l)
  | inl code => inl code
  end.

(** [fs.writeFileSync(path, data)] *)
Definition writeFileSync (root : node) (path : string) (data : list byte)
  : string + node :=
  put (Path.components path) data root.

(** [fs.copyFileSync(src, dest)] *)
Definition copyFileSync (root : node) (src dest : string) : string + node :=
  match readFileSync root src with
  | inr data => writeFileSync root dest data
  | inl code => inl code
  end.

(** [fs.mkdirSync(path, { recursive: true })] *)
Definition mkdirSync (root : node) (path : string) : string + node :=
  mkdirp (Path.components path) root.

(** [fs.unlinkSync(path)] *)
Definition unlinkSync (root : node) (path : string) : string + node :=
  removeAt isFile (Path.components path) root.

(** [fs.rmdirSync(path)] *)
Definition rmdirSync (root : node) (path : string) : string + node :=
  removeAt isEmptyDir (Path.components path) root.

End Fs.

(** ** Data model *)

Inductive Operation := upload | download.

#[global] Instance Operation_eq_dec : EqDecision Operation.
Proof. solve_decision. Defined.

(** The string a template literal interpolates for an operation. *)
Definition operationName (op : Operation) : string :=
  match op with upload => "upload" | download => "download" end.

Module HistoryEntry.
Record t := mk {
  id : string;
  timestamp : Z;
  operation : Operation;
  localPath : string;
  remotePath : string;
  profileName : string;
  fileSize : Z;
  hash : string
}.
End HistoryEntry.

Module ServerProfile.
Record t := mk {
  name : string;
  host : string;
  remotePath : string;
  exclude : list string
}.
End ServerProfile.

Module SyncResult.
Record t := mk {
  success : bool;
  filesProcessed : nat;
  errors : list string
}.
End SyncResult.

(** A request sent over the SFTP connection. *)
Inductive SftpRequest :=
| Connect (profileName : string)
| Stat (remotePath : string)
| ListDir (remotePath : string)
| Mkdir (remotePath : string)
| FastGet (remotePath localPath : string)
| FastPut (localPath remotePath : string).

(** What the extension reads from outside. *)
Record Env := {
  (* vscode.workspace.getConfiguration('filesyncer') *)
  profiles : list ServerProfile.t;
  activeProfile : string;
  maxHistoryVersions : Z;
  historyMaxAgeDays : Z;
  confirmBeforeOverwrite : bool;
  (* vscode.workspace.workspaceFolders?.[0].uri.fsPath *)
  workspaceFolder : option string;
  (* HistoryStorage.historyDir, fixed when the storage is constructed *)
  historyDir : string;
  (* libraries *)
  minimatch : string → string → bool → bool;   (* path, pattern, options.dot *)
  md5hex : list byte → string;
  stringify : list HistoryEntry.t → list byte;  (* JSON.stringify of the index *)
  (* the n-th value of Date.now() and of
     Math.random().toString(36).substr(2, 9) *)
  dateNow : nat → Z;
  randomSuffix : nat → string;
  (* the button picked in the n-th dialog, None when it is dismissed *)
  dialogChoice : nat → option string;
  (* token.isCancellationRequested at its n-th reading *)
  cancellationRequested : nat → bool;
  (* the message of the error the n-th SFTP request fails with *)
  sftpFault : nat → option string
}.

(** The state of the extension and of the two file systems. *)
Record World := {
  fs : Fs.node;                                   (* local file system *)
  remote : Fs.node;                               (* tree behind the connection *)
  index : list HistoryEntry.t;                    (* HistoryStorage.index.entries *)
  pendingBackups : gmap string HistoryEntry.t;    (* HistoryManager.pendingBackups *)
  connections : gmap string bool;                 (* SFTPManager.connections: is the client connected *)
  requests : list SftpRequest;                    (* every request sent so far *)
  clockReads : nat;
  randomReads : nat;
  dialogsShown : nat;
  tokenReads : nat
}.

Definition setFs (f : Fs.node) (w : World) : World :=
  {| fs := f; remote := remote w; index := index w;
     pendingBackups := pendingBackups w; connections := connections w;
     requests := requests w; clockReads := clockReads w;
     randomReads := randomReads w; dialogsShown := dialogsShown w;
     tokenReads := tokenReads w |}.

Definition setRemote (r : Fs.node) (w : World) : World :=
  {| fs := fs w; remote := r; index := index w;
     pendingBackups := pendingBackups w; connections := connections w;
     requests := requests w; clockReads := clockReads w;
     randomReads := randomReads w; dialogsShown := dialogsShown w;
     tokenReads := tokenReads w |}.

Definition setIndex (i : list HistoryEntry.t) (w : World) : World :=
  {| fs := fs w; remote := remote w; index := i;
     pendingBackups := pendingBackups w; connections := connections w;
     requests := requests w; clockReads := clockReads w;
     randomReads := randomReads w; dialogsShown := dialogsShown w;
     tokenReads := tokenReads w |}.

Definition setPendingBackups (p : gmap string HistoryEntry.t) (w : World) : World :=
  {| fs := fs w; remote := remote w; index := index w;
     pendingBackups := p; connections := connections w;
     requests := requests w; clockReads := clockReads w;
     randomReads := randomReads w; dialogsShown := dialogsShown w;
     tokenReads := tokenReads w |}.

Definition setConnections (c : gmap string bool) (w : World) : World :=
  {| fs := fs w; remote := remote w; index := index w;
     pendingBackups := pendingBackups w; connections := c;
     requests := requests w; clockReads := clockReads w;
     randomReads := randomReads w; dialogsShown := dialogsShown w;
     tokenReads := tokenReads w |}.

Definition setRequests (r : list SftpRequest) (w : World) : World :=
  {| fs := fs w; remote := remote w; index := index w;
     pendingBackups := pendingBackups w; connections := connections w;
     requests := r; clockReads := clockReads w;
     randomReads := randomReads w; dialogsShown := dialogsShown w;
     tokenReads := tokenReads w |}.

Definition setClockReads (n : nat) (w : World) : World :=
  {| fs := fs w; remote := remote w; index := index w;
     pendingBackups := pendingBackups w; connections := connections w;
     requests := requests w; clockReads := n;
     randomReads := randomReads w; dialogsShown := dialogsShown w;
     tokenReads := tokenReads w |}.

Definition setRandomReads (n : nat) (w : World) : World :=
  {| fs := fs w; remote := remote w; index := index w;
     pendingBackups := pendingBackups w; connections := connections w;
     requests := requests w; clockReads := clockReads w;
     randomReads := n; dialogsShown := dialogsShown w;
     tokenReads := tokenReads w |}.

Definition setDialogsShown (n : nat) (w : World) : World :=
  {| fs := fs w; remote := remote w; index := index w;
     pendingBackups := pendingBackups w; connections := connections w;
     requests := requests w; clockReads := clockReads w;
     randomReads := randomReads w; dialogsShown := n;
     tokenReads := tokenReads w |}.

Definition setTokenReads (n : nat) (w : World) : World :=
  {| fs := fs w; remote := remote w; index := index w;
     pendingBackups := pendingBackups w; connections := connections w;
     requests := requests w; clockReads := clockReads w;
     randomReads := randomReads w; dialogsShown := dialogsShown w;
     tokenReads := n |}.

(** [Date.now()] *)
Definition now (env : Env) : M World Z :=
  λ w, (Ok (dateNow env (clockReads w)), setClockReads (S (clockReads w)) w).

(** [Math.random().toString(36).substr(2, 9)] *)
Definition random (env : Env) : M World string :=
  λ w, (Ok (randomSuffix env (randomReads w)), setRandomReads (S (randomReads w)) w).

(** A file-system call on the local tree that changes it. *)
Definition fsUpdate (syscall path : string) (f : Fs.node → string + Fs.node)
  : M World unit :=
  let* root := gets fs in
  let* root' := orThrow syscall path (f root) in
  modify (setFs root').

(** A file-system call on the local tree that reads it. *)
Definition fsRead {A} (syscall path : string) (f : Fs.node → string + A)
  : M World A :=
  let* root := gets fs in
  orThrow syscall path (f root).

(** ** ProfileManager *)

Module ProfileManager.
Section WithEnv.
Context (env : Env).

(** [getProfile(name)] *)
Definition getProfile (name : string) : option ServerProfile.t :=
  find (λ p, String.eqb (ServerProfile.name p) name) (profiles env).

(** [getActiveProfile()] *)
Definition getActiveProfile : option ServerProfile.t :=
  if String.eqb (activeProfile env) "" then head (profiles env)
  else getProfile (activeProfile env).

End WithEnv.
End ProfileManager.

(** ** HistoryStorage *)

Module HistoryStorage.
Section WithEnv.
Context (env : Env).

Definition indexPath : string := Path.join (historyDir env) "index.json".

(** [saveIndex()]: a failure to write is logged and dropped. *)
Definition saveIndex : M World unit :=
  tryCatch
    (let* entries := gets index in
     fsUpdate "open" indexPath
       (λ root, Fs.writeFileSync root indexPath (stringify env entries)))
    (λ _, ret tt).

(** [computeHash(filePath)] *)
Definition computeHash (filePath : string) : M World string :=
  let* content := fsRead "open" filePath (λ root, Fs.readFileSync root filePath) in
  ret (md5hex env content).

(** [getVersionDir(entry)] *)
Definition getVersionDir (entry : HistoryEntry.t) : string :=
  let dateStr :=
    JS.dropLast 5 (JS.replaceColonDot (JS.toISOString (HistoryEntry.timestamp entry))) in
  Path.join (historyDir env) (dateStr +:+ "_" +:+ HistoryEntry.profileName entry).

(** The predicate of [files.find] in [getBackupPath] and [deleteEntry]. *)
Definition isBackupOf (fileName f : string) : bool :=
  JS.startsWith f fileName && JS.includes f "_v".

(** The entries [generateVersionSuffix] counts. *)
Definition sameTriple (localPath : string) (entry e : HistoryEntry.t) : bool :=
  String.eqb (HistoryEntry.localPath e) localPath
  && bool_decide (HistoryEntry.operation e = HistoryEntry.operation entry)
  && String.eqb (HistoryEntry.profileName e) (HistoryEntry.profileName entry).

(** The number [generateVersionSuffix] renders. *)
Definition versionOrdinal (entries : list HistoryEntry.t) (localPath : string)
  (entry : HistoryEntry.t) : nat :=
  length (filter (λ e, sameTriple localPath entry e = true) entries) + 1.

(** [generateVersionSuffix(localPath, entry)] *)
Definition generateVersionSuffix (localPath : string) (entry : HistoryEntry.t)
  : M World string :=
  let* entries := gets index in
  ret (pretty (versionOrdinal entries localPath entry)).

(** [backupFile(localPath, entry)]: the path of the snapshot, and the entry
    with the hash and the size it was given. *)
Definition backupFile (localPath : string) (entry : HistoryEntry.t)
  : M World (string * HistoryEntry.t) :=
  let versionDir := getVersionDir entry in
  let* dirExists := gets (λ w, Fs.existsSync (fs w) versionDir) in
  (if dirExists then ret tt
   else fsUpdate "mkdir" versionDir (λ root, Fs.mkdirSync root versionDir));;
  let fileName := Path.basename localPath in
  let* versionSuffix := generateVersionSuffix localPath entry in
  let backupPath := Path.join versionDir (fileName +:+ "_v" +:+ versionSuffix) in
  let* fileExists := gets (λ w, Fs.existsSync (fs w) localPath) in
  if fileExists then
    fsUpdate "copyfile" localPath (λ root, Fs.copyFileSync root localPath backupPath);;
    let* h := computeHash localPath in
    let* content := fsRead "stat" localPath (λ root, Fs.readFileSync root localPath) in
    ret (backupPath,
         HistoryEntry.mk (HistoryEntry.id entry) (HistoryEntry.timestamp entry)
           (HistoryEntry.operation entry) (HistoryEntry.localPath entry)
           (HistoryEntry.remotePath entry) (HistoryEntry.profileName entry)
           (Z.of_nat (length content)) h)
  else ret (backupPath, entry).

(** The comparator [(a, b) => b.timestamp - a.timestamp] puts [a] before
    [b] when [a] is not older; [Array.prototype.sort] is stable. *)
Fixpoint insertNewestFirst (x : HistoryEntry.t) (l : list HistoryEntry.t)
  : list HistoryEntry.t :=
  match l with
  | [] => [x]
  | y :: l' =>
      if HistoryEntry.timestamp y <=? HistoryEntry.timestamp x then x :: l
      else y :: insertNewestFirst x l'
  end.

Definition sortNewestFirst (l : list HistoryEntry.t) : list HistoryEntry.t :=
  foldr insertNewestFirst [] l.

(** [getHistoryForFile(localPath)] *)
Definition getHistoryForFile (localPath : string) : M World (list HistoryEntry.t) :=
  let* entries := gets index in
  ret (sortNewestFirst
         (filter (λ e, HistoryEntry.localPath e = localPath) entries)).

(** [getBackupPath(entry)]: [None] is [undefined]. *)
Definition getBackupPath (entry : HistoryEntry.t) : M World (option string) :=
  let versionDir := getVersionDir entry in
  let fileName := Path.basename (HistoryEntry.localPath entry) in
  let* files := fsRead "scandir" versionDir (λ root, Fs.readdirSync root versionDir) in
  match find (isBackupOf fileName) files with
  | Some backupFile => ret (Some (Path.join versionDir backupFile))
  | None => ret None
  end.

(** [deleteEntry(entry)] *)
Definition deleteEntry (entry : HistoryEntry.t) : M World unit :=
  let versionDir := getVersionDir entry in
  let fileName := Path.basename (HistoryEntry.localPath entry) in
  tryCatch
    (let* files := fsRead "scandir" versionDir (λ root, Fs.readdirSync root versionDir) in
     match find (isBackupOf fileName) files with
     | Some backupFile =>
         let backupPath := Path.join versionDir backupFile in
         fsUpdate "unlink" backupPath (λ root, Fs.unlinkSync root backupPath)
     | None => ret tt
     end;;
     let* remainingFiles :=
       fsRead "scandir" versionDir (λ root, Fs.readdirSync root versionDir) in
     if decide (length remainingFiles = 0%nat)
     then fsUpdate "rmdir" versionDir (λ root, Fs.rmdirSync root versionDir)
     else ret tt)
    (λ _, ret tt);;
  modify (λ w, setIndex
    (filter (λ e, HistoryEntry.id e ≠ HistoryEntry.id entry) (index w)) w);;
  saveIndex.

(** The [Map] from local path to entries that [cleanupOldEntries] builds:
    keys in the order they were first seen, entries in index order. *)
Fixpoint addToGroup (e : HistoryEntry.t)
  (groups : list (string * list HistoryEntry.t))
  : list (string * list HistoryEntry.t) :=
  match groups with
  | [] => [(HistoryEntry.localPath e, [e])]
  | (k, es) :: rest =>
      if String.eqb k (HistoryEntry.localPath e) then (k, es ++ [e]) :: rest
      else (k, es) :: addToGroup e rest
  end.

Definition entriesByFile (entries : list HistoryEntry.t)
  : list (string * list HistoryEntry.t) :=
  fold_left (λ groups e, addToGroup e groups) entries [].

(** What one group adds to [entriesToDelete]. *)
Definition groupToDelete (maxVersions maxAge now : Z)
  (entries : list HistoryEntry.t) : list HistoryEntry.t :=
  let sorted := sortNewestFirst entries in
  (if Z.of_nat (length sorted) >? maxVersions
   then JS.slice maxVersions sorted else [])
  ++ filter (λ e, now - HistoryEntry.timestamp e > maxAge) sorted.

Definition entriesToDelete (maxVersions maxAge now : Z)
  (entries : list HistoryEntry.t) : list HistoryEntry.t :=
  flat_map (λ g, groupToDelete maxVersions maxAge now g.2) (entriesByFile entries).

Fixpoint forEach {S A} (f : A → M S unit) (l : list A) : M S unit :=
  match l with
  | [] => ret tt
  | x :: rest => f x;; forEach f rest
  end.

(** [cleanupOldEntries()] *)
Definition cleanupOldEntries : M World unit :=
  let maxVersions := maxHistoryVersions env in
  let maxAgeDays := historyMaxAgeDays env in
  let* now := now env in
  let maxAge := maxAgeDays * 24 * 60 * 60 * 1000 in
  let* entries := gets index in
  forEach deleteEntry (entriesToDelete maxVersions maxAge now entries).

(** [addEntry(entry)] *)
Definition addEntry (entry : HistoryEntry.t) : M World unit :=
  modify (λ w, setIndex (index w ++ [entry]) w);;
  saveIndex;;
  cleanupOldEntries.

(** [getAllEntries()] *)
Definition getAllEntries : M World (list HistoryEntry.t) :=
  let* entries := gets index in
  ret (sortNewestFirst entries).

End WithEnv.
End HistoryStorage.

(** ** HistoryManager *)

Module HistoryManager.
Section WithEnv.
Context (env : Env).

(** [generateId()] *)
Definition generateId : M World string :=
  let* t := now env in
  let* r := random env in
  ret (pretty t +:+ "-" +:+ r).

(** [getBackupKey(localPath, remotePath, operation)] *)
Definition getBackupKey (localPath remotePath : string) (operation : Operation)
  : string :=
  localPath +:+ "|" +:+ remotePath +:+ "|" +:+ operationName operation.

(** The common body of [recordBeforeUpload] and [recordBeforeDownload]. *)
Definition recordBefore (operation : Operation) (localPath remotePath : string)
  : M World unit :=
  match ProfileManager.getActiveProfile env with
  | None => ret tt
  | Some profile =>
      let* id := generateId in
      let* timestamp := now env in
      let entry :=
        HistoryEntry.mk id timestamp operation localPath remotePath
          (ServerProfile.name profile) 0 "" in
      let* fileExists := gets (λ w, Fs.existsSync (fs w) localPath) in
      if fileExists then
        let* backup := HistoryStorage.backupFile env localPath entry in
        modify (λ w, setPendingBackups
          (<[getBackupKey localPath remotePath operation := backup.2]>
             (pendingBackups w)) w)
      else ret tt
  end.

(** The common body of [recordAfterUpload] and [recordAfterDownload]. *)
Definition recordAfter (operation : Operation) (localPath remotePath : string)
  : M World unit :=
  let key := getBackupKey localPath remotePath operation in
  let* entry := gets (λ w, pendingBackups w !! key) in
  match entry with
  | Some entry =>
      HistoryStorage.addEntry env entry;;
      modify (λ w, setPendingBackups (delete key (pendingBackups w)) w)
  | None => ret tt
  end.

Definition recordBeforeUpload := recordBefore upload.
Definition recordAfterUpload := recordAfter upload.
Definition recordBeforeDownload := recordBefore download.
Definition recordAfterDownload := recordAfter download.

(** [getHistoryForFile(localPath)] *)
Definition getHistoryForFile (localPath : string) : M World (list HistoryEntry.t) :=
  HistoryStorage.getHistoryForFile localPath.

(** [restoreFromHistory(entry)] *)
Definition restoreFromHistory (entry : HistoryEntry.t) : M World unit :=
  let* backupPath := HistoryStorage.getBackupPath env entry in
  match backupPath with
  | None => throw (JS.Error "Backup file not found")
  | Some backupPath =>
      let* found := gets (λ w, Fs.existsSync (fs w) backupPath) in
      if found then
        fsUpdate "copyfile" backupPath
          (λ root, Fs.copyFileSync root backupPath (HistoryEntry.localPath entry))
      else throw (JS.Error "Backup file not found")
  end.

(** [getAllHistory()] *)
Definition getAllHistory : M World (list HistoryEntry.t) :=
  HistoryStorage.getAllEntries.

End WithEnv.
End HistoryManager.

(** ** SFTPClient and SFTPManager *)

Module SFTPClient.
Section WithEnv.
Context (env : Env).

(** Sends a request over the connection: it is recorded, and fails when
    the connection does. *)
Definition request (r : SftpRequest) : M World unit :=
  let* n := gets (λ w, length (requests w)) in
  modify (λ w, setRequests (requests w ++ [r]) w);;
  match sftpFault env n with
  | Some message => throw (JS.Error message)
  | None => ret tt
  end.

(** The methods of the [ssh2-sftp-client] library, on the remote tree. *)

Definition libConnect (profileName : string) : M World unit :=
  request (Connect profileName).

Definition libStat (remotePath : string) : M World unit :=
  request (Stat remotePath);;
  let* found := gets (λ w, Fs.existsSync (remote w) remotePath) in
  if found then ret tt else throw (JS.Error ("No such file: " +:+ remotePath)).

Definition libMkdir (remotePath : string) : M World unit :=
  request (Mkdir remotePath);;
  let* root := gets remote in
  let* root' := orThrow "mkdir" remotePath (Fs.mkdirSync root remotePath) in
  modify (setRemote root').

Definition libFastGet (remotePath localPath : string) : M World unit :=
  request (FastGet remotePath localPath);;
  let* root := gets remote in
  let* data := orThrow "open" remotePath (Fs.readFileSync root remotePath) in
  fsUpdate "open" localPath (λ root, Fs.writeFileSync root localPath data).

Definition libFastPut (localPath remotePath : string) : M World unit :=
  request (FastPut localPath remotePath);;
  let* data := fsRead "open" localPath (λ root, Fs.readFileSync root localPath) in
  let* root := gets remote in
  let* root' := orThrow "open" remotePath (Fs.writeFileSync root remotePath data) in
  modify (setRemote root').

(** The private [ensureConnected()] of a client; a client is named by the
    profile it was created for. *)
Definition ensureConnected (client : string) : M World unit :=
  let* connected := gets (λ w, connections w !! client) in
  match connected with
  | Some true => ret tt
  | _ => throw (JS.Error "Not connected to SFTP server")
  end.

(** [connect(profile)] *)
Definition connect (client : string) : M World unit :=
  tryCatch
    (libConnect client;;
     modify (λ w, setConnections (<[client := true]> (connections w)) w))
    (λ error,
       modify (λ w, setConnections (<[client := false]> (connections w)) w);;
       throw (JS.Error ("Failed to connect: " +:+ JS.toString error))).

(** [exists(remotePath)] *)
Definition exists_ (client remotePath : string) : M World bool :=
  ensureConnected client;;
  tryCatch (libStat remotePath;; ret true) (λ _, ret false).

(** [getFile(remotePath, localPath)] *)
Definition getFile (client remotePath localPath : string) : M World unit :=
  ensureConnected client;;
  tryCatch
    (let dir := Path.dirname localPath in
     let* dirExists := gets (λ w, Fs.existsSync (fs w) dir) in
     (if dirExists then ret tt
      else fsUpdate "mkdir" dir (λ root, Fs.mkdirSync root dir));;
     libFastGet remotePath localPath)
    (λ error,
       throw (JS.Error ("Failed to download file " +:+ remotePath +:+ ": "
                          +:+ JS.toString error))).

(** [putFile(localPath, remotePath)] *)
Definition putFile (client localPath remotePath : string) : M World unit :=
  ensureConnected client;;
  tryCatch
    (let remoteDir := Path.dirname remotePath in
     tryCatch (libMkdir remoteDir) (λ _, ret tt);;
     libFastPut localPath remotePath)
    (λ error,
       throw (JS.Error ("Failed to upload file " +:+ localPath +:+ ": "
                          +:+ JS.toString error))).

(** The [catch] clause of [listDir(remotePath)]. *)
Definition listDirFailed {A} (remotePath : string) (error : JS.exn) : M World A :=
  throw (JS.Error ("Failed to list directory " +:+ remotePath +:+ ": "
                     +:+ JS.toString error)).

End WithEnv.
End SFTPClient.

Module SFTPManager.
Section WithEnv.
Context (env : Env).

(** [getClient(profileName)] *)
Definition getClient (profileName : string) : M World (option string) :=
  let* connected := gets (λ w, connections w !! profileName) in
  match connected with
  | Some true => ret (Some profileName)
  | _ => ret None
  end.

(** [connect(profileName)] *)
Definition connect (profileName : string) : M World string :=
  match ProfileManager.getProfile env profileName with
  | None => throw (JS.Error ("Profile " +:+ JS.quote +:+ profileName +:+ JS.quote
                            +:+ " not found"))
  | Some profile =>
      let* existing := getClient profileName in
      match existing with
      | Some client => ret client
      | None =>
          modify (λ w, setConnections (<[profileName := false]> (connections w)) w);;
          SFTPClient.connect env profileName;;
          ret profileName
      end
  end.

(** [ensureConnected()] *)
Definition ensureConnected : M World string :=
  match ProfileManager.getActiveProfile env with
  | None =>
      throw (JS.Error "No active profile. Please configure a server profile first.")
  | Some profile =>
      let activeProfile := ServerProfile.name profile in
      if String.eqb activeProfile "" then
        throw (JS.Error "No active profile. Please configure a server profile first.")
      else
        let* client := getClient activeProfile in
        match client with
        | Some client => ret client
        | None => connect activeProfile
        end
  end.


End WithEnv.
End SFTPManager.

(** ** SyncManager *)

Module SyncManager.

(** What a public operation works on: the [result] object it builds and
    the world. *)
Record Run := {
  result : SyncResult.t;
  world : World
}.

Definition inWorld {A} (m : M World A) : M Run A :=
  λ r, let '(a, w) := m (world r) in (a, {| result := result r; world := w |}).

Definition updateResult (f : SyncResult.t → SyncResult.t) : M Run unit :=
  modify (λ r, {| result := f (result r); world := world r |}).

(** [result.filesProcessed = n] *)
Definition setFilesProcessed (n : nat) (r : SyncResult.t) : SyncResult.t :=
  SyncResult.mk (SyncResult.success r) n (SyncResult.errors r).

(** [result.filesProcessed++] *)
Definition countFile (r : SyncResult.t) : SyncResult.t :=
  setFilesProcessed (S (SyncResult.filesProcessed r)) r.

(** [result.errors.push(message)] *)
Definition pushError (message : string) (r : SyncResult.t) : SyncResult.t :=
  SyncResult.mk (SyncResult.success r) (SyncResult.filesProcessed r)
    (SyncResult.errors r ++ [message]).

(** [result.success = false] *)
Definition setFailed (r : SyncResult.t) : SyncResult.t :=
  SyncResult.mk false (SyncResult.filesProcessed r) (SyncResult.errors r).

(** The [result] every operation starts from. *)
Definition freshResult : SyncResult.t := SyncResult.mk true 0 [].

(** The [catch] clause that closes every operation. *)
Definition operationFailed (error : JS.exn) : M Run unit :=
  updateResult setFailed;;
  updateResult (pushError (JS.toString error)).

(** Runs the body of an operation, [try { body } catch { ... } return result]. *)
Definition operation (body : M Run unit) (w : World) : SyncResult.t * World :=
  let '(_, r) := tryCatch body operationFailed {| result := freshResult; world := w |} in
  (result r, world r).

Section WithEnv.
Context (env : Env).

(** [vscode.window.showWarningMessage(..., 'Overwrite', 'Cancel')] *)
Definition showWarningMessage : M World (option string) :=
  λ w, (Ok (dialogChoice env (dialogsShown w)), setDialogsShown (S (dialogsShown w)) w).

(** The dialog of a single-file transfer onto an occupied destination:
    [choice !== 'Overwrite']. *)
Definition overwriteDeclined : M Run bool :=
  let* choice := inWorld showWarningMessage in
  ret (bool_decide (choice ≠ Some "Overwrite")).

(** [token.isCancellationRequested] *)
Definition isCancellationRequested : M World bool :=
  λ w, (Ok (cancellationRequested env (tokenReads w)), setTokenReads (S (tokenReads w)) w).

(** [const activeProfile = getActiveProfile(); if (!activeProfile) throw ...] *)
Definition requireActiveProfile : M Run ServerProfile.t :=
  match ProfileManager.getActiveProfile env with
  | Some profile => ret profile
  | None => throw (JS.Error "No active server profile")
  end.

(** [const workspaceFolder = ...; if (!workspaceFolder) throw ...] *)
Definition requireWorkspaceFolder : M Run string :=
  match workspaceFolder env with
  | Some folder => ret folder
  | None => throw (JS.Error "No workspace folder open")
  end.

(** [given || fallback], for an optional string argument. *)
Definition orElse {S} (given : option string) (fallback : M S string) : M S string :=
  match given with
  | Some p => if String.eqb p "" then fallback else ret p
  | None => fallback
  end.

(** [getRemotePath(localPath, remoteBase)] *)
Definition getRemotePath (localPath remoteBase : string) : string :=
  match workspaceFolder env with
  | None => Path.join remoteBase (Path.basename localPath)
  | Some folder => Path.join remoteBase (Path.relative folder localPath)
  end.

(** [getLocalPath(remotePath, remoteBase)] *)
Definition getLocalPath (remotePath remoteBase : string) : M Run string :=
  match workspaceFolder env with
  | None => throw (JS.Error "No workspace folder open")
  | Some folder => ret (Path.join folder (Path.relative remoteBase remotePath))
  end.

(** [shouldExclude(filePath, excludePatterns)] *)
Fixpoint shouldExclude (filePath : string) (excludePatterns : list string) : bool :=
  match excludePatterns with
  | [] => false
  | pattern :: rest =>
      if minimatch env filePath pattern false || minimatch env filePath pattern true
      then true
      else shouldExclude filePath rest
  end.

(** The files below the directory node [n], which is at [dirPath]: the
    loop of [getAllFiles], the recursive call taking the node of the
    sub-directory. *)
Fixpoint filesBelow (dirPath : string) (n : Fs.node) : list string :=
  match n with
  | Fs.File _ => [dirPath]
  | Fs.Dir entries =>
      (fix each (entries : list (string * Fs.node)) : list string :=
         match entries with
         | [] => []
         | (name, child) :: rest =>
             filesBelow (Path.join dirPath name) child ++ each rest
         end) entries
  end.

(** [getAllFiles(dirPath)] *)
Definition getAllFiles (dirPath : string) : M World (list string) :=
  let* root := gets fs in
  match Fs.walk (Path.components dirPath) root with
  | Fs.Found (Fs.Dir entries) => ret (filesBelow dirPath (Fs.Dir entries))
  | Fs.Found (Fs.File _) => throw (JS.SystemError "ENOTDIR" "scandir" dirPath)
  | Fs.Missing => throw (JS.SystemError "ENOENT" "scandir" dirPath)
  | Fs.Blocked => throw (JS.SystemError "ENOTDIR" "scandir" dirPath)
  end.

(** The remote files below the directory node [n], which is at
    [remotePath]: one [listDir] request for the directory, then the loop of
    [getAllRemoteFiles] over what it lists. *)
Fixpoint remoteFilesBelow (client remotePath : string) (n : Fs.node)
  : M World (list string) :=
  match n with
  | Fs.File _ => ret [remotePath]
  | Fs.Dir entries =>
      SFTPClient.ensureConnected client;;
      tryCatch (SFTPClient.request env (ListDir remotePath))
        (SFTPClient.listDirFailed remotePath);;
      (fix each (entries : list (string * Fs.node)) : M World (list string) :=
         match entries with
         | [] => ret []
         | (name, child) :: rest =>
             if String.eqb name "." || String.eqb name ".." then each rest
             else
               let* here := remoteFilesBelow client (Path.join remotePath name) child in
               let* others := each rest in
               ret (here ++ others)
         end) entries
  end.

(** [getAllRemoteFiles(remotePath, client)] *)
Definition getAllRemoteFiles (remotePath client : string) : M World (list string) :=
  let* root := gets remote in
  match Fs.walk (Path.components remotePath) root with
  | Fs.Found (Fs.Dir entries) => remoteFilesBelow client remotePath (Fs.Dir entries)
  | _ =>
      SFTPClient.ensureConnected client;;
      tryCatch
        (SFTPClient.request env (ListDir remotePath);;
         throw (JS.Error ("No such directory: " +:+ remotePath)))
        (SFTPClient.listDirFailed remotePath)
  end.

(** [uploadFile(localPath, remotePath)] *)
Definition uploadFile (localPath : string) (remotePath : option string)
  : World → SyncResult.t * World :=
  operation
    (let* activeProfile := requireActiveProfile in
     let* targetRemotePath :=
       orElse remotePath
         (ret (getRemotePath localPath (ServerProfile.remotePath activeProfile))) in
     let* client := inWorld (SFTPManager.ensureConnected env) in
     let* occupied :=
       if confirmBeforeOverwrite env
       then inWorld (SFTPClient.exists_ env client targetRemotePath)
       else ret false in
     let* declined := if occupied then overwriteDeclined else ret false in
     if declined then ret tt
     else
       inWorld (HistoryManager.recordBeforeUpload env localPath targetRemotePath);;
       inWorld (SFTPClient.putFile env client localPath targetRemotePath);;
       updateResult (setFilesProcessed 1);;
       inWorld (HistoryManager.recordAfterUpload env localPath targetRemotePath)).

(** [downloadFile(remotePath, localPath)] *)
Definition downloadFile (remotePath : string) (localPath : option string)
  : World → SyncResult.t * World :=
  operation
    (let* activeProfile := requireActiveProfile in
     let* targetLocalPath :=
       orElse localPath
         (getLocalPath remotePath (ServerProfile.remotePath activeProfile)) in
     let* client := inWorld (SFTPManager.ensureConnected env) in
     let* occupied :=
       if confirmBeforeOverwrite env
       then inWorld (gets (λ w, Fs.existsSync (fs w) targetLocalPath))
       else ret false in
     let* declined := if occupied then overwriteDeclined else ret false in
     if declined then ret tt
     else
       inWorld (HistoryManager.recordBeforeDownload env targetLocalPath remotePath);;
       inWorld (SFTPClient.getFile env client remotePath targetLocalPath);;
       updateResult (setFilesProcessed 1);;
       inWorld (HistoryManager.recordAfterDownload env targetLocalPath remotePath)).

(** The loop of a bulk operation: before each file the token is read, and
    what [transfer] throws for a file is caught and pushed on the errors. *)
Fixpoint forEachFile (cancelled : string) (transfer : string → M World unit)
  (files : list string) : M Run unit :=
  match files with
  | [] => ret tt
  | file :: rest =>
      let* cancel := inWorld isCancellationRequested in
      if cancel then throw (JS.Error cancelled)
      else
        tryCatch
          (inWorld (transfer file);;
           updateResult countFile)
          (λ error, updateResult (pushError (file +:+ ": " +:+ JS.toString error)));;
        forEachFile cancelled transfer rest
  end.

(** The body of the loop of [uploadFolder] and of [syncAll]. *)
Definition uploadOne (client localBase remoteBase file : string) : M World unit :=
  let relativePath := Path.relative localBase file in
  let remoteFilePath := Path.join remoteBase relativePath in
  HistoryManager.recordBeforeUpload env file remoteFilePath;;
  SFTPClient.putFile env client file remoteFilePath;;
  HistoryManager.recordAfterUpload env file remoteFilePath.

(** The body of the loop of [downloadFolder]. *)
Definition downloadOne (client remoteBase localBase file : string) : M World unit :=
  let relativePath := Path.relative remoteBase file in
  let localFilePath := Path.join localBase relativePath in
  HistoryManager.recordBeforeDownload env localFilePath file;;
  SFTPClient.getFile env client file localFilePath;;
  HistoryManager.recordAfterDownload env localFilePath file.

(** What a bulk operation has settled when it opens its progress
    notification: the files, and what the loop does with each. *)
Record Plan := {
  files : list string;
  transfer : string → M World unit
}.

(** The progress callback of a bulk operation. *)
Definition withProgress (cancelled : string) (plan : Plan) : M Run unit :=
  forEachFile cancelled (transfer plan) (files plan).

(** [uploadFolder]: up to the progress notification. *)
Definition uploadFolderPlan (localFolderPath : string) (remotePath : option string)
  : M Run Plan :=
  let* activeProfile := requireActiveProfile in
  let* targetRemotePath :=
    orElse remotePath
      (ret (getRemotePath localFolderPath (ServerProfile.remotePath activeProfile))) in
  let* client := inWorld (SFTPManager.ensureConnected env) in
  let* files := inWorld (getAllFiles localFolderPath) in
  ret {| files := files;
         transfer := uploadOne client localFolderPath targetRemotePath |}.

(** [uploadFolder(localFolderPath, remotePath)] *)
Definition uploadFolder (localFolderPath : string) (remotePath : option string)
  : World → SyncResult.t * World :=
  operation
    (let* plan := uploadFolderPlan localFolderPath remotePath in
     withProgress "Upload cancelled" plan).

(** [downloadFolder]: up to the progress notification. *)
Definition downloadFolderPlan (remoteFolderPath : string) (localPath : option string)
  : M Run Plan :=
  let* activeProfile := requireActiveProfile in
  let* targetLocalPath :=
    orElse localPath
      (getLocalPath remoteFolderPath (ServerProfile.remotePath activeProfile)) in
  let* client := inWorld (SFTPManager.ensureConnected env) in
  let* files := inWorld (getAllRemoteFiles remoteFolderPath client) in
  ret {| files := files;
         transfer := downloadOne client remoteFolderPath targetLocalPath |}.

(** [downloadFolder(remoteFolderPath, localPath)] *)
Definition downloadFolder (remoteFolderPath : string) (localPath : option string)
  : World → SyncResult.t * World :=
  operation
    (let* plan := downloadFolderPlan remoteFolderPath localPath in
     withProgress "Download cancelled" plan).

(** The filter of [syncAll]. *)
Definition filesToUpload (folder : string) (exclude localFiles : list string)
  : list string :=
  filter (λ file, shouldExclude (Path.relative folder file) exclude = false)
    localFiles.

(** [syncAll]: up to the progress notification. *)
Definition syncAllPlan : M Run Plan :=
  let* folder := requireWorkspaceFolder in
  let* activeProfile := requireActiveProfile in
  let* client := inWorld (SFTPManager.ensureConnected env) in
  let* localFiles := inWorld (getAllFiles folder) in
  ret {| files := filesToUpload folder (ServerProfile.exclude activeProfile) localFiles;
         transfer := uploadOne client folder (ServerProfile.remotePath activeProfile) |}.

(** [syncAll()] *)
Definition syncAll : World → SyncResult.t * World :=
  operation
    (let* plan := syncAllPlan in
     withProgress "Sync cancelled" plan).

End WithEnv.
End SyncManager.

(** ** Vocabulary of the properties *)

(** The age limit of retention, in milliseconds. *)
Definition maxAge (env : Env) : Z := historyMaxAgeDays env * 24 * 60 * 60 * 1000.

(** The entries of the index for one local path. *)
Definition entriesFor (localPath : string) (entries : list HistoryEntry.t)
  : list HistoryEntry.t :=
  filter (λ e, HistoryEntry.localPath e = localPath) entries.

(** What the deletions of one pruning pass leave of [entries]: an entry
    goes when [deleteEntry] was called with its id. *)
Definition afterPruning (env : Env) (now : Z) (entries : list HistoryEntry.t)
  : list HistoryEntry.t :=
  filter (λ e, HistoryEntry.id e ∉
                 HistoryEntry.id <$>
                   HistoryStorage.entriesToDelete (maxHistoryVersions env)
                     (maxAge env) now entries)
    entries.

(** The group of a key in the [Map] of [cleanupOldEntries]. *)
Fixpoint groupOf (key : string) (groups : list (string * list HistoryEntry.t))
  : option (list HistoryEntry.t) :=
  match groups with
  | [] => None
  | (k, es) :: rest => if String.eqb k key then Some es else groupOf key rest
  end.

(** The entries of the index that [generateVersionSuffix] counts for a
    (local path, operation, profile) triple. *)
Definition indexedFor (localPath : string) (operation : Operation)
  (profileName : string) (entries : list HistoryEntry.t) : list HistoryEntry.t :=
  filter (λ e, HistoryEntry.localPath e = localPath
               ∧ HistoryEntry.operation e = operation
               ∧ HistoryEntry.profileName e = profileName) entries.

(** The entries the history knows: committed to the index, or pending. *)
Definition tracked (w : World) (e : HistoryEntry.t) : Prop :=
  e ∈ index w ∨ ∃ key, pendingBackups w !! key = Some e.

(** The errors that say a snapshot could not be found: the one
    [restoreFromHistory] builds, and those of [readdirSync] on a snapshot
    directory that is not there. *)
Definition isNotFound (e : JS.exn) : bool :=
  match e with
  | JS.Error message => String.eqb message "Backup file not found"
  | JS.SystemError code _ _ => String.eqb code "ENOENT" || String.eqb code "ENOTDIR"
  end.

(** Did the computation return. *)
Definition isOk {A} (r : Result A) : bool :=
  match r with Ok _ => true | Throw _ => false end.

(** The requests that move the content of a file. *)
Definition isTransfer (r : SftpRequest) : bool :=
  match r with
  | FastGet _ _ | FastPut _ _ => true
  | _ => false
  end.

(** A call of a public operation of the SyncManager. *)
Inductive Call :=
| UploadFile (localPath : string) (remotePath : option string)
| DownloadFile (remotePath : string) (localPath : option string)
| UploadFolder (localFolderPath : string) (remotePath : option string)
| DownloadFolder (remoteFolderPath : string) (localPath : option string)
| SyncAll.

Definition run (env : Env) (c : Call) : World → SyncResult.t * World :=
  match c with
  | UploadFile localPath remotePath => SyncManager.uploadFile env localPath remotePath
  | DownloadFile remotePath localPath => SyncManager.downloadFile env remotePath localPath
  | UploadFolder localFolderPath remotePath =>
      SyncManager.uploadFolder env localFolderPath remotePath
  | DownloadFolder remoteFolderPath localPath =>
      SyncManager.downloadFolder env remoteFolderPath localPath
  | SyncAll => SyncManager.syncAll env
  end.

(** Is the optional argument given, and not the empty string. *)
Definition given (argument : option string) : bool :=
  match argument with
  | Some p => negb (String.eqb p "")
  | None => false
  end.

(** The calls that resolve a local path against the workspace folder. *)
Definition needsWorkspaceFolder (c : Call) : bool :=
  match c with
  | SyncAll => true
  | DownloadFile _ localPath | DownloadFolder _ localPath => negb (given localPath)
  | UploadFile _ _ | UploadFolder _ _ => false
  end.

(** The bulk operations. *)
Inductive Bulk :=
| BulkUploadFolder (localFolderPath : string) (remotePath : option string)
| BulkDownloadFolder (remoteFolderPath : string) (localPath : option string)
| BulkSyncAll.

Definition bulkCall (b : Bulk) : Call :=
  match b with
  | BulkUploadFolder localFolderPath remotePath => UploadFolder localFolderPath remotePath
  | BulkDownloadFolder remoteFolderPath localPath => DownloadFolder remoteFolderPath localPath
  | BulkSyncAll => SyncAll
  end.

(** What a bulk operation does before it opens its progress notification. *)
Definition bulkPlan (env : Env) (b : Bulk) : M SyncManager.Run SyncManager.Plan :=
  match b with
  | BulkUploadFolder localFolderPath remotePath =>
      SyncManager.uploadFolderPlan env localFolderPath remotePath
  | BulkDownloadFolder remoteFolderPath localPath =>
      SyncManager.downloadFolderPlan env remoteFolderPath localPath
  | BulkSyncAll => SyncManager.syncAllPlan env
  end.

(** How the transfer of each file of a batch ends when none is cancelled:
    the token is read, then the file is transferred in the world the files
    before it have left. *)
Fixpoint transferOutcomes (env : Env) (transfer : string → M World unit)
  (files : list string) (w : World) : list (Result unit) :=
  match files with
  | [] => []
  | file :: rest =>
      let w1 := (SyncManager.isCancellationRequested env w).2 in
      (transfer file w1).1 :: transferOutcomes env transfer rest (transfer file w1).2
  end.

(** ** A workspace to run the model on *)

Module Example.

Definition bytes : string → list byte := String.list_byte_of_string.

Definition endsWith (s suffix : string) : bool :=
  String.eqb
    (String.substring (String.length s - String.length suffix)
       (String.length suffix) s)
    suffix.

(** Enough of [minimatch] for the patterns of the examples: a leading star
    stands for any name inside one directory, anything else for itself. *)
Definition glob (path pattern : string) (dot : bool) : bool :=
  match pattern with
  | String "*" rest => negb (JS.includes path "/") && endsWith path rest
  | _ => String.eqb path pattern
  end.

Definition profile : ServerProfile.t :=
  ServerProfile.mk "prod" "example.com" "/srv" ["*.log"].

(** A workspace with the profile [prod] active, two versions kept per
    file, no confirmation dialogs and a connection with the given faults. *)
Definition env (faults : nat → option string) : Env := {|
  profiles := [profile];
  activeProfile := "prod";
  maxHistoryVersions := 2;
  historyMaxAgeDays := 30;
  confirmBeforeOverwrite := false;
  workspaceFolder := Some "/ws";
  historyDir := "/ws/.vscode/filesyncer/history";
  minimatch := glob;
  md5hex := λ _, "d41d8cd98f00b204e9800998ecf8427e";
  stringify := λ _, [];
  dateNow := λ n, 1704164645678 + 1000 * Z.of_nat n;
  randomSuffix := λ _, "k3j9x0q1z";
  dialogChoice := λ _, Some "Cancel";
  cancellationRequested := λ _, false;
  sftpFault := faults
|}.

Definition noFault : nat → option string := λ _, None.

(** The connection is lost for the n-th request only. *)
Definition faultAt (n : nat) : nat → option string :=
  λ i, if decide (i = n) then Some "Connection lost" else None.

(** The same workspace with confirmation dialogs. *)
Definition confirming (e : Env) : Env := {|
  profiles := profiles e;
  activeProfile := activeProfile e;
  maxHistoryVersions := maxHistoryVersions e;
  historyMaxAgeDays := historyMaxAgeDays e;
  confirmBeforeOverwrite := true;
  workspaceFolder := workspaceFolder e;
  historyDir := historyDir e;
  minimatch := minimatch e;
  md5hex := md5hex e;
  stringify := stringify e;
  dateNow := dateNow e;
  randomSuffix := randomSuffix e;
  dialogChoice := dialogChoice e;
  cancellationRequested := cancellationRequested e;
  sftpFault := sftpFault e
|}.

(** The same workspace with no profile configured. *)
Definition withoutProfiles (e : Env) : Env := {|
  profiles := [];
  activeProfile := "";
  maxHistoryVersions := maxHistoryVersions e;
  historyMaxAgeDays := historyMaxAgeDays e;
  confirmBeforeOverwrite := confirmBeforeOverwrite e;
  workspaceFolder := workspaceFolder e;
  historyDir := historyDir e;
  minimatch := minimatch e;
  md5hex := md5hex e;
  stringify := stringify e;
  dateNow := dateNow e;
  randomSuffix := randomSuffix e;
  dialogChoice := dialogChoice e;
  cancellationRequested := cancellationRequested e;
  sftpFault := sftpFault e
|}.

(** The same workspace once its folder has been closed. *)
Definition withoutWorkspaceFolder (e : Env) : Env := {|
  profiles := profiles e;
  activeProfile := activeProfile e;
  maxHistoryVersions := maxHistoryVersions e;
  historyMaxAgeDays := historyMaxAgeDays e;
  confirmBeforeOverwrite := confirmBeforeOverwrite e;
  workspaceFolder := None;
  historyDir := historyDir e;
  minimatch := minimatch e;
  md5hex := md5hex e;
  stringify := stringify e;
  dateNow := dateNow e;
  randomSuffix := randomSuffix e;
  dialogChoice := dialogChoice e;
  cancellationRequested := cancellationRequested e;
  sftpFault := sftpFault e
|}.

(** A local tree with [a.txt] and [b.log] in the workspace folder, a
    remote tree with [a.txt], an empty history. *)
Definition world : World := {|
  fs := Fs.Dir
    [("ws", Fs.Dir
       [("a.txt", Fs.File (bytes "one"));
        ("b.log", Fs.File (bytes "log"));
        (".vscode", Fs.Dir [("filesyncer", Fs.Dir [("history", Fs.Dir [])])])])];
  remote := Fs.Dir [("srv", Fs.Dir [("a.txt", Fs.File (bytes "zero"))])];
  index := [];
  pendingBackups := ∅;
  connections := ∅;
  requests := [];
  clockReads := 0;
  randomReads := 0;
  dialogsShown := 0;
  tokenReads := 0
|}.

(** The connection is lost from the n-th request on. *)
Definition faultFrom (n : nat) : nat → option string :=
  λ i, if decide (n ≤ i)%nat then Some "Connection lost" else None.

(** The world after [n] uploads of [a.txt]. *)
Definition afterUploads (n : nat) : World :=
  Nat.iter n (λ w, (SyncManager.uploadFile (env noFault) "/ws/a.txt" None w).2) world.

(** The world in which a download of [a.txt] has failed in transit and
    the user has then deleted the local file. *)
Definition afterFailedDownload : World :=
  let w := (SyncManager.downloadFile (env (faultAt 1)) "/srv/a.txt"
              (Some "/ws/a.txt") world).2 in
  match Fs.unlinkSync (fs w) "/ws/a.txt" with
  | inr root => setFs root w
  | inl _ => w
  end.

(** The entry the first upload of [a.txt] commits, and its snapshot. *)
Definition committed : HistoryEntry.t :=
  HistoryEntry.mk "1704164645678-k3j9x0q1z" 1704164646678 upload "/ws/a.txt"
    "/srv/a.txt" "prod" 3 "d41d8cd98f00b204e9800998ecf8427e".

Definition snapshot : string :=
  "/ws/.vscode/filesyncer/history/2024-01-02T03-04-06_prod/a.txt_v1".

(** The world after [recordBeforeUpload] has taken a snapshot of [a.txt]. *)
Definition afterSnapshot : World :=
  (HistoryManager.recordBeforeUpload (env noFault) "/ws/a.txt" "/srv/a.txt" world).2.

(** The run a bulk operation starts from, the plan it then settles on
    (no file and nothing to do when it fails before), and the run in which
    its loop starts. *)
Definition fresh : SyncManager.Run :=
  {| SyncManager.result := SyncManager.freshResult; SyncManager.world := world |}.

Definition plan (faults : nat → option string) (b : Bulk) : SyncManager.Plan :=
  match (bulkPlan (env faults) b fresh).1 with
  | Ok p => p
  | Throw _ => {| SyncManager.files := []; SyncManager.transfer := λ _, ret tt |}
  end.

Definition started (faults : nat → option string) (b : Bulk) : SyncManager.Run :=
  (bulkPlan (env faults) b fresh).2.

(** An entry as [recordBefore] builds it for an upload of [a.txt]. *)
Definition entry (n : nat) : HistoryEntry.t :=
  HistoryEntry.mk (pretty n +:+ "-k3j9x0q1z") (1704164645678 + 1000 * Z.of_nat n)
    upload "/ws/a.txt" "/srv/a.txt" "prod" 3
    "d41d8cd98f00b204e9800998ecf8427e".

End Example.

(** The remote path [uploadFile] and [uploadFolder] transfer to. *)
Definition remoteTarget (env : Env) (profile : ServerProfile.t)
  (localPath : string) (remotePath : option string) : string :=
  if given remotePath then default "" remotePath
  else SyncManager.getRemotePath env localPath (ServerProfile.remotePath profile).

(** The local path [downloadFile] and [downloadFolder] transfer to, when
    it can be resolved. *)
Definition localTarget (env : Env) (profile : ServerProfile.t)
  (remotePath : string) (localPath : option string) : option string :=
  if given localPath then localPath
  else
    match workspaceFolder env with
    | Some folder =>
        Some (Path.join folder
                (Path.relative (ServerProfile.remotePath profile) remotePath))
    | None => None
    end.

(** A computation respects a relation on states when the state it leaves
    is always related to the one it started from. *)
Definition respects {S A} (R : relation S) (m : M S A) : Prop :=
  ∀ s, R s (m s).2.

(** [m], when it returns, returns a value that satisfies [Q]. *)
Definition returns {S A} (m : M S A) (Q : A → Prop) : Prop :=
  ∀ s a s', m s = (Ok a, s') → Q a.

(** The relation of two worlds that agree on a component. *)
Definition keeps {B} (proj : World → B) : relation World :=
  λ w w', proj w' = proj w.

(** Lifts a relation on worlds to the runs of an operation. *)
Definition onWorld (R : relation World) : relation SyncManager.Run :=
  λ r r', R (SyncManager.world r) (SyncManager.world r').

(** The relation of two runs with the same result. *)
Definition keepsResult : relation SyncManager.Run :=
  λ r r', SyncManager.result r' = SyncManager.result r.

(** The requests sent between two worlds all satisfy [P]. *)
Definition sends (P : SftpRequest → Prop) : relation World :=
  λ w w', ∃ sent, requests w' = requests w ++ sent ∧ Forall P sent.

(** Nothing was transferred and the history is as it was: the two worlds
    have the same files, the same index and the same pending snapshots, and
    the requests sent in between move no file. *)
Definition quiet : relation World :=
  λ w w',
    fs w' = fs w ∧ remote w' = remote w ∧ index w' = index w
    ∧ pendingBackups w' = pendingBackups w
    ∧ sends (λ r, isTransfer r = false) w w'.

(** The only files moved between two worlds are uploads of [allowed]
    files, and the only entries the history has gained are for them. *)
Definition uploadsOnly (allowed : string → Prop) : relation World :=
  λ w w',
    sends (λ r, isTransfer r = false
                ∨ ∃ localPath remotePath,
                    r = FastPut localPath remotePath ∧ allowed localPath) w w'
    ∧ ∀ e, tracked w' e → tracked w e ∨ allowed (HistoryEntry.localPath e).

(** What a file adds to the result of a batch. *)
Definition tally (file : string) (outcome : Result unit) (r : SyncResult.t)
  : SyncResult.t :=
  match outcome with
  | Ok _ => SyncManager.countFile r
  | Throw error =>
      SyncManager.pushError (file +:+ ": " +:+ JS.toString error) r
  end.

Fixpoint tallyAll (files : list string) (outcomes : list (Result unit))
  (r : SyncResult.t) : SyncResult.t :=
  match files, outcomes with
  | file :: files', outcome :: outcomes' =>
      tallyAll files' outcomes' (tally file outcome r)
  | _, _ => r
  end.

(** The message a cancelled bulk operation fails with. *)
Definition cancelledMessage (b : Bulk) : string :=
  match b with
  | BulkUploadFolder _ _ => "Upload cancelled"
  | BulkDownloadFolder _ _ => "Download cancelled"
  | BulkSyncAll => "Sync cancelled"
  end.

(** A single-file transfer that was skipped. *)
Definition skipped (w : World) (outcome : SyncResult.t * World) : Prop :=
  outcome.1 = SyncResult.mk true 0 [] ∧ quiet w outcome.2.

(** ** FileComparator: the check for binary content *)

Module FileComparator.

(** [byte === 0 || (byte < 8 && byte !== 9 && byte !== 10 && byte !== 13)] *)
Definition isControlByte (b : byte) : bool :=
  let n := Byte.to_N b in
  ((n =? 0) || ((n <? 8) && negb (n =? 9) && negb (n =? 10) && negb (n =? 13)))%N.

(** The loop of [isBinaryFile] over [binaryCheck]. *)
Fixpoint scan (binaryCheck : list byte) : bool :=
  match binaryCheck with
  | [] => false
  | b :: rest => if isControlByte b then true else scan rest
  end.

(** [isBinaryFile(content)] *)
Definition isBinaryFile (content : list byte) : bool :=
  scan (take (Z.to_nat 8000) content).

End FileComparator.

(** ** SyncScheduler: uploads on save, debounced *)

Module SyncScheduler.

(** What the scheduler reads of a [vscode.TextDocument]. *)
Record TextDocument := {
  scheme : string;   (* document.uri.scheme *)
  fsPath : string    (* document.uri.fsPath *)
}.

(** The scheduler, the timers of the host that it has set, and the
    callbacks of timers that have begun and await their upload: a handle
    is live from [setTimeout] until it fires or is cleared, and is never
    given out again. *)
Record t := {
  isAutoUploadEnabled : bool;
  debounceTimers : gmap string nat;   (* file path to the handle of its timer *)
  timers : gmap nat string;           (* live handle to the file its callback uploads *)
  nextTimer : nat;
  uploading : list string             (* the files of the callbacks that await *)
}.

Definition initial (enabled : bool) : t :=
  {| isAutoUploadEnabled := enabled; debounceTimers := ∅; timers := ∅;
     nextTimer := 0; uploading := [] |}.

(** [clearTimeout(handle)] *)
Definition clearTimeout (handle : nat) (s : t) : t :=
  {| isAutoUploadEnabled := isAutoUploadEnabled s;
     debounceTimers := debounceTimers s;
     timers := delete handle (timers s);
     nextTimer := nextTimer s;
     uploading := uploading s |}.

(** [setTimeout(callback, delay)], for the callback that uploads [filePath]. *)
Definition setTimeout (filePath : string) (s : t) : nat * t :=
  (nextTimer s,
   {| isAutoUploadEnabled := isAutoUploadEnabled s;
      debounceTimers := debounceTimers s;
      timers := <[nextTimer s := filePath]> (timers s);
      nextTimer := S (nextTimer s);
      uploading := uploading s |}).

Definition setDebounceTimers (m : gmap string nat) (s : t) : t :=
  {| isAutoUploadEnabled := isAutoUploadEnabled s;
     debounceTimers := m;
     timers := timers s;
     nextTimer := nextTimer s;
     uploading := uploading s |}.

Definition setUploading (files : list string) (s : t) : t :=
  {| isAutoUploadEnabled := isAutoUploadEnabled s;
     debounceTimers := debounceTimers s;
     timers := timers s;
     nextTimer := nextTimer s;
     uploading := files |}.

(** The list without the first [x] in it. *)
Fixpoint removeFirst (x : string) (l : list string) : list string :=
  match l with
  | [] => []
  | y :: rest => if String.eqb y x then rest else y :: removeFirst x rest
  end.

(** [s.substring(start)] *)
Definition substringFrom (start : nat) (s : string) : string :=
  String.substring start (String.length s - start) s.

Section WithEnv.
Context (env : Env).

(** [shouldExclude(filePath, excludePatterns)]: the same loop as the one of
    the SyncManager. *)
Definition shouldExclude (filePath : string) (excludePatterns : list string)
  : bool :=
  SyncManager.shouldExclude env filePath excludePatterns.

(** [shouldAutoUpload(document)] *)
Definition shouldAutoUpload (document : TextDocument) : bool :=
  if negb (String.eqb (scheme document) "file") then false
  else
    match ProfileManager.getActiveProfile env with
    | None => false
    | Some activeProfile =>
        match workspaceFolder env with
        | None => false
        | Some folder =>
            let filePath := fsPath document in
            if negb (JS.startsWith filePath folder) then false
            else
              let relativePath :=
                substringFrom (String.length folder + 1) filePath in
              negb (shouldExclude relativePath (ServerProfile.exclude activeProfile))
        end
    end.

(** [scheduleUpload(document)] *)
Definition scheduleUpload (document : TextDocument) (s : t) : t :=
  if negb (isAutoUploadEnabled s) then s
  else if negb (shouldAutoUpload document) then s
  else
    match ProfileManager.getActiveProfile env with
    | None => s
    | Some _ =>
        let filePath := fsPath document in
        let s1 :=
          match debounceTimers s !! filePath with
          | Some existingTimer => clearTimeout existingTimer s
          | None => s
          end in
        let '(timer, s2) := setTimeout filePath s1 in
        setDebounceTimers (<[filePath := timer]> (debounceTimers s2)) s2
    end.

(** The callback of a timer, when the host runs it: the handle is spent
    and the callback calls [uploadFile], which it awaits. *)
Definition fire (handle : nat) (state : t * World) : t * World :=
  let '(s, w) := state in
  match timers s !! handle with
  | None => state
  | Some filePath =>
      let s1 := clearTimeout handle s in
      let '(_, w') := SyncManager.uploadFile env filePath None w in
      (setUploading (filePath :: uploading s1) s1, w')
  end.

End WithEnv.

(** What a callback does once the upload it awaits has ended: it takes the
    entry of its file off the map, whatever timer the entry holds by then. *)
Definition uploaded (filePath : string) (s : t) : t :=
  if bool_decide (filePath ∈ uploading s) then
    setUploading (removeFirst filePath (uploading s))
      (setDebounceTimers (delete filePath (debounceTimers s)) s)
  else s.

(** [cancelScheduledUpload(filePath)] *)
Definition cancelScheduledUpload (filePath : string) (s : t) : t :=
  match debounceTimers s !! filePath with
  | Some timer =>
      let s1 := clearTimeout timer s in
      setDebounceTimers (delete filePath (debounceTimers s1)) s1
  | None => s
  end.

(** [cancelAllScheduledUploads()] *)
Definition cancelAllScheduledUploads (s : t) : t :=
  let s1 := map_fold (λ _ timer s0, clearTimeout timer s0) s (debounceTimers s) in
  setDebounceTimers ∅ s1.

(** [dispose()] *)
Definition dispose (s : t) : t := cancelAllScheduledUploads s.

(** The listener of [setupConfigWatcher], told the new value of
    [filesyncer.autoUpload]. *)
Definition configChanged (enabled : bool) (s : t) : t :=
  {| isAutoUploadEnabled := enabled;
     debounceTimers := debounceTimers s;
     timers := timers s;
     nextTimer := nextTimer s;
     uploading := uploading s |}.

(** What happens to a scheduler between its construction and its
    disposal.  The callback of a timer runs in two turns of the event
    loop, and the other events can come between them. *)
Inductive Event :=
| Saved (document : TextDocument)
| Fired (handle : nat)
| Uploaded (filePath : string)
| Cancelled (filePath : string)
| CancelledAll
| ConfigChanged (enabled : bool).

Definition step (env : Env) (e : Event) (state : t * World) : t * World :=
  match e with
  | Saved document => (scheduleUpload env document state.1, state.2)
  | Fired handle => fire env handle state
  | Uploaded filePath => (uploaded filePath state.1, state.2)
  | Cancelled filePath => (cancelScheduledUpload filePath state.1, state.2)
  | CancelledAll => (cancelAllScheduledUploads state.1, state.2)
  | ConfigChanged enabled => (configChanged enabled state.1, state.2)
  end.

(** The state after the events, the first of the list first. *)
Definition after (env : Env) (events : list Event) (state : t * World)
  : t * World :=
  fold_left (λ st e, step env e st) events state.

(** No document is saved while a callback awaits the upload of its
    file. *)
Fixpoint undisturbed (env : Env) (events : list Event) (state : t * World)
  : bool :=
  match events with
  | [] => true
  | e :: rest =>
      match e with
      | Saved document => negb (bool_decide (fsPath document ∈ uploading state.1))
      | _ => true
      end
      && undisturbed env rest (step env e state)
  end.

End SyncScheduler.

(** ** PathUtils *)

(** Has the string no separator. *)
Fixpoint noSep (s : string) : bool :=
  match s with
  | EmptyString => true
  | String c s' => negb (Ascii.eqb c "/") && noSep s'
  end.

(** The names a directory can hold: not empty, no separator, and neither
    of the two names that stand for a directory itself and its parent. *)
Definition isName (s : string) : Prop :=
  noSep s = true ∧ s ≠ "" ∧ s ≠ "." ∧ s ≠ "..".

Module PathUtils.

Definition backslash : ascii := Ascii.ascii_of_nat 92.

(** Every backslash becomes a slash: the first [replace] of
    [normalizeRemotePath]. *)
Fixpoint slashes (s : string) : string :=
  match s with
  | EmptyString => EmptyString
  | String c s' =>
      String (if Ascii.eqb c backslash then "/"%char else c) (slashes s')
  end.

Definition startsWithSlash (s : string) : bool :=
  match s with
  | String c _ => Ascii.eqb c "/"
  | EmptyString => false
  end.

(** Every run of slashes becomes one slash: the second [replace] of
    [normalizeRemotePath].  A slash that another one follows is dropped. *)
Fixpoint squeeze (s : string) : string :=
  match s with
  | EmptyString => EmptyString
  | String c s' =>
      if Ascii.eqb c "/" && startsWithSlash s' then squeeze s'
      else String c (squeeze s')
  end.

(** [normalizeRemotePath(remotePath)] *)
Definition normalizeRemotePath (remotePath : string) : string :=
  squeeze (slashes remotePath).

(** [getLocalPath(remotePath, remoteBase, localBase)] *)
Definition getLocalPath (remotePath remoteBase localBase : string) : string :=
  let relativePath := Path.relative remoteBase remotePath in
  Path.join localBase relativePath.

(** [getRemotePath(localPath, localBase, remoteBase)]; on a POSIX host
    [split(path.sep).join(path.posix.sep)] gives the string back. *)
Definition getRemotePath (localPath localBase remoteBase : string) : string :=
  let relativePath := Path.relative localBase localPath in
  Path.join remoteBase relativePath.

(** [isChildOf(childPath, parentPath)] *)
Definition isChildOf (childPath parentPath : string) : bool :=
  let relative := Path.relative parentPath childPath in
  negb (JS.startsWith relative "..") && negb (Path.isAbsolute relative).

(** [ensureAbsolutePath(inputPath, basePath)] *)
Definition ensureAbsolutePath (inputPath : string) (basePath : option string)
  : string :=
  if Path.isAbsolute inputPath then inputPath
  else if given basePath then Path.join (default "" basePath) inputPath
  else inputPath.

End PathUtils.
(** Has the string no backslash. *)
Fixpoint noBackslash (s : string) : bool :=
  match s with
  | EmptyString => true
  | String c s' => negb (Ascii.eqb c PathUtils.backslash) && noBackslash s'
  end.

(** Has the string no slash that another one follows. *)
Fixpoint noSlashRun (s : string) : bool :=
  match s with
  | EmptyString => true
  | String c s' =>
      negb (Ascii.eqb c "/" && PathUtils.startsWithSlash s') && noSlashRun s'
  end.
(** [a] may come before [b] in a list sorted with the comparator
    [(a, b) => b.timestamp - a.timestamp]. *)
Definition notOlder (a b : HistoryEntry.t) : Prop :=
  HistoryEntry.timestamp b ≤ HistoryEntry.timestamp a.

(** [history] is [entries] sorted newest first by a stable sort. *)
Definition newestFirst (entries history : list HistoryEntry.t) : Prop :=
  history ≡ₚ entries
  ∧ StronglySorted notOlder history
  ∧ ∀ t, filter (λ e, HistoryEntry.timestamp e = t) history
         = filter (λ e, HistoryEntry.timestamp e = t) entries.

(** What [toISOString] prints of the second [s] since the epoch: the date
    and the time of day, without the milliseconds. *)
Definition isoSeconds (s : Z) : string :=
  let days := s / 86400 in
  let sec := s mod 86400 in
  let z := days + 719468 in
  let era := z / 146097 in
  let doe := z mod 146097 in
  let yoe := (doe - doe / 1460 + doe / 36524 - doe / 146096) / 365 in
  let doy := doe - (365 * yoe + yoe / 4 - yoe / 100) in
  let mp := (5 * doy + 2) / 153 in
  let d := doy - (153 * mp + 2) / 5 + 1 in
  let m := if mp <? 10 then mp + 3 else mp - 9 in
  let y := yoe + era * 400 + (if m <=? 2 then 1 else 0) in
  let year :=
    if ((0 <=? y) && (y <=? 9999))%bool then JS.pad 4 y
    else (if y <? 0 then "-" else "+") +:+ JS.pad 6 (Z.abs y) in
  year +:+ "-" +:+ JS.pad 2 m +:+ "-" +:+ JS.pad 2 d +:+ "T"
    +:+ JS.pad 2 (sec / 3600) +:+ ":" +:+ JS.pad 2 (sec / 60 mod 60) +:+ ":"
    +:+ JS.pad 2 (sec mod 60).

(** The path [backupFile] gives the snapshot of [localPath] for [entry]
    when the index holds [entries]. *)
Definition snapshotPath (env : Env) (entries : list HistoryEntry.t)
  (localPath : string) (entry : HistoryEntry.t) : string :=
  Path.join (HistoryStorage.getVersionDir env entry)
    (Path.basename localPath +:+ "_v"
       +:+ pretty (HistoryStorage.versionOrdinal entries localPath entry)).
(** The results a transfer of one file can end with: skipped, done, or
    failed with one message. *)
Definition singleFileResult (r : SyncResult.t) : Prop :=
  r = SyncResult.mk true 0 []
  ∨ r = SyncResult.mk true 1 []
  ∨ ∃ message, r = SyncResult.mk false 0 [message].
(** The entry [backupFile] hands back for a file with the bytes [data]:
    [entry] with their number and their hash. *)
Definition withContent (env : Env) (entry : HistoryEntry.t) (data : list byte)
  : HistoryEntry.t :=
  HistoryEntry.mk (HistoryEntry.id entry) (HistoryEntry.timestamp entry)
    (HistoryEntry.operation entry) (HistoryEntry.localPath entry)
    (HistoryEntry.remotePath entry) (HistoryEntry.profileName entry)
    (Z.of_nat (length data)) (md5hex env data).

(** The entry [recordBefore] builds in the world [w]. *)
Definition entryBefore (env : Env) (profile : ServerProfile.t)
  (operation : Operation) (localPath remotePath : string) (w : World)
  : HistoryEntry.t :=
  HistoryEntry.mk
    (pretty (dateNow env (clockReads w)) +:+ "-" +:+ randomSuffix env (randomReads w))
    (dateNow env (S (clockReads w))) operation localPath remotePath
    (ServerProfile.name profile) 0 "".
(** Every live timer is the one the scheduler holds for its file. *)
Definition debounced (s : SyncScheduler.t) : Prop :=
  ∀ handle filePath,
    SyncScheduler.timers s !! handle = Some filePath →
    SyncScheduler.debounceTimers s !! filePath = Some handle.

(** What holds of a scheduler at all times: the handles of its timers and
    of its map have been given out, and the files of its timers were
    eligible when they were saved. *)
Definition givenOut (env : Env) (s : SyncScheduler.t) : Prop :=
  (∀ h f, SyncScheduler.timers s !! h = Some f →
          (h < SyncScheduler.nextTimer s)%nat
          ∧ SyncScheduler.shouldAutoUpload env
              {| SyncScheduler.scheme := "file"; SyncScheduler.fsPath := f |} = true)
  ∧ (∀ f h, SyncScheduler.debounceTimers s !! f = Some h →
            (h < SyncScheduler.nextTimer s)%nat).

(** What holds as long as no document is saved while its upload runs:
    the live timers are those of the map, and a file that is being uploaded
    has none. *)
Definition settled (s : SyncScheduler.t) : Prop :=
  debounced s
  ∧ ∀ f h, f ∈ SyncScheduler.uploading s → SyncScheduler.timers s !! h ≠ Some f.

(** ** More examples *)

Module Cases.

(** The world of the examples with a log file on the server as well. *)
Definition remoteLog : World :=
  setRemote
    (Fs.Dir
       [("srv", Fs.Dir
          [("a.txt", Fs.File (Example.bytes "zero"));
           ("b.log", Fs.File (Example.bytes "remote log"))])])
    Example.world.

(** The workspace of the examples when the user cancels the progress
    notification so that the [k]-th reading of the token is the first to
    see it. *)
Definition cancelledAt (k : nat) : Env := {|
  profiles := profiles (Example.env Example.noFault);
  activeProfile := activeProfile (Example.env Example.noFault);
  maxHistoryVersions := maxHistoryVersions (Example.env Example.noFault);
  historyMaxAgeDays := historyMaxAgeDays (Example.env Example.noFault);
  confirmBeforeOverwrite := confirmBeforeOverwrite (Example.env Example.noFault);
  workspaceFolder := workspaceFolder (Example.env Example.noFault);
  historyDir := historyDir (Example.env Example.noFault);
  minimatch := minimatch (Example.env Example.noFault);
  md5hex := md5hex (Example.env Example.noFault);
  stringify := stringify (Example.env Example.noFault);
  dateNow := dateNow (Example.env Example.noFault);
  randomSuffix := randomSuffix (Example.env Example.noFault);
  dialogChoice := dialogChoice (Example.env Example.noFault);
  cancellationRequested := λ i, bool_decide (k ≤ i)%nat;
  sftpFault := sftpFault (Example.env Example.noFault)
|}.

(** The plan a bulk operation settles on in the world of the examples, and
    the run in which its loop starts. *)
Definition plan (env : Env) (b : Bulk) : SyncManager.Plan :=
  match (bulkPlan env b Example.fresh).1 with
  | Ok p => p
  | Throw _ => {| SyncManager.files := []; SyncManager.transfer := λ _, ret tt |}
  end.

Definition started (env : Env) (b : Bulk) : SyncManager.Run :=
  (bulkPlan env b Example.fresh).2.

(** The world of the examples once the connection is open. *)
Definition connected : World :=
  (SFTPManager.ensureConnected (Example.env Example.noFault) Example.world).2.

(** A workspace with two files named [a.txt], one of them in [sub]. *)
Definition twoFiles : World :=
  setFs
    (Fs.Dir
       [("ws", Fs.Dir
          [("a.txt", Fs.File (Example.bytes "one"));
           ("sub", Fs.Dir [("a.txt", Fs.File (Example.bytes "two"))]);
           (".vscode", Fs.Dir [("filesyncer", Fs.Dir [("history", Fs.Dir [])])])])])
    Example.world.

(** The entries [recordBefore] builds for uploads of the two files within
    the same second. *)
Definition first : HistoryEntry.t :=
  HistoryEntry.mk "1704164645678-k3j9x0q1z" 1704164646100 upload "/ws/a.txt"
    "/srv/a.txt" "prod" 0 "".

Definition second : HistoryEntry.t :=
  HistoryEntry.mk "1704164646300-k3j9x0q1z" 1704164646900 upload "/ws/sub/a.txt"
    "/srv/sub/a.txt" "prod" 0 "".

(** The document of [a.txt] in the workspace of the examples. *)
Definition document : SyncScheduler.TextDocument :=
  {| SyncScheduler.scheme := "file"; SyncScheduler.fsPath := "/ws/a.txt" |}.

(** The world after the snapshot of the first of the two files. *)
Definition afterFirst : World :=
  (HistoryStorage.backupFile (Example.env Example.noFault) "/ws/a.txt" first
     twoFiles).2.

End Cases.

(** * Proofs *)


(** ** Running a computation *)

Lemma bind_ok {S A B} (m : M S A) (k : A → M S B) s a s' :
  m s = (Ok a, s') → bind m k s = k a s'.
Proof. intros H. unfold bind. by rewrite H. Qed.

Lemma bind_ret {S A B} (a : A) (k : A → M S B) : bind (ret a) k = k a.
Proof. reflexivity. Qed.

Lemma run_eq {S A} (m : M S A) s a : (m s).1 = a → m s = (a, (m s).2).
Proof. intros <-. by destruct (m s). Qed.

(** A [try] whose [catch] only logs always completes. *)
Lemma tryCatch_logged {S} (m : M S unit) s :
  (tryCatch m (λ _, ret tt) s).1 = Ok tt.
Proof. unfold tryCatch. by destruct (m s) as [[[]|?] ?]. Qed.

Lemma eqb_decide (a b : string) : String.eqb a b = bool_decide (a = b).
Proof.
  destruct (String.eqb_spec a b); symmetry;
    [by apply bool_decide_eq_true | by apply bool_decide_eq_false].
Qed.

Lemma filter_all {A} (P : A → Prop) `{!∀ x, Decision (P x)} (l : list A) :
  (∀ x, x ∈ l → P x) → filter P l = l.
Proof.
  induction l as [|x l IH]; intros Hall; [done|].
  rewrite filter_cons_True by (apply Hall; left).
  f_equal. apply IH. intros y Hy. apply Hall. by right.
Qed.

Lemma filter_none {A} (P : A → Prop) `{!∀ x, Decision (P x)} (l : list A) :
  (∀ x, x ∈ l → ¬ P x) → filter P l = [].
Proof.
  induction l as [|x l IH]; intros Hall; [done|].
  rewrite filter_cons_False by (apply Hall; left).
  apply IH. intros y Hy. apply Hall. by right.
Qed.

Lemma find_app_found {A} (f : A → bool) l more x :
  find f l = Some x → find f (l ++ more) = Some x.
Proof.
  induction l as [|y l IH]; simpl; [done|]. destruct (f y); auto.
Qed.

(** ** Relations that computations respect

    A relation that is reflexive and transitive is respected by a
    computation when each of its steps respects it. *)

Section Respects.
Context {S : Type} (R : relation S) `{!PreOrder R}.

Lemma respects_ret {A} (a : A) : respects R (ret a).
Proof. intros s. simpl. reflexivity. Qed.

Lemma respects_throw {A} e : respects R (@throw S A e).
Proof. intros s. simpl. reflexivity. Qed.

Lemma respects_gets {A} (f : S → A) : respects R (gets f).
Proof. intros s. simpl. reflexivity. Qed.

Lemma respects_modify (f : S → S) : (∀ s, R s (f s)) → respects R (modify f).
Proof. intros Hf s. apply Hf. Qed.

Lemma respects_bind {A B} (m : M S A) (k : A → M S B) :
  respects R m → (∀ a, respects R (k a)) → respects R (bind m k).
Proof.
  intros Hm Hk s. unfold bind. specialize (Hm s).
  destruct (m s) as [[a|e] s']; simpl in *; [|done].
  etrans; [done|apply Hk].
Qed.

Lemma respects_tryCatch {A} (m : M S A) (h : JS.exn → M S A) :
  respects R m → (∀ e, respects R (h e)) → respects R (tryCatch m h).
Proof.
  intros Hm Hh s. unfold tryCatch. specialize (Hm s).
  destruct (m s) as [[a|e] s']; simpl in *; [done|].
  etrans; [done|apply Hh].
Qed.

Lemma respects_orThrow {A} syscall path (r : string + A) :
  respects R (orThrow syscall path r).
Proof. destruct r; [apply respects_throw|apply respects_ret]. Qed.

Lemma respects_forEach {A} (f : A → M S unit) l :
  (∀ a, respects R (f a)) → respects R (HistoryStorage.forEach f l).
Proof.
  intros Hf. induction l; simpl; [apply respects_ret|].
  apply respects_bind; auto.
Qed.

End Respects.

#[global] Instance onWorld_preorder R : PreOrder R → PreOrder (onWorld R).
Proof.
  intros [? ?]. split; [intros r; unfold onWorld; reflexivity|].
  intros a b c; unfold onWorld; apply transitivity.
Qed.

Lemma respects_inWorld (R : relation World) {A} (m : M World A) :
  respects R m → respects (onWorld R) (SyncManager.inWorld m).
Proof.
  intros Hm r. unfold SyncManager.inWorld, onWorld. specialize (Hm (SyncManager.world r)).
  by destruct (m (SyncManager.world r)).
Qed.

Lemma respects_updateResult (R : relation World) `{!Reflexive R} f :
  respects (onWorld R) (SyncManager.updateResult f).
Proof. intros r. unfold onWorld. simpl. reflexivity. Qed.

(** Breaks a goal [respects R m] along the structure of [m]; [base] proves
    what a state update leaves. *)
Ltac respects_with base :=
  repeat first
    [ match goal with
      | |- respects _ (ret _) => apply respects_ret; [typeclasses eauto]
      | |- respects _ (throw _) => apply respects_throw; [typeclasses eauto]
      | |- respects _ (gets _) => apply respects_gets; [typeclasses eauto]
      | |- respects _ (orThrow _ _ _) => apply respects_orThrow; [typeclasses eauto]
      | |- respects _ (bind _ _) =>
          apply respects_bind; [typeclasses eauto| |intros ?]
      | |- respects _ (tryCatch _ _) =>
          apply respects_tryCatch; [typeclasses eauto| |intros ?]
      | |- respects _ (HistoryStorage.forEach _ _) =>
          apply respects_forEach; [typeclasses eauto|intros ?]
      | |- respects _ (modify _) => apply respects_modify; intros ?; base
      | |- respects _ (match ?x with _ => _ end) => destruct x
      | |- respects _ (let (_, _) := ?x in _) => destruct x
      end
    ].

#[global] Instance keeps_preorder {B} (proj : World → B) : PreOrder (keeps proj).
Proof.
  split; [by intros w|]. intros a b c Hab Hbc. unfold keeps in *. congruence.
Qed.

Lemma keeps_eq {A B} (proj : World → B) (m : M World A) :
  respects (keeps proj) m → ∀ w, proj (m w).2 = proj w.
Proof. intros H w. apply H. Qed.

Ltac unfold_model :=
  progress unfold
    fsUpdate, fsRead,
    HistoryStorage.saveIndex, HistoryStorage.computeHash,
    HistoryStorage.generateVersionSuffix, HistoryStorage.backupFile,
    HistoryStorage.getHistoryForFile, HistoryStorage.getBackupPath,
    HistoryStorage.deleteEntry, HistoryStorage.cleanupOldEntries,
    HistoryStorage.addEntry,
    HistoryManager.generateId, HistoryManager.recordBefore,
    HistoryManager.recordAfter, HistoryManager.recordBeforeUpload,
    HistoryManager.recordAfterUpload, HistoryManager.recordBeforeDownload,
    HistoryManager.recordAfterDownload, HistoryManager.restoreFromHistory,
    SFTPClient.request, SFTPClient.libConnect, SFTPClient.libStat,
    SFTPClient.libMkdir, SFTPClient.libFastGet, SFTPClient.libFastPut,
    SFTPClient.ensureConnected, SFTPClient.connect, SFTPClient.exists_,
    SFTPClient.getFile, SFTPClient.putFile, SFTPClient.listDirFailed,
    SFTPManager.getClient, SFTPManager.connect, SFTPManager.ensureConnected,
    SyncManager.uploadOne, SyncManager.downloadOne, SyncManager.getAllFiles.

Ltac respects_oracle base :=
  match goal with
  | |- respects _ (now _) => intros ?; simpl; base
  | |- respects _ (random _) => intros ?; simpl; base
  | |- respects _ (SyncManager.showWarningMessage _) => intros ?; simpl; base
  | |- respects _ (SyncManager.isCancellationRequested _) => intros ?; simpl; base
  end.

Ltac respects_model base :=
  repeat first [ progress respects_with base | respects_oracle base | unfold_model ].

Ltac keeps_field := unfold keeps; reflexivity.

Section Frames.
Context (env : Env).

Lemma addEntry_keeps_pending e :
  respects (keeps pendingBackups) (HistoryStorage.addEntry env e).
Proof. respects_model keeps_field. Qed.

Lemma recordBefore_keeps_index op lp rp :
  respects (keeps index) (HistoryManager.recordBefore env op lp rp).
Proof. respects_model keeps_field. Qed.

Lemma recordBefore_keeps_requests op lp rp :
  respects (keeps requests) (HistoryManager.recordBefore env op lp rp).
Proof. respects_model keeps_field. Qed.

Lemma recordAfter_keeps_requests op lp rp :
  respects (keeps requests) (HistoryManager.recordAfter env op lp rp).
Proof. respects_model keeps_field. Qed.

End Frames.

(** ** Retention *)

Section Retention.
Context (env : Env).

Lemma insertNewestFirst_perm x l :
  HistoryStorage.insertNewestFirst x l ≡ₚ x :: l.
Proof.
  induction l as [|y l IH]; simpl; [done|].
  destruct (_ <=? _); [done|]. rewrite IH. apply Permutation_swap.
Qed.

Lemma sortNewestFirst_perm l : HistoryStorage.sortNewestFirst l ≡ₚ l.
Proof.
  induction l as [|x l IH]; simpl; [done|].
  unfold HistoryStorage.sortNewestFirst in *. simpl.
  by rewrite insertNewestFirst_perm, IH.
Qed.

Lemma groupOf_addToGroup k e groups :
  groupOf k (HistoryStorage.addToGroup e groups) =
    if decide (k = HistoryEntry.localPath e)
    then Some (default [] (groupOf k groups) ++ [e])
    else groupOf k groups.
Proof.
  induction groups as [|[k' es] rest IH]; simpl.
  - rewrite eqb_decide. case_bool_decide; case_decide; naive_solver.
  - rewrite !eqb_decide. repeat case_bool_decide; simpl; rewrite ?eqb_decide;
      repeat case_bool_decide; repeat case_decide; subst; done.
Qed.

Lemma entriesByFile_snoc l x :
  HistoryStorage.entriesByFile (l ++ [x]) =
    HistoryStorage.addToGroup x (HistoryStorage.entriesByFile l).
Proof. unfold HistoryStorage.entriesByFile. by rewrite fold_left_app. Qed.

Lemma entriesFor_snoc k l x :
  entriesFor k (l ++ [x]) =
    entriesFor k l ++ (if decide (HistoryEntry.localPath x = k) then [x] else []).
Proof.
  unfold entriesFor. by rewrite filter_app.
Qed.

Lemma groupOf_entriesByFile k l :
  groupOf k (HistoryStorage.entriesByFile l) =
    if decide (entriesFor k l = []) then None else Some (entriesFor k l).
Proof.
  induction l as [|x l IH] using rev_ind; [done|].
  rewrite entriesByFile_snoc, groupOf_addToGroup, IH, entriesFor_snoc.
  destruct (decide (k = HistoryEntry.localPath x)) as [->|Hne].
  - destruct (decide (HistoryEntry.localPath x = HistoryEntry.localPath x)); [|done].
    destruct (decide (entriesFor _ l = [])) as [Hn|?]; simpl.
    + by rewrite Hn.
    + case_decide as H; [by apply app_eq_nil in H as [? ?]|done].
  - destruct (decide (HistoryEntry.localPath x = k)); [by subst|].
    by rewrite app_nil_r.
Qed.

Lemma groupOf_elem k es groups : groupOf k groups = Some es → (k, es) ∈ groups.
Proof.
  induction groups as [|[k' es'] rest IH]; simpl; [done|].
  destruct (String.eqb_spec k' k) as [->|?].
  - intros [= ->]. left.
  - intros ?. right. auto.
Qed.

(** What a group puts on the deletion list is on the list of the pass. *)
Lemma entriesToDelete_group maxVersions age now l k e :
  e ∈ HistoryStorage.groupToDelete maxVersions age now (entriesFor k l) →
  e ∈ HistoryStorage.entriesToDelete maxVersions age now l.
Proof.
  intros He. unfold HistoryStorage.entriesToDelete.
  apply list_elem_of_In, in_flat_map.
  exists (k, entriesFor k l). split; [|by apply list_elem_of_In].
  apply list_elem_of_In, groupOf_elem. rewrite groupOf_entriesByFile.
  rewrite decide_False; [done|]. intros Hnil. rewrite Hnil in He.
  revert He. unfold HistoryStorage.groupToDelete, JS.slice. simpl.
  rewrite drop_nil. destruct (_ >? _); simpl; by intros ?%elem_of_nil.
Qed.

End Retention.

Section Pruning.
Context (env : Env).

Lemma saveIndex_ok w : (HistoryStorage.saveIndex env w).1 = Ok tt.
Proof. apply tryCatch_logged. Qed.

Lemma saveIndex_keeps_index : respects (keeps index) (HistoryStorage.saveIndex env).
Proof. respects_model keeps_field. Qed.

Lemma deleteEntry_ok e w : (HistoryStorage.deleteEntry env e w).1 = Ok tt.
Proof.
  unfold HistoryStorage.deleteEntry.
  unfold bind at 1.
  match goal with |- context [tryCatch ?m ?h w] =>
    pose proof (tryCatch_logged m w) as H; destruct (tryCatch m h w) as [r w1] end.
  simpl in H. subst r. unfold bind, modify. cbv beta iota. apply saveIndex_ok.
Qed.

Lemma deleteEntry_index e w :
  index (HistoryStorage.deleteEntry env e w).2 =
    filter (λ x, HistoryEntry.id x ≠ HistoryEntry.id e) (index w).
Proof.
  unfold HistoryStorage.deleteEntry.
  unfold bind at 1.
  match goal with |- context [tryCatch ?m ?h w] =>
    pose proof (tryCatch_logged m w) as H;
    assert (respects (keeps index) (tryCatch m h)) as Hk
      by respects_model keeps_field;
    specialize (Hk w);
    destruct (tryCatch m h w) as [r w1] end.
  simpl in H, Hk. subst r. unfold keeps in Hk. simpl.
  unfold bind, modify. cbv beta iota.
  rewrite (keeps_eq _ _ saveIndex_keeps_index). simpl. by rewrite Hk.
Qed.

Lemma forEach_deleteEntry_ok l w :
  (HistoryStorage.forEach (HistoryStorage.deleteEntry env) l w).1 = Ok tt.
Proof.
  revert w. induction l as [|e l IH]; intros w; simpl; [done|].
  unfold bind. pose proof (deleteEntry_ok e w) as H.
  destruct (HistoryStorage.deleteEntry env e w) as [r w1]. simpl in H. subst r.
  apply IH.
Qed.

Lemma forEach_deleteEntry_index l w :
  index (HistoryStorage.forEach (HistoryStorage.deleteEntry env) l w).2 =
    filter (λ x, HistoryEntry.id x ∉ HistoryEntry.id <$> l) (index w).
Proof.
  revert w. induction l as [|e l IH]; intros w; simpl.
  - symmetry. apply filter_all. intros x _. apply not_elem_of_nil.
  - unfold bind. pose proof (deleteEntry_ok e w) as H.
    pose proof (deleteEntry_index e w) as Hi.
    destruct (HistoryStorage.deleteEntry env e w) as [r w1]. simpl in *. subst r.
    rewrite IH, Hi, list_filter_filter. apply list_filter_iff.
    intros x. rewrite not_elem_of_cons. tauto.
Qed.

Lemma cleanupOldEntries_ok w : (HistoryStorage.cleanupOldEntries env w).1 = Ok tt.
Proof.
  unfold HistoryStorage.cleanupOldEntries, bind, now, gets. cbv beta iota.
  apply forEach_deleteEntry_ok.
Qed.

Lemma cleanupOldEntries_index w :
  index (HistoryStorage.cleanupOldEntries env w).2 =
    afterPruning env (dateNow env (clockReads w)) (index w).
Proof.
  unfold HistoryStorage.cleanupOldEntries, bind, now, gets. cbv beta iota.
  by rewrite forEach_deleteEntry_index.
Qed.

Lemma addEntry_ok e w : (HistoryStorage.addEntry env e w).1 = Ok tt.
Proof.
  unfold HistoryStorage.addEntry. unfold bind, modify at 1.
  pose proof (saveIndex_ok (setIndex (index w ++ [e]) w)) as H.
  destruct (HistoryStorage.saveIndex env _) as [r w1]. simpl in H. subst r.
  apply cleanupOldEntries_ok.
Qed.

Lemma saveIndex_keeps_clock : ∀ w, clockReads (HistoryStorage.saveIndex env w).2 = clockReads w.
Proof. assert (respects (keeps clockReads) (HistoryStorage.saveIndex env)) as H by respects_model keeps_field. exact H. Qed.

Lemma addEntry_index e w :
  index (HistoryStorage.addEntry env e w).2 =
    afterPruning env (dateNow env (clockReads w)) (index w ++ [e]).
Proof.
  unfold HistoryStorage.addEntry. unfold bind, modify at 1.
  pose proof (saveIndex_ok (setIndex (index w ++ [e]) w)) as H.
  pose proof (saveIndex_keeps_index (setIndex (index w ++ [e]) w)) as Hi.
  pose proof (saveIndex_keeps_clock (setIndex (index w ++ [e]) w)) as Hc.
  destruct (HistoryStorage.saveIndex env _) as [r w1]. simpl in *. subst r.
  rewrite cleanupOldEntries_index. unfold keeps in Hi. by rewrite Hi, Hc.
Qed.

(** *** What a pruning pass leaves *)

Lemma entriesFor_afterPruning now P l :
  entriesFor P (afterPruning env now l) =
    filter (λ e, HistoryEntry.id e ∉
                   HistoryEntry.id <$>
                     HistoryStorage.entriesToDelete (maxHistoryVersions env)
                       (maxAge env) now l)
      (entriesFor P l).
Proof.
  unfold entriesFor, afterPruning. rewrite !list_filter_filter.
  apply list_filter_iff. intros x. split; intros [? ?]; done.
Qed.

Lemma afterPruning_count now l P :
  0 ≤ maxHistoryVersions env →
  Z.of_nat (length (entriesFor P (afterPruning env now l))) ≤ maxHistoryVersions env.
Proof.
  intros Hmax. rewrite entriesFor_afterPruning.
  set (ids := HistoryEntry.id <$> _).
  set (G := entriesFor P l).
  set (S := HistoryStorage.sortNewestFirst G).
  assert (length (filter (λ e, HistoryEntry.id e ∉ ids) G)
          = length (filter (λ e, HistoryEntry.id e ∉ ids) S)) as ->.
  { apply Permutation_length. symmetry.
    apply filter_Permutation, sortNewestFirst_perm. }
  destruct (Z.of_nat (length S) >? maxHistoryVersions env) eqn:Hlen.
  - set (k := JS.sliceStart (length S) (maxHistoryVersions env)).
    assert (Z.of_nat k ≤ maxHistoryVersions env) as Hk.
    { unfold k, JS.sliceStart. destruct (_ <? 0) eqn:?; lia. }
    rewrite <- (take_drop k S), filter_app, length_app.
    assert (filter (λ e, HistoryEntry.id e ∉ ids) (drop k S) = []) as ->.
    { apply filter_none. intros e He Hid. apply Hid.
      apply (list_elem_of_fmap_2' _ _ e); [|done].
      apply (entriesToDelete_group _ _ _ _ P).
      unfold HistoryStorage.groupToDelete. fold G. fold S. rewrite Hlen.
      apply elem_of_app. left. done. }
    simpl. pose proof (length_filter (λ e, HistoryEntry.id e ∉ ids) (take k S)).
    rewrite length_take in *. lia.
  - pose proof (length_filter (λ e, HistoryEntry.id e ∉ ids) S). lia.
Qed.

Lemma afterPruning_age now l e :
  e ∈ afterPruning env now l → now - HistoryEntry.timestamp e ≤ maxAge env.
Proof.
  unfold afterPruning. intros [Hid He]%list_elem_of_filter.
  destruct (Z_le_gt_dec (now - HistoryEntry.timestamp e) (maxAge env)); [done|].
  exfalso. apply Hid. apply (list_elem_of_fmap_2' _ _ e); [|done].
  apply (entriesToDelete_group _ _ _ _ (HistoryEntry.localPath e)).
  unfold HistoryStorage.groupToDelete. apply elem_of_app. right.
  apply list_elem_of_filter. split; [done|].
  rewrite sortNewestFirst_perm. by apply list_elem_of_filter.
Qed.

Lemma afterPruning_deleted now l e :
  e ∈ HistoryStorage.entriesToDelete (maxHistoryVersions env) (maxAge env) now l →
  e ∉ afterPruning env now l.
Proof.
  intros He [Hid _]%list_elem_of_filter. apply Hid.
  by apply (list_elem_of_fmap_2' _ _ e).
Qed.

Lemma afterPruning_subseteq now l e : e ∈ afterPruning env now l → e ∈ l.
Proof. unfold afterPruning. by intros [_ ?]%list_elem_of_filter. Qed.

End Pruning.

Section Ordinals.
Context (env : Env).

Lemma sameTriple_spec lp entry e :
  HistoryStorage.sameTriple lp entry e = true ↔
  HistoryEntry.localPath e = lp
  ∧ HistoryEntry.operation e = HistoryEntry.operation entry
  ∧ HistoryEntry.profileName e = HistoryEntry.profileName entry.
Proof.
  unfold HistoryStorage.sameTriple. rewrite !andb_true_iff, !String.eqb_eq.
  rewrite bool_decide_eq_true. tauto.
Qed.

Lemma versionOrdinal_indexedFor entries lp entry :
  HistoryStorage.versionOrdinal entries lp entry =
    (length (indexedFor lp (HistoryEntry.operation entry)
               (HistoryEntry.profileName entry) entries) + 1)%nat.
Proof.
  unfold HistoryStorage.versionOrdinal, indexedFor. f_equal. f_equal.
  apply list_filter_iff. intros e. apply sameTriple_spec.
Qed.

Lemma indexedFor_afterPruning lp op profile now l :
  indexedFor lp op profile (afterPruning env now l) =
    filter (λ e, HistoryEntry.id e ∉
                   HistoryEntry.id <$>
                     HistoryStorage.entriesToDelete (maxHistoryVersions env)
                       (maxAge env) now l)
      (indexedFor lp op profile l).
Proof.
  unfold indexedFor, afterPruning. rewrite !list_filter_filter.
  apply list_filter_iff. intros e. tauto.
Qed.

End Ordinals.

(** ** Pending snapshots *)

Section Pending.
Context (env : Env).

Lemma recordAfter_pending op lp rp w e :
  pendingBackups w !! HistoryManager.getBackupKey lp rp op = Some e →
  let r := HistoryManager.recordAfter env op lp rp w in
  r.1 = Ok tt
  ∧ index r.2 = afterPruning env (dateNow env (clockReads w)) (index w ++ [e])
  ∧ pendingBackups r.2 =
      delete (HistoryManager.getBackupKey lp rp op) (pendingBackups w).
Proof.
  intros Hp. cbv zeta. unfold HistoryManager.recordAfter.
  unfold bind at 1 3 5. unfold gets at 1 2 3. cbv beta iota. rewrite Hp.
  unfold bind, modify.
  pose proof (addEntry_ok env e w) as Hok.
  pose proof (addEntry_index env e w) as Hi.
  pose proof (keeps_eq _ _ (addEntry_keeps_pending env e) w) as Hk.
  destruct (HistoryStorage.addEntry env e w) as [r w1]. simpl in *. subst r.
  simpl. by rewrite Hk.
Qed.

Lemma recordAfter_idle op lp rp w :
  pendingBackups w !! HistoryManager.getBackupKey lp rp op = None →
  HistoryManager.recordAfter env op lp rp w = (Ok tt, w).
Proof.
  intros Hp. unfold HistoryManager.recordAfter.
  unfold bind at 1. unfold gets at 1. cbv beta iota. by rewrite Hp.
Qed.

Lemma recordBefore_absent op lp rp w :
  Fs.existsSync (fs w) lp = false →
  let r := HistoryManager.recordBefore env op lp rp w in
  r.1 = Ok tt ∧ fs r.2 = fs w ∧ index r.2 = index w
  ∧ pendingBackups r.2 = pendingBackups w ∧ requests r.2 = requests w.
Proof.
  intros Hfs. cbv zeta. unfold HistoryManager.recordBefore.
  destruct (ProfileManager.getActiveProfile env); [|done].
  unfold HistoryManager.generateId, bind, now, random, gets, ret.
  cbv beta iota. simpl. by rewrite Hfs.
Qed.

End Pending.

(** ** The file tree *)

Section Tree.

Lemma child_setChild_eq c x es m :
  Fs.child c es = Some m → Fs.child c (Fs.setChild c x es) = Some x.
Proof.
  induction es as [|[n y] es IH]; simpl; [done|].
  destruct (String.eqb n c) eqn:E; simpl; rewrite E; auto.
Qed.

Lemma child_setChild_ne c c' x es :
  c' ≠ c → Fs.child c' (Fs.setChild c x es) = Fs.child c' es.
Proof.
  intros Hne. induction es as [|[n y] es IH]; simpl; [done|].
  destruct (String.eqb_spec n c) as [->|?]; simpl.
  - destruct (String.eqb_spec c c'); [congruence|done].
  - destruct (String.eqb n c'); auto.
Qed.

Lemma child_app_new_eq c x es :
  Fs.child c es = None → Fs.child c (es ++ [(c, x)]) = Some x.
Proof.
  induction es as [|[n y] es IH]; simpl.
  - by rewrite String.eqb_refl.
  - destruct (String.eqb n c); [done|auto].
Qed.

Lemma child_app_new_ne c c' x es :
  c' ≠ c → Fs.child c' (es ++ [(c, x)]) = Fs.child c' es.
Proof.
  intros Hne. induction es as [|[n y] es IH]; simpl.
  - destruct (String.eqb_spec c c'); [congruence|done].
  - destruct (String.eqb n c'); auto.
Qed.

Lemma setChild_setChild c x y es :
  Fs.setChild c x (Fs.setChild c y es) = Fs.setChild c x es.
Proof.
  induction es as [|[n z] es IH]; simpl; [done|].
  destruct (String.eqb n c) eqn:E; simpl; rewrite E; [done|]. by rewrite IH.
Qed.

Lemma setChild_app_new c x y es :
  Fs.child c es = None →
  Fs.setChild c x (es ++ [(c, y)]) = es ++ [(c, x)].
Proof.
  induction es as [|[n z] es IH]; simpl.
  - by rewrite String.eqb_refl.
  - destruct (String.eqb n c); [done|]. intros H. by rewrite IH.
Qed.

Lemma setChild_names c x es : (Fs.setChild c x es).*1 = es.*1.
Proof.
  induction es as [|[n z] es IH]; simpl; [done|].
  destruct (String.eqb n c); simpl; [done|]. f_equal. exact IH.
Qed.

(** After a write the path holds the data. *)
Lemma put_walk p data n n' :
  Fs.put p data n = inr n' → Fs.walk p n' = Fs.Found (Fs.File data).
Proof.
  revert n n'. induction p as [|c p IH]; intros n n'; simpl.
  - destruct n; [|done]. by intros [= <-].
  - destruct n as [|es]; [done|].
    destruct (Fs.child c es) as [m|] eqn:Hc.
    + destruct (Fs.put p data m) as [|m'] eqn:Hput; [done|].
      intros [= <-]. simpl. rewrite (child_setChild_eq _ _ _ _ Hc). eauto.
    + destruct p; [|done]. intros [= <-]. simpl.
      by rewrite child_app_new_eq.
Qed.

(** A write leaves the regular files at other paths as they were. *)
Lemma put_walk_other p data n n' q x :
  Fs.put p data n = inr n' → q ≠ p →
  Fs.walk q n = Fs.Found (Fs.File x) → Fs.walk q n' = Fs.Found (Fs.File x).
Proof.
  revert n n' q. induction p as [|c p IH]; intros n n' q; simpl.
  - destruct n; [|done]. intros [= <-] Hq. destruct q; done.
  - destruct n as [|es]; [done|].
    destruct (Fs.child c es) as [m|] eqn:Hc.
    + destruct (Fs.put p data m) as [|m'] eqn:Hput; [done|].
      intros [= <-] Hq. destruct q as [|c' q]; simpl; [done|].
      destruct (decide (c' = c)) as [->|Hne].
      * rewrite Hc, (child_setChild_eq _ _ _ _ Hc).
        apply (IH _ _ _ Hput). congruence.
      * by rewrite child_setChild_ne.
    + destruct p; [|done]. intros [= <-] Hq.
      destruct q as [|c' q]; simpl; [done|].
      destruct (decide (c' = c)) as [->|Hne].
      * by rewrite Hc.
      * by rewrite child_app_new_ne.
Qed.

(** A write keeps the listing of every directory, up to a new name at
    its end. *)
Lemma put_listing p data n n' v es :
  Fs.put p data n = inr n' → Fs.walk v n = Fs.Found (Fs.Dir es) →
  ∃ es' more, Fs.walk v n' = Fs.Found (Fs.Dir es') ∧ es'.*1 = es.*1 ++ more.
Proof.
  revert n n' v. induction p as [|c p IH]; intros n n' v; simpl.
  - destruct n; [|done]. intros [= <-]. destruct v; done.
  - destruct n as [|es0]; [done|].
    destruct (Fs.child c es0) as [m|] eqn:Hc.
    + destruct (Fs.put p data m) as [|m'] eqn:Hput; [done|].
      intros [= <-]. destruct v as [|c' v]; simpl.
      * intros [= <-]. eexists _, []. split; [done|].
        by rewrite setChild_names, app_nil_r.
      * destruct (decide (c' = c)) as [->|Hne].
        -- rewrite Hc, (child_setChild_eq _ _ _ _ Hc). eauto.
        -- rewrite child_setChild_ne by done. intros ->.
           eexists _, []. by rewrite app_nil_r.
    + destruct p; [|done]. intros [= <-].
      destruct v as [|c' v]; simpl.
      * intros [= <-]. eexists _, [c]. split; [done|]. by rewrite fmap_app.
      * destruct (decide (c' = c)) as [->|Hne].
        -- by rewrite Hc.
        -- rewrite child_app_new_ne by done. intros ->.
           eexists _, []. by rewrite app_nil_r.
Qed.

(** Writing the same data again changes nothing. *)
Lemma put_again p data n n' :
  Fs.put p data n = inr n' → Fs.put p data n' = inr n'.
Proof.
  revert n n'. induction p as [|c p IH]; intros n n'; simpl.
  - destruct n; [|done]. by intros [= <-].
  - destruct n as [|es]; [done|].
    destruct (Fs.child c es) as [m|] eqn:Hc.
    + destruct (Fs.put p data m) as [|m'] eqn:Hput; [done|].
      intros [= <-]. simpl. rewrite (child_setChild_eq _ _ _ _ Hc).
      rewrite (IH _ _ Hput). by rewrite setChild_setChild.
    + destruct p; [|done]. intros [= <-]. simpl.
      rewrite child_app_new_eq by done. simpl.
      by rewrite setChild_app_new.
Qed.

End Tree.

(** ** Restoring a snapshot *)

Section Restore.
Context (env : Env).

Lemma readdirSync_inr root path files :
  Fs.readdirSync root path = inr files ↔
  ∃ es, Fs.walk (Path.components path) root = Fs.Found (Fs.Dir es) ∧ files = es.*1.
Proof.
  unfold Fs.readdirSync, Fs.readdirTypes.
  destruct (Fs.walk _ root) as [[|es]| |]; split; try done;
    try (by intros (? & ? & ?)).
  - intros [= <-]. eexists; split; [done|].
    induction es as [|[??] ? IH]; simpl; [done|]. by f_equal.
  - intros (es' & [= <-] & ->). f_equal.
    induction es as [|[??] ? IH]; simpl; [done|]. by f_equal.
Qed.

Lemma readdirSync_inl root path code :
  Fs.readdirSync root path = inl code → code = "ENOENT" ∨ code = "ENOTDIR".
Proof.
  unfold Fs.readdirSync, Fs.readdirTypes.
  destruct (Fs.walk _ root) as [[|es]| |]; intros [= <-]; auto.
Qed.

Lemma getBackupPath_run e w :
  HistoryStorage.getBackupPath env e w =
    match Fs.readdirSync (fs w) (HistoryStorage.getVersionDir env e) with
    | inl code =>
        (Throw (JS.SystemError code "scandir" (HistoryStorage.getVersionDir env e)), w)
    | inr files =>
        (Ok (Path.join (HistoryStorage.getVersionDir env e) <$>
               find (HistoryStorage.isBackupOf
                       (Path.basename (HistoryEntry.localPath e))) files), w)
    end.
Proof.
  unfold HistoryStorage.getBackupPath, fsRead, bind, gets. cbv beta iota.
  destruct (Fs.readdirSync _ _); simpl; [done|]. by destruct (find _ _).
Qed.

Lemma readFileSync_exists root path data :
  Fs.readFileSync root path = inr data → Fs.existsSync root path = true.
Proof.
  unfold Fs.readFileSync, Fs.existsSync. by destruct (Fs.walk _ _) as [[|?]| |].
Qed.

Lemma readFileSync_inr root path data :
  Fs.readFileSync root path = inr data ↔
  Fs.walk (Path.components path) root = Fs.Found (Fs.File data).
Proof.
  unfold Fs.readFileSync. destruct (Fs.walk _ _) as [[|?]| |]; split; congruence.
Qed.

Lemma restore_run e w backupPath :
  (HistoryStorage.getBackupPath env e w).1 = Ok (Some backupPath) →
  Fs.existsSync (fs w) backupPath = true →
  HistoryManager.restoreFromHistory env e w =
    match Fs.copyFileSync (fs w) backupPath (HistoryEntry.localPath e) with
    | inr root' => (Ok tt, setFs root' w)
    | inl code => (Throw (JS.SystemError code "copyfile" backupPath), w)
    end.
Proof.
  intros Hp Hex. unfold HistoryManager.restoreFromHistory. unfold bind at 1.
  rewrite getBackupPath_run in *.
  destruct (Fs.readdirSync _ _); [done|]. simpl in Hp. injection Hp as ->.
  unfold bind, gets, fsUpdate, bind, gets, modify. cbv beta iota. rewrite Hex.
  by destruct (Fs.copyFileSync _ _ _).
Qed.

Lemma restore_twice e w backupPath data root1 :
  (HistoryStorage.getBackupPath env e w).1 = Ok (Some backupPath) →
  Fs.readFileSync (fs w) backupPath = inr data →
  Fs.writeFileSync (fs w) (HistoryEntry.localPath e) data = inr root1 →
  HistoryManager.restoreFromHistory env e w = (Ok tt, setFs root1 w)
  ∧ Fs.readFileSync root1 (HistoryEntry.localPath e) = inr data
  ∧ HistoryManager.restoreFromHistory env e (setFs root1 w) = (Ok tt, setFs root1 w).
Proof.
  intros Hp Hread Hwrite.
  assert (Fs.readFileSync root1 (HistoryEntry.localPath e) = inr data) as Hlocal.
  { apply readFileSync_inr. by apply (put_walk _ _ (fs w)). }
  assert (Fs.readFileSync root1 backupPath = inr data) as Hread1.
  { destruct (decide (Path.components backupPath
                      = Path.components (HistoryEntry.localPath e))) as [Heq|Hne].
    - apply readFileSync_inr. rewrite Heq. by apply (put_walk _ _ (fs w)).
    - apply readFileSync_inr. apply (put_walk_other _ _ _ _ _ _ Hwrite Hne).
      by apply readFileSync_inr. }
  split; [|split; [done|]].
  - rewrite (restore_run _ _ backupPath); [|done|by eapply readFileSync_exists].
    unfold Fs.copyFileSync. by rewrite Hread, Hwrite.
  - rewrite (restore_run _ _ backupPath).
    + simpl. unfold Fs.copyFileSync. rewrite Hread1.
      unfold Fs.writeFileSync in *. by rewrite (put_again _ _ _ _ Hwrite).
    + rewrite getBackupPath_run in *. simpl.
      destruct (Fs.readdirSync (fs w) _) as [|files] eqn:Hdir; [done|].
      apply readdirSync_inr in Hdir as (es & Hwalk & ->).
      destruct (put_listing _ _ _ _ _ _ Hwrite Hwalk) as (es' & more & Hwalk' & Hnames).
      assert (Fs.readdirSync root1 (HistoryStorage.getVersionDir env e)
              = inr (es.*1 ++ more)) as ->.
      { apply readdirSync_inr. eauto. }
      simpl in *. destruct (find _ es.*1) as [name|] eqn:Hfind; [|done].
      by rewrite (find_app_found _ _ _ _ Hfind).
    + simpl. by eapply readFileSync_exists.
Qed.

Lemma restore_absent e w :
  (∀ p, (HistoryStorage.getBackupPath env e w).1 = Ok (Some p) →
        Fs.existsSync (fs w) p = false) →
  ∃ err, HistoryManager.restoreFromHistory env e w = (Throw err, w)
         ∧ isNotFound err = true.
Proof.
  intros Habsent. unfold HistoryManager.restoreFromHistory. unfold bind at 1.
  rewrite getBackupPath_run in *.
  destruct (Fs.readdirSync _ _) as [code|files] eqn:Hdir.
  - eexists; split; [done|]. simpl.
    by destruct (readdirSync_inl _ _ _ Hdir) as [-> | ->].
  - simpl in *. destruct (find _ files) as [name|]; simpl in *.
    + unfold bind, gets. cbv beta iota. rewrite (Habsent _ eq_refl). by eexists.
    + by eexists.
Qed.

End Restore.

(** ** The operations *)

Section Operations.
Context (env : Env).

Lemma operation_ok body w r :
  body {| SyncManager.result := SyncManager.freshResult; SyncManager.world := w |}
    = (Ok tt, r) →
  SyncManager.operation body w = (SyncManager.result r, SyncManager.world r).
Proof.
  intros H. unfold SyncManager.operation, tryCatch. by rewrite H.
Qed.

Lemma orElse_missing {S} argument (fallback : M S string) :
  given argument = false → SyncManager.orElse argument fallback = fallback.
Proof.
  destruct argument as [p|]; [|done]. simpl. by destruct (String.eqb p "").
Qed.

End Operations.

#[global] Instance sends_preorder P : PreOrder (sends P).
Proof.
  split.
  - intros w. exists []. by rewrite app_nil_r.
  - intros a b c (sent&?&?) (sent'&?&?).
    exists (sent ++ sent'). split; [|by apply Forall_app].
    rewrite app_assoc. congruence.
Qed.

#[global] Instance quiet_preorder : PreOrder quiet.
Proof.
  split.
  - intros w. repeat split. reflexivity.
  - intros a b c (?&?&?&?&?) (?&?&?&?&?).
    repeat split; try congruence. by etrans.
Qed.

Ltac quiet_update :=
  unfold quiet, sends; simpl; repeat split;
  first [ by (exists []; rewrite app_nil_r)
        | by (eexists [_]; split; [reflexivity|repeat constructor]) ].

Section Declined.
Context (env : Env).

Lemma ensureConnected_quiet : respects quiet (SFTPManager.ensureConnected env).
Proof. respects_model quiet_update. Qed.

Lemma exists_quiet client p : respects quiet (SFTPClient.exists_ env client p).
Proof. respects_model quiet_update. Qed.

Lemma orElse_remoteTarget {S} profile lp rp :
  SyncManager.orElse rp
    (ret (SyncManager.getRemotePath env lp (ServerProfile.remotePath profile)))
  = @ret S _ (remoteTarget env profile lp rp).
Proof.
  unfold remoteTarget. destruct rp as [p|]; simpl; [|done].
  by destruct (String.eqb p "").
Qed.

Lemma orElse_localTarget profile rp lp target r :
  localTarget env profile rp lp = Some target →
  SyncManager.orElse lp
    (SyncManager.getLocalPath env rp (ServerProfile.remotePath profile)) r
  = (Ok target, r).
Proof.
  unfold localTarget, SyncManager.getLocalPath.
  destruct lp as [p|]; simpl.
  - destruct (String.eqb p ""); simpl; [|by intros [= ->]].
    destruct (workspaceFolder env); [|done]. by intros [= ->].
  - destruct (workspaceFolder env); [|done]. by intros [= ->].
Qed.

Lemma inWorld_run {A} (m : M World A) res w a w' :
  m w = (a, w') →
  SyncManager.inWorld m {| SyncManager.result := res; SyncManager.world := w |}
  = (a, {| SyncManager.result := res; SyncManager.world := w' |}).
Proof. intros H. unfold SyncManager.inWorld. simpl. by rewrite H. Qed.

Lemma declined_dialog res w :
  dialogChoice env (dialogsShown w) ≠ Some "Overwrite" →
  SyncManager.overwriteDeclined env {| SyncManager.result := res; SyncManager.world := w |}
  = (Ok true, {| SyncManager.result := res;
                 SyncManager.world := setDialogsShown (S (dialogsShown w)) w |}).
Proof.
  intros H. unfold SyncManager.overwriteDeclined, bind, SyncManager.inWorld,
    SyncManager.showWarningMessage. simpl.
  by rewrite bool_decide_eq_true_2.
Qed.

Lemma setDialogsShown_quiet n w : quiet w (setDialogsShown n w).
Proof. quiet_update. Qed.

End Declined.

(** ** Batches *)

Lemma returns_ret {S A} (a : A) (Q : A → Prop) : Q a → returns (@ret S A a) Q.
Proof. intros H s a' s' [= <- _]. done. Qed.

Lemma returns_throw {S A} e (Q : A → Prop) : returns (@throw S A e) Q.
Proof. intros s a s' [=]. Qed.

Lemma returns_bind {S A B} (m : M S A) (k : A → M S B) Q :
  (∀ a, returns (k a) Q) → returns (bind m k) Q.
Proof.
  intros Hk s b s'. unfold bind. destruct (m s) as [[a|e] s1]; [|done].
  apply Hk.
Qed.

Ltac returns_step :=
  repeat first
    [ apply returns_throw
    | apply returns_bind; intros ?
    | match goal with
      | |- returns (match ?x with _ => _ end) _ => destruct x
      end ].

#[global] Instance keepsResult_preorder : PreOrder keepsResult.
Proof.
  split; [by intros r|]. intros a b c Hab Hbc. unfold keepsResult in *. congruence.
Qed.

Section Batches.
Context (env : Env).

Lemma tallyAll_success files outcomes r :
  SyncResult.success (tallyAll files outcomes r) = SyncResult.success r.
Proof.
  revert outcomes r. induction files as [|f files IH]; intros [|o os] r;
    simpl; try done.
  rewrite IH. by destruct o.
Qed.

Lemma tallyAll_total files outcomes r :
  length outcomes = length files →
  (SyncResult.filesProcessed (tallyAll files outcomes r)
   + length (SyncResult.errors (tallyAll files outcomes r))
   = SyncResult.filesProcessed r + length (SyncResult.errors r) + length files)%nat.
Proof.
  revert outcomes r. induction files as [|f files IH]; intros [|o os] r;
    simpl; try done.
  intros [= H]. rewrite (IH _ _ H). destruct o; simpl; [lia|].
  rewrite length_app. simpl. lia.
Qed.

Lemma tallyAll_failures files outcomes r :
  Forall (λ o, o ≠ Ok tt) outcomes →
  SyncResult.filesProcessed (tallyAll files outcomes r) = SyncResult.filesProcessed r.
Proof.
  intros H. revert files r. induction H as [|o os Ho _ IH]; intros [|f files] r;
    simpl; try done.
  rewrite IH. destruct o as [[]|e]; done.
Qed.

Lemma tallyAll_completed files r :
  tallyAll files (replicate (length files) (Ok tt)) r =
    SyncResult.mk (SyncResult.success r)
      (SyncResult.filesProcessed r + length files)
      (SyncResult.errors r).
Proof.
  revert r. induction files as [|f files IH]; intros r; simpl.
  - destruct r. simpl. f_equal. lia.
  - rewrite IH. simpl. f_equal. lia.
Qed.

Lemma tallyAll_app files files' outcomes outcomes' r :
  length outcomes = length files →
  tallyAll (files ++ files') (outcomes ++ outcomes') r =
    tallyAll files' outcomes' (tallyAll files outcomes r).
Proof.
  revert outcomes r. induction files as [|f files IH]; intros [|o os] r;
    simpl; try done.
  intros [= H]. by apply IH.
Qed.

Lemma tallyAll_one_failure before file after error r :
  tallyAll (before ++ file :: after)
    ((replicate (length before) (Ok tt)) ++ Throw error :: (replicate (length after) (Ok tt))) r =
    SyncResult.mk (SyncResult.success r)
      (SyncResult.filesProcessed r + length before + length after)
      (SyncResult.errors r ++ [file +:+ ": " +:+ JS.toString error]).
Proof.
  rewrite tallyAll_app by (by rewrite length_replicate). simpl.
  rewrite !tallyAll_completed. simpl. f_equal. 
Qed.

Lemma transferOutcomes_length transfer files w :
  length (transferOutcomes env transfer files w) = length files.
Proof.
  revert w. induction files as [|f files IH]; intros w; simpl; [done|].
  by rewrite IH.
Qed.

(** The loop of a bulk operation that is not cancelled ends normally,
    with the tally of the outcomes of its files. *)
Lemma forEachFile_run cancelled transfer files res w :
  (∀ f, respects (keeps tokenReads) (transfer f)) →
  (∀ i, (i < length files)%nat →
        cancellationRequested env (tokenReads w + i) = false) →
  ∃ w', SyncManager.forEachFile env cancelled transfer files
          {| SyncManager.result := res; SyncManager.world := w |}
        = (Ok tt,
           {| SyncManager.result :=
                tallyAll files (transferOutcomes env transfer files w) res;
              SyncManager.world := w' |}).
Proof.
  intros Htoken. revert res w.
  induction files as [|file files IH]; intros res w Hrun; simpl.
  - by eexists.
  - unfold bind at 1. unfold SyncManager.inWorld at 1.
    unfold SyncManager.isCancellationRequested at 1.
    cbn [SyncManager.world SyncManager.result].
    pose proof (Hrun 0%nat ltac:(simpl; lia)) as H0.
    rewrite Nat.add_0_r in H0. rewrite H0.
    set (w1 := setTokenReads (S (tokenReads w)) w).
    pose proof (Htoken file w1) as Hkeep. unfold keeps in Hkeep.
    unfold bind at 1. unfold tryCatch at 1. unfold bind at 1.
    unfold SyncManager.inWorld at 1.
    cbn [SyncManager.world SyncManager.result].
    assert (∀ w2, tokenReads w2 = tokenReads w1 →
              ∀ i, (i < length files)%nat →
                   cancellationRequested env (tokenReads w2 + i) = false) as Hrest.
    { intros w2 -> i Hi. unfold w1. cbn [tokenReads setTokenReads].
      replace (S (tokenReads w) + i)%nat with (tokenReads w + S i)%nat by lia.
      apply Hrun. simpl. lia. }
    destruct (transfer file w1) as [[[]|error] w2] eqn:Htransfer;
      simpl in Hkeep; simpl.
    + destruct (IH (SyncManager.countFile res) w2 (Hrest w2 Hkeep)) as [w' Hw'].
      rewrite Hw'. by eexists.
    + destruct (IH (SyncManager.pushError (file +:+ ": " +:+ JS.toString error) res)
                  w2 (Hrest w2 Hkeep)) as [w' Hw'].
      rewrite Hw'. by eexists.
Qed.

(** Every bulk operation is its plan followed by its loop. *)
Lemma run_bulk b w :
  run env (bulkCall b) w =
    SyncManager.operation
      (let* plan := bulkPlan env b in
       SyncManager.withProgress env (cancelledMessage b) plan) w.
Proof. by destruct b. Qed.

(** The plan leaves the result as it is. *)
Lemma inWorld_keepsResult {A} (m : M World A) :
  respects keepsResult (SyncManager.inWorld m).
Proof.
  intros r. unfold SyncManager.inWorld, keepsResult.
  by destruct (m (SyncManager.world r)).
Qed.

Lemma bulkPlan_result b : respects keepsResult (bulkPlan env b).
Proof.
  destruct b; simpl;
    unfold SyncManager.uploadFolderPlan, SyncManager.downloadFolderPlan,
      SyncManager.syncAllPlan, SyncManager.requireActiveProfile,
      SyncManager.requireWorkspaceFolder, SyncManager.orElse,
      SyncManager.getLocalPath;
    repeat first [ apply inWorld_keepsResult | progress respects_with idtac ].
Qed.

(** The transfers of a plan do not read the cancellation token. *)
Lemma bulkPlan_token b :
  returns (bulkPlan env b)
    (λ p, ∀ f, respects (keeps tokenReads) (SyncManager.transfer p f)).
Proof.
  destruct b; simpl;
    unfold SyncManager.uploadFolderPlan, SyncManager.downloadFolderPlan,
      SyncManager.syncAllPlan;
    returns_step; apply returns_ret; intros f; simpl;
    respects_model keeps_field.
Qed.

(** What a bulk operation returns when its plan succeeds and it is not
    cancelled. *)
Lemma bulk_result b w p r1 :
  bulkPlan env b {| SyncManager.result := SyncManager.freshResult;
                    SyncManager.world := w |} = (Ok p, r1) →
  (∀ i, (i < length (SyncManager.files p))%nat →
        cancellationRequested env (tokenReads (SyncManager.world r1) + i) = false) →
  (run env (bulkCall b) w).1 =
    tallyAll (SyncManager.files p)
      (transferOutcomes env (SyncManager.transfer p) (SyncManager.files p)
         (SyncManager.world r1))
      SyncManager.freshResult.
Proof.
  intros Hplan Hrun. rewrite run_bulk.
  pose proof (bulkPlan_result b {| SyncManager.result := SyncManager.freshResult;
                                   SyncManager.world := w |}) as Hres.
  rewrite Hplan in Hres. unfold keepsResult in Hres. simpl in Hres.
  pose proof (bulkPlan_token b _ _ _ Hplan) as Htoken. simpl in Htoken.
  destruct r1 as [res1 w1]. simpl in *. subst res1.
  destruct (forEachFile_run (cancelledMessage b) _ _ SyncManager.freshResult w1
              Htoken Hrun) as [w' Hloop].
  rewrite (operation_ok _ _ _
             (eq_trans (bind_ok _ _ _ _ _ Hplan) Hloop)).
  done.
Qed.

End Batches.

(** ** What [syncAll] uploads *)

#[global] Instance uploadsOnly_preorder allowed : PreOrder (uploadsOnly allowed).
Proof.
  split.
  - intros w. split; [reflexivity|]. auto.
  - intros a b c [? Hab] [? Hbc]. split; [by etrans|].
    intros e He. destruct (Hbc e He) as [Hb|?]; [|by right]. by apply Hab.
Qed.

Lemma respects_bind_returns {S A B} (R : relation S) `{!PreOrder R}
  (m : M S A) (k : A → M S B) (Q : A → Prop) :
  respects R m → returns m Q → (∀ a, Q a → respects R (k a)) →
  respects R (bind m k).
Proof.
  intros Hm HQ Hk s. unfold bind. specialize (Hm s). specialize (HQ s).
  destruct (m s) as [[a|e] s']; simpl in *; [|done].
  etrans; [done|]. apply Hk. by eapply HQ.
Qed.

Ltac uploadsOnly_update :=
  unfold uploadsOnly, sends, tracked; simpl; split;
  [ first [ by (exists []; rewrite app_nil_r)
          | by (eexists [_]; split;
                [reflexivity
                |constructor; [|constructor];
                 first [by left
                       |right; do 2 eexists; split; [reflexivity|eassumption]]]) ]
  | by auto ].

Section Exclusion.
Context (env : Env).

Lemma backupFile_localPath lp entry :
  returns (HistoryStorage.backupFile env lp entry)
    (λ r, HistoryEntry.localPath r.2 = HistoryEntry.localPath entry).
Proof.
  unfold HistoryStorage.backupFile. returns_step; by apply returns_ret.
Qed.

Lemma backupFile_keeps_pending lp entry :
  respects (keeps pendingBackups) (HistoryStorage.backupFile env lp entry).
Proof. respects_model keeps_field. Qed.

(** [recordBefore], step by step. *)
Lemma recordBefore_run op lp rp w :
  HistoryManager.recordBefore env op lp rp w =
    match ProfileManager.getActiveProfile env with
    | None => (Ok tt, w)
    | Some profile =>
        let w0 :=
          setClockReads (S (S (clockReads w)))
            (setRandomReads (S (randomReads w)) w) in
        if Fs.existsSync (fs w) lp then
          (let* backup :=
             HistoryStorage.backupFile env lp
               (HistoryEntry.mk
                  (pretty (dateNow env (clockReads w)) +:+ "-"
                     +:+ randomSuffix env (randomReads w))
                  (dateNow env (S (clockReads w))) op lp rp
                  (ServerProfile.name profile) 0 "") in
           modify (λ w1, setPendingBackups
             (<[HistoryManager.getBackupKey lp rp op := backup.2]>
                (pendingBackups w1)) w1)) w0
        else (Ok tt, w0)
    end.
Proof.
  unfold HistoryManager.recordBefore.
  destruct (ProfileManager.getActiveProfile env) as [profile|]; [|done].
  unfold HistoryManager.generateId, bind at 1 2 3 4 5, now, random, gets, ret.
  cbv beta iota. cbn [fs setClockReads setRandomReads clockReads randomReads].
  by destruct (Fs.existsSync (fs w) lp).
Qed.

(** What [recordBefore] does to the pending snapshots: nothing, or one
    more for its local path under its key. *)
Lemma recordBefore_pending op lp rp w :
  let w' := (HistoryManager.recordBefore env op lp rp w).2 in
  pendingBackups w' = pendingBackups w
  ∨ ∃ e, HistoryEntry.localPath e = lp
         ∧ pendingBackups w' =
             <[HistoryManager.getBackupKey lp rp op := e]> (pendingBackups w).
Proof.
  cbv zeta. rewrite recordBefore_run.
  destruct (ProfileManager.getActiveProfile env) as [profile|]; [|by left].
  destruct (Fs.existsSync (fs w) lp); [|by left].
  cbv zeta. unfold bind, modify.
  match goal with
  | |- context [HistoryStorage.backupFile env lp ?entry ?w0] =>
      pose proof (backupFile_localPath lp entry w0) as Hlp;
      pose proof (backupFile_keeps_pending lp entry w0) as Hkeep;
      destruct (HistoryStorage.backupFile env lp entry w0) as [[backup|error] w1]
  end; unfold keeps in Hkeep; simpl in Hkeep; simpl.
  - right. exists backup.2. split; [by eapply Hlp|]. by rewrite Hkeep.
  - by left.
Qed.

Lemma recordBefore_uploadsOnly (allowed : string → Prop) op lp rp :
  allowed lp → respects (uploadsOnly allowed) (HistoryManager.recordBefore env op lp rp).
Proof.
  intros Hlp w.
  pose proof (keeps_eq _ _ (recordBefore_keeps_index env op lp rp) w) as Hindex.
  pose proof (keeps_eq _ _ (recordBefore_keeps_requests env op lp rp) w) as Hrequests.
  pose proof (recordBefore_pending op lp rp w) as Hpending. cbv zeta in Hpending.
  set (w' := (HistoryManager.recordBefore env op lp rp w).2) in *.
  split.
  - exists []. by rewrite app_nil_r.
  - intros e [He|[key He]].
    + left. left. by rewrite <- Hindex.
    + destruct Hpending as [Hsame|(e' & He' & Hinsert)].
      * left. right. exists key. by rewrite <- Hsame.
      * rewrite Hinsert in He. apply lookup_insert_Some in He as [[_ <-]|[_ He]].
        -- right. by rewrite He'.
        -- left. right. eauto.
Qed.

Lemma recordAfter_uploadsOnly (allowed : string → Prop) op lp rp :
  respects (uploadsOnly allowed) (HistoryManager.recordAfter env op lp rp).
Proof.
  intros w.
  pose proof (keeps_eq _ _ (recordAfter_keeps_requests env op lp rp) w) as Hrequests.
  destruct (pendingBackups w !! HistoryManager.getBackupKey lp rp op) as [e0|] eqn:Hp.
  - destruct (recordAfter_pending env op lp rp w e0 Hp) as (_ & Hindex & Hpending).
    set (w' := (HistoryManager.recordAfter env op lp rp w).2) in *.
    split.
    + exists []. by rewrite app_nil_r.
    + intros e [He|[key He]]; left.
      * rewrite Hindex in He. apply afterPruning_subseteq in He.
        apply elem_of_app in He as [?|He]; [by left|].
        apply list_elem_of_singleton in He as ->. right. eauto.
      * rewrite Hpending in He. apply lookup_delete_Some in He as [_ He].
        right. eauto.
  - rewrite (recordAfter_idle env op lp rp w Hp). reflexivity.
Qed.

Lemma putFile_uploadsOnly (allowed : string → Prop) client lp rp :
  allowed lp → respects (uploadsOnly allowed) (SFTPClient.putFile env client lp rp).
Proof. intros Hlp. respects_model uploadsOnly_update. Qed.

Lemma uploadOne_uploadsOnly (allowed : string → Prop) client localBase remoteBase file :
  allowed file →
  respects (uploadsOnly allowed) (SyncManager.uploadOne env client localBase remoteBase file).
Proof.
  intros Hfile. unfold SyncManager.uploadOne.
  apply respects_bind; [typeclasses eauto|by apply recordBefore_uploadsOnly|intros _].
  apply respects_bind; [typeclasses eauto|by apply putFile_uploadsOnly|intros _].
  apply recordAfter_uploadsOnly.
Qed.

(** The loop keeps what each of its transfers keeps. *)
Lemma forEachFile_respects (R : relation World) `{!PreOrder R}
  cancelled transfer files :
  (∀ w n, R w (setTokenReads n w)) →
  (∀ f, f ∈ files → respects R (transfer f)) →
  respects (onWorld R) (SyncManager.forEachFile env cancelled transfer files).
Proof.
  intros Htoken. induction files as [|file files IH]; intros Htransfer; simpl.
  - apply respects_ret. typeclasses eauto.
  - apply respects_bind; [typeclasses eauto| |intros cancel].
    + apply respects_inWorld. intros w. apply Htoken.
    + destruct cancel; [apply respects_throw; typeclasses eauto|].
      apply respects_bind; [typeclasses eauto| |intros _].
      * apply respects_tryCatch; [typeclasses eauto| |intros error].
        -- apply respects_bind; [typeclasses eauto| |intros _].
           ++ apply respects_inWorld, Htransfer. left.
           ++ apply respects_updateResult. typeclasses eauto.
        -- apply respects_updateResult. typeclasses eauto.
      * apply IH. intros f Hf. apply Htransfer. by right.
Qed.

Lemma ensureConnected_uploadsOnly allowed :
  respects (uploadsOnly allowed) (SFTPManager.ensureConnected env).
Proof. respects_model uploadsOnly_update. Qed.

Lemma getAllFiles_uploadsOnly allowed dirPath :
  respects (uploadsOnly allowed) (SyncManager.getAllFiles dirPath).
Proof. respects_model uploadsOnly_update. Qed.

Lemma filesToUpload_allowed folder exclude localFiles file :
  file ∈ SyncManager.filesToUpload env folder exclude localFiles →
  SyncManager.shouldExclude env (Path.relative folder file) exclude = false.
Proof. unfold SyncManager.filesToUpload. by intros [? _]%list_elem_of_filter. Qed.

Lemma operation_world body w :
  (SyncManager.operation body w).2 =
    SyncManager.world
      (tryCatch body SyncManager.operationFailed
         {| SyncManager.result := SyncManager.freshResult;
            SyncManager.world := w |}).2.
Proof. unfold SyncManager.operation. by destruct (tryCatch _ _ _). Qed.

Lemma operationFailed_respects (R : relation World) `{!PreOrder R} error :
  respects (onWorld R) (SyncManager.operationFailed error).
Proof.
  unfold SyncManager.operationFailed.
  apply respects_bind; [typeclasses eauto| |intros _];
    apply respects_updateResult; typeclasses eauto.
Qed.

(** What [syncAll] does respects the exclusions of the active profile. *)
Lemma syncAll_uploadsOnly folder profile w :
  workspaceFolder env = Some folder →
  ProfileManager.getActiveProfile env = Some profile →
  uploadsOnly
    (λ file, SyncManager.shouldExclude env (Path.relative folder file)
               (ServerProfile.exclude profile) = false)
    w (SyncManager.syncAll env w).2.
Proof.
  intros Hfolder Hprofile.
  set (allowed := λ file, SyncManager.shouldExclude env _ _ = false).
  unfold SyncManager.syncAll. rewrite operation_world.
  match goal with
  | |- uploadsOnly _ _ (SyncManager.world (?m ?r).2) =>
      cut (respects (onWorld (uploadsOnly allowed)) m); [intros H; apply (H r)|]
  end.
  apply respects_tryCatch;
    [typeclasses eauto| |intros error; apply operationFailed_respects; typeclasses eauto].
  unfold SyncManager.syncAllPlan, SyncManager.requireWorkspaceFolder,
    SyncManager.requireActiveProfile.
  rewrite Hfolder, Hprofile, !bind_ret.
  apply (respects_bind_returns _ _ _
           (λ p, ∀ f, f ∈ SyncManager.files p →
                      respects (uploadsOnly allowed) (SyncManager.transfer p f))).
  - apply respects_bind; [typeclasses eauto| |intros client].
    { apply respects_inWorld, ensureConnected_uploadsOnly. }
    apply respects_bind; [typeclasses eauto| |intros localFiles].
    { apply respects_inWorld, getAllFiles_uploadsOnly. }
    apply respects_ret. typeclasses eauto.
  - apply returns_bind. intros client. apply returns_bind. intros localFiles.
    apply returns_ret. simpl. intros f Hf.
    apply uploadOne_uploadsOnly. by eapply filesToUpload_allowed.
  - intros p Hp. unfold SyncManager.withProgress.
    apply forEachFile_respects; [typeclasses eauto| |done].
    intros w0 n. uploadsOnly_update.
Qed.

End Exclusion.

(** * The claims

    Each claim of the specification is stated over the model above, and
    followed by a run of it on the workspace of [Example]. *)

Import Example.

(** ** The history store *)

(** C1 (retention invariant).  Committing an entry, that is [addEntry]
    with the pruning pass it ends with, always completes when the
    configured number of versions is not negative, and in the index it
    leaves
    - every local path has at most [maxHistoryVersions] entries;
    - no entry is older than [historyMaxAgeDays] days on the clock the
      pass has read;
    - no entry that the pass has put on its deletion list is left;
    - every entry was in the index before, or is the one committed. *)
Theorem retention_invariant (env : Env) entry w :
  0 ≤ maxHistoryVersions env →
  (HistoryStorage.addEntry env entry w).1 = Ok tt
  ∧ (∀ localPath,
       Z.of_nat (length (entriesFor localPath
                           (index (HistoryStorage.addEntry env entry w).2)))
       ≤ maxHistoryVersions env)
  ∧ (∀ e, e ∈ index (HistoryStorage.addEntry env entry w).2 →
          dateNow env (clockReads w) - HistoryEntry.timestamp e ≤ maxAge env)
  ∧ (∀ e, e ∈ HistoryStorage.entriesToDelete (maxHistoryVersions env) (maxAge env)
                (dateNow env (clockReads w)) (index w ++ [entry]) →
          e ∉ index (HistoryStorage.addEntry env entry w).2)
  ∧ (∀ e, e ∈ index (HistoryStorage.addEntry env entry w).2 →
          e ∈ index w ∨ e = entry).
Proof.
  intros Hmax. rewrite addEntry_index. split; [apply addEntry_ok|].
  split; [intros P; by apply afterPruning_count|].
  split; [intros e; apply afterPruning_age|].
  split; [intros e; apply afterPruning_deleted|].
  intros e He%afterPruning_subseteq.
  apply elem_of_app in He as [?|He]; [by left|].
  right. by apply list_elem_of_singleton.
Qed.

(** A third entry for [/ws/a.txt], with two versions kept, leaves two. *)
Lemma retention_invariant_witness :
  0 ≤ maxHistoryVersions (env noFault)
  ∧ (HistoryStorage.addEntry (env noFault) (entry 9) (afterUploads 2)).1 = Ok tt
  ∧ length (index (HistoryStorage.addEntry (env noFault) (entry 9) (afterUploads 2)).2)
    = 2%nat.
Proof.
  split; [cbn; lia|].
  split; [apply (retention_invariant (env noFault) (entry 9) (afterUploads 2)); cbn; lia|].
  vm_compute. reflexivity.
Defined.

(** C2 (version ordinals, as the code has them).  The ordinal that
    [generateVersionSuffix] gives a new snapshot of a (local path,
    operation, profile) triple is one more than the number of entries of
    that triple in the index.  A commit raises the next ordinal of the
    triple by at most one, and by exactly one when the committed entry is
    of the triple and the pruning pass leaves every entry of the triple in
    the index. *)
Theorem ordinal_counts_indexed_entries (env : Env) lp entry e w :
  HistoryStorage.generateVersionSuffix lp entry w =
    (Ok (pretty (length (indexedFor lp (HistoryEntry.operation entry)
                           (HistoryEntry.profileName entry) (index w)) + 1)%nat), w)
  ∧ (HistoryStorage.versionOrdinal (index (HistoryStorage.addEntry env e w).2) lp entry
     ≤ HistoryStorage.versionOrdinal (index w) lp entry + 1)%nat
  ∧ ((∀ x, x ∈ indexedFor lp (HistoryEntry.operation entry)
                 (HistoryEntry.profileName entry) (index w ++ [e]) →
           x ∈ index (HistoryStorage.addEntry env e w).2) →
     HistoryStorage.sameTriple lp entry e = true →
     HistoryStorage.versionOrdinal (index (HistoryStorage.addEntry env e w).2) lp entry
     = (HistoryStorage.versionOrdinal (index w) lp entry + 1)%nat).
Proof.
  assert (∀ l, length (indexedFor lp (HistoryEntry.operation entry)
                         (HistoryEntry.profileName entry) (l ++ [e]))
               ≤ length (indexedFor lp (HistoryEntry.operation entry)
                           (HistoryEntry.profileName entry) l) + 1)%nat as Hsnoc.
  { intros l. unfold indexedFor. rewrite filter_app, length_app.
    pose proof (length_filter
                  (λ e0, HistoryEntry.localPath e0 = lp
                         ∧ HistoryEntry.operation e0 = HistoryEntry.operation entry
                         ∧ HistoryEntry.profileName e0 = HistoryEntry.profileName entry)
                  [e]) as Hone.
    simpl in Hone. lia. }
  split; [|split].
  - unfold HistoryStorage.generateVersionSuffix, bind, gets, ret.
    by rewrite versionOrdinal_indexedFor.
  - rewrite !versionOrdinal_indexedFor, addEntry_index, indexedFor_afterPruning.
    pose proof (length_filter
                  (λ x, HistoryEntry.id x ∉
                          HistoryEntry.id <$>
                            HistoryStorage.entriesToDelete (maxHistoryVersions env)
                              (maxAge env) (dateNow env (clockReads w)) (index w ++ [e]))
                  (indexedFor lp (HistoryEntry.operation entry)
                     (HistoryEntry.profileName entry) (index w ++ [e]))) as Hle.
    specialize (Hsnoc (index w)). lia.
  - intros Hkept Hsame. rewrite !versionOrdinal_indexedFor.
    rewrite addEntry_index in *. rewrite indexedFor_afterPruning.
    rewrite filter_all.
    + unfold indexedFor. rewrite filter_app, length_app.
      rewrite (filter_all _ [e]); [simpl; lia|].
      intros x ->%list_elem_of_singleton. by apply sameTriple_spec.
    + intros x Hx. specialize (Hkept x Hx). unfold afterPruning in Hkept.
      by apply list_elem_of_filter in Hkept as [? _].
Qed.

(** The first commit for [/ws/a.txt] prunes nothing and moves the next
    ordinal from 1 to 2. *)
Lemma ordinal_counts_indexed_entries_witness :
  (∀ x, x ∈ indexedFor "/ws/a.txt" upload "prod" (index world ++ [committed]) →
        x ∈ index (HistoryStorage.addEntry (env noFault) committed world).2)
  ∧ HistoryStorage.sameTriple "/ws/a.txt" committed committed = true
  ∧ HistoryStorage.versionOrdinal
      (index (HistoryStorage.addEntry (env noFault) committed world).2)
      "/ws/a.txt" committed
    = (HistoryStorage.versionOrdinal (index world) "/ws/a.txt" committed + 1)%nat.
Proof.
  assert (∀ x, x ∈ indexedFor "/ws/a.txt" upload "prod" (index world ++ [committed]) →
               x ∈ index (HistoryStorage.addEntry (env noFault) committed world).2) as H.
  { intros x Hx. vm_compute in Hx. vm_compute. exact Hx. }
  split; [exact H|]. split; [reflexivity|].
  apply (ordinal_counts_indexed_entries (env noFault) "/ws/a.txt" committed committed world);
    [exact H|reflexivity].
Defined.

(** Ordinals are reused once entries are pruned.  With two versions kept,
    the snapshot of the third upload of [/ws/a.txt] and the snapshot of the
    fourth are both given ordinal 3, and after the fourth upload the two
    snapshot directories each hold a file [a.txt_v3]. *)
Lemma ordinal_reused_after_pruning :
  maxHistoryVersions (env noFault) = 2
  ∧ (HistoryStorage.generateVersionSuffix "/ws/a.txt" committed (afterUploads 2)).1
    = Ok "3"
  ∧ (HistoryStorage.generateVersionSuffix "/ws/a.txt" committed (afterUploads 3)).1
    = Ok "3"
  ∧ Fs.existsSync (fs (afterUploads 4))
      "/ws/.vscode/filesyncer/history/2024-01-02T03-04-12_prod/a.txt_v3" = true
  ∧ Fs.existsSync (fs (afterUploads 4))
      "/ws/.vscode/filesyncer/history/2024-01-02T03-04-15_prod/a.txt_v3" = true.
Proof. repeat split; vm_compute; reflexivity. Qed.

(** C4 (no commit without a snapshot, as the code has it).  When the local
    file does not exist and no snapshot is pending under the key of
    (local path, remote path, operation), [recordBefore] completes without
    touching the files, the index or the pending snapshots, and the
    [recordAfter] that follows with the same key commits nothing: it
    returns in the same world. *)
Theorem no_snapshot_no_commit (env : Env) op lp rp w :
  Fs.existsSync (fs w) lp = false →
  pendingBackups w !! HistoryManager.getBackupKey lp rp op = None →
  (HistoryManager.recordBefore env op lp rp w).1 = Ok tt
  ∧ fs (HistoryManager.recordBefore env op lp rp w).2 = fs w
  ∧ index (HistoryManager.recordBefore env op lp rp w).2 = index w
  ∧ pendingBackups (HistoryManager.recordBefore env op lp rp w).2 = pendingBackups w
  ∧ HistoryManager.recordAfter env op lp rp
      (HistoryManager.recordBefore env op lp rp w).2
    = (Ok tt, (HistoryManager.recordBefore env op lp rp w).2).
Proof.
  intros Hfs Hpending.
  destruct (recordBefore_absent env op lp rp w Hfs) as (Hok & Hfs' & Hindex & Hp & _).
  repeat split; try done.
  apply recordAfter_idle. by rewrite Hp.
Qed.

(** A download to [/ws/new.txt], which is not there, in a fresh workspace. *)
Lemma no_snapshot_no_commit_witness :
  Fs.existsSync (fs world) "/ws/new.txt" = false
  ∧ pendingBackups world !! HistoryManager.getBackupKey "/ws/new.txt" "/srv/new.txt" download
    = None
  ∧ index (HistoryManager.recordBefore (env noFault) download "/ws/new.txt"
             "/srv/new.txt" world).2 = index world.
Proof.
  split; [reflexivity|]. split; [reflexivity|].
  apply (no_snapshot_no_commit (env noFault) download "/ws/new.txt" "/srv/new.txt" world);
    reflexivity.
Defined.

(** A snapshot left pending is committed although the file is gone.  A
    download of [/srv/a.txt] fails after its snapshot was taken, and the
    local file is deleted; the index is empty.  The next download finds no
    local file, takes no snapshot, and its [recordAfterDownload] commits
    the snapshot of the failed one. *)
Lemma stale_snapshot_committed :
  Fs.existsSync (fs afterFailedDownload) "/ws/a.txt" = false
  ∧ index afterFailedDownload = []
  ∧ length (index (HistoryManager.recordAfterDownload (env (faultAt 1))
                     "/ws/a.txt" "/srv/a.txt"
                     (HistoryManager.recordBeforeDownload (env (faultAt 1))
                        "/ws/a.txt" "/srv/a.txt" afterFailedDownload).2).2)
    = 1%nat.
Proof. repeat split; vm_compute; reflexivity. Qed.

(** C10 (a pending snapshot is committed at most once).  A [recordAfter]
    that finds a snapshot pending under its key completes, commits that
    snapshot to the index (which is then pruned) and clears the key; a
    second [recordAfter] with the same key, with no [recordBefore] in
    between, returns in the same world, so the index stays as it is. *)
Theorem commit_at_most_once (env : Env) op lp rp w e :
  pendingBackups w !! HistoryManager.getBackupKey lp rp op = Some e →
  (HistoryManager.recordAfter env op lp rp w).1 = Ok tt
  ∧ index (HistoryManager.recordAfter env op lp rp w).2
    = afterPruning env (dateNow env (clockReads w)) (index w ++ [e])
  ∧ pendingBackups (HistoryManager.recordAfter env op lp rp w).2
      !! HistoryManager.getBackupKey lp rp op = None
  ∧ HistoryManager.recordAfter env op lp rp
      (HistoryManager.recordAfter env op lp rp w).2
    = (Ok tt, (HistoryManager.recordAfter env op lp rp w).2).
Proof.
  intros Hpending.
  destruct (recordAfter_pending env op lp rp w e Hpending) as (Hok & Hindex & Hp).
  assert (pendingBackups (HistoryManager.recordAfter env op lp rp w).2
            !! HistoryManager.getBackupKey lp rp op = None) as Hnone.
  { rewrite Hp. apply lookup_delete_eq. }
  repeat split; try done. by apply recordAfter_idle.
Qed.

(** The snapshot taken before an upload of [/ws/a.txt] is pending, and
    gone once committed. *)
Lemma commit_at_most_once_witness :
  pendingBackups afterSnapshot !! HistoryManager.getBackupKey "/ws/a.txt" "/srv/a.txt" upload
    = Some committed
  ∧ pendingBackups
      (HistoryManager.recordAfter (env noFault) upload "/ws/a.txt" "/srv/a.txt"
         afterSnapshot).2
      !! HistoryManager.getBackupKey "/ws/a.txt" "/srv/a.txt" upload = None.
Proof.
  assert (pendingBackups afterSnapshot
            !! HistoryManager.getBackupKey "/ws/a.txt" "/srv/a.txt" upload
          = Some committed) as H by (vm_compute; reflexivity).
  split; [exact H|].
  apply (commit_at_most_once (env noFault) upload "/ws/a.txt" "/srv/a.txt"
           afterSnapshot committed H).
Defined.

(** C7 (idempotent restore).  When the snapshot of an entry is resolved to
    a file with bytes [data], and the local path can be written,
    [restoreFromHistory] completes and leaves exactly [data] at the local
    path; run again in the world it left, it completes and leaves that
    world as it is, so both restores write the same bytes.  When the
    snapshot is absent (its directory cannot be listed, no file of it is
    found, or the file found does not exist) [restoreFromHistory] fails
    with a not-found error and leaves the world, and so the local file,
    unchanged. *)
Theorem restore_idempotent (env : Env) e w :
  (∀ backupPath data root1,
     (HistoryStorage.getBackupPath env e w).1 = Ok (Some backupPath) →
     Fs.readFileSync (fs w) backupPath = inr data →
     Fs.writeFileSync (fs w) (HistoryEntry.localPath e) data = inr root1 →
     HistoryManager.restoreFromHistory env e w = (Ok tt, setFs root1 w)
     ∧ Fs.readFileSync root1 (HistoryEntry.localPath e) = inr data
     ∧ HistoryManager.restoreFromHistory env e (setFs root1 w)
       = (Ok tt, setFs root1 w))
  ∧ ((∀ backupPath,
        (HistoryStorage.getBackupPath env e w).1 = Ok (Some backupPath) →
        Fs.existsSync (fs w) backupPath = false) →
     ∃ error, HistoryManager.restoreFromHistory env e w = (Throw error, w)
              ∧ isNotFound error = true).
Proof.
  split.
  - intros. by apply (restore_twice env e w backupPath).
  - apply restore_absent.
Qed.

(** Restoring [/ws/a.txt] from the snapshot of its first upload. *)
Lemma restore_idempotent_witness :
  (HistoryStorage.getBackupPath (env noFault) committed (afterUploads 1)).1
    = Ok (Some snapshot)
  ∧ Fs.readFileSync (fs (afterUploads 1)) snapshot = inr (bytes "one")
  ∧ Fs.writeFileSync (fs (afterUploads 1)) "/ws/a.txt" (bytes "one")
    = inr (fs (afterUploads 1))
  ∧ HistoryManager.restoreFromHistory (env noFault) committed
      (setFs (fs (afterUploads 1)) (afterUploads 1))
    = (Ok tt, setFs (fs (afterUploads 1)) (afterUploads 1)).
Proof.
  assert ((HistoryStorage.getBackupPath (env noFault) committed (afterUploads 1)).1
          = Ok (Some snapshot)) as H1 by (vm_compute; reflexivity).
  assert (Fs.readFileSync (fs (afterUploads 1)) snapshot = inr (bytes "one")) as H2
    by (vm_compute; reflexivity).
  assert (Fs.writeFileSync (fs (afterUploads 1)) "/ws/a.txt" (bytes "one")
          = inr (fs (afterUploads 1))) as H3 by (vm_compute; reflexivity).
  split; [exact H1|]. split; [exact H2|]. split; [exact H3|].
  apply (proj1 (restore_idempotent (env noFault) committed (afterUploads 1))
           snapshot (bytes "one") (fs (afterUploads 1)) H1 H2 H3).
Defined.

(** ** The sync operations *)

Lemma plan_eq faults b :
  isOk (bulkPlan (env faults) b fresh).1 = true →
  bulkPlan (env faults) b fresh = (Ok (plan faults b), started faults b).
Proof.
  unfold plan, started. by destruct (bulkPlan (env faults) b fresh) as [[p|e] r].
Qed.

(** C8 (precondition failure, as the code has it).  Every public operation
    called without an active profile, and [syncAll], [downloadFile] and
    [downloadFolder] called without a workspace folder when they have to
    resolve the local path against it ([syncAll] always, the downloads when
    no local path is passed), returns a result with [success = false],
    [filesProcessed = 0] and one error message, in the world it was called
    in: nothing is sent and nothing is written. *)
Theorem precondition_failure (env : Env) c w :
  ProfileManager.getActiveProfile env = None
  ∨ (needsWorkspaceFolder c = true ∧ workspaceFolder env = None) →
  ∃ message, run env c w = (SyncResult.mk false 0 [message], w).
Proof.
  intros [Hprofile|[Hneeds Hfolder]].
  - destruct c; simpl;
      unfold SyncManager.uploadFile, SyncManager.downloadFile,
        SyncManager.uploadFolder, SyncManager.downloadFolder, SyncManager.syncAll,
        SyncManager.uploadFolderPlan, SyncManager.downloadFolderPlan,
        SyncManager.syncAllPlan,
        SyncManager.requireActiveProfile, SyncManager.requireWorkspaceFolder;
      rewrite ?Hprofile; try (eexists; reflexivity).
    destruct (workspaceFolder env); eexists; reflexivity.
  - destruct c; simpl in Hneeds; try done; simpl;
      unfold SyncManager.downloadFile, SyncManager.downloadFolder,
        SyncManager.syncAll, SyncManager.downloadFolderPlan, SyncManager.syncAllPlan,
        SyncManager.requireActiveProfile, SyncManager.requireWorkspaceFolder;
      try (rewrite Hfolder; eexists; reflexivity);
      apply negb_true_iff in Hneeds;
      (destruct (ProfileManager.getActiveProfile env); [|eexists; reflexivity]);
      unfold bind at 1 2; unfold ret at 1; cbv beta iota;
      rewrite (orElse_missing _ _ Hneeds);
      unfold SyncManager.getLocalPath; rewrite Hfolder;
      eexists; reflexivity.
Qed.

(** [syncAll] with no profile configured. *)
Lemma precondition_failure_witness :
  ProfileManager.getActiveProfile (withoutProfiles (env noFault)) = None
  ∧ run (withoutProfiles (env noFault)) SyncAll world
    = (SyncResult.mk false 0 ["Error: No active server profile"], world).
Proof.
  split; [reflexivity|].
  destruct (precondition_failure (withoutProfiles (env noFault)) SyncAll world
              (or_introl eq_refl)) as [message H].
  rewrite H. f_equal. vm_compute in H. by injection H as <-.
Defined.

(** [downloadFile] does not need a workspace folder when it is passed the
    local path: with no folder open it fetches the file and reports one
    file processed. *)
Lemma downloadFile_without_workspace :
  workspaceFolder (withoutWorkspaceFolder (env noFault)) = None
  ∧ (SyncManager.downloadFile (withoutWorkspaceFolder (env noFault)) "/srv/a.txt"
       (Some "/ws/a.txt") world).1 = SyncResult.mk true 1 []
  ∧ requests (SyncManager.downloadFile (withoutWorkspaceFolder (env noFault))
                "/srv/a.txt" (Some "/ws/a.txt") world).2
    = [Connect "prod"; FastGet "/srv/a.txt" "/ws/a.txt"].
Proof. repeat split; vm_compute; reflexivity. Qed.

(** C6 (a declined overwrite is a skip).  With an active profile and
    confirmation before overwriting switched on:
    - [uploadFile], once connected, when the remote target exists and the
      answer to the dialog is not Overwrite, and
    - [downloadFile], once connected, when the local target exists and the
      answer to the dialog is not Overwrite,
    return [success = true], [filesProcessed = 0] and no error, having sent
    no transfer request and left the files, the remote side, the index and
    the pending snapshots as they were. *)
Theorem declined_overwrite_skips (env : Env) w profile :
  ProfileManager.getActiveProfile env = Some profile →
  confirmBeforeOverwrite env = true →
  (∀ localPath remotePath client w1 w2,
     SFTPManager.ensureConnected env w = (Ok client, w1) →
     SFTPClient.exists_ env client (remoteTarget env profile localPath remotePath) w1
       = (Ok true, w2) →
     dialogChoice env (dialogsShown w2) ≠ Some "Overwrite" →
     skipped w (SyncManager.uploadFile env localPath remotePath w))
  ∧ (∀ remotePath localPath target client w1,
       localTarget env profile remotePath localPath = Some target →
       SFTPManager.ensureConnected env w = (Ok client, w1) →
       Fs.existsSync (fs w) target = true →
       dialogChoice env (dialogsShown w1) ≠ Some "Overwrite" →
       skipped w (SyncManager.downloadFile env remotePath localPath w)).
Proof.
  intros Hprofile Hconfirm. split.
  - intros lp rp client w1 w2 Hconn Hexists Hchoice.
    pose proof (ensureConnected_quiet env w) as Hq1. rewrite Hconn in Hq1.
    pose proof (exists_quiet env client (remoteTarget env profile lp rp) w1) as Hq2.
    rewrite Hexists in Hq2. simpl in Hq1, Hq2.
    unfold SyncManager.uploadFile.
    erewrite operation_ok.
    2:{ unfold SyncManager.requireActiveProfile. rewrite Hprofile.
        unfold bind at 1. unfold ret at 1. cbv beta iota.
        rewrite orElse_remoteTarget.
        unfold bind at 1. unfold ret at 1. cbv beta iota.
        unfold bind at 1. rewrite (inWorld_run _ _ _ _ _ Hconn).
        rewrite Hconfirm.
        unfold bind at 1. rewrite (inWorld_run _ _ _ _ _ Hexists).
        unfold bind at 1. rewrite (declined_dialog env _ _ Hchoice).
        reflexivity. }
    split; [done|]. simpl.
    etrans; [exact Hq1|]. etrans; [exact Hq2|]. apply setDialogsShown_quiet.
  - intros rp lp target client w1 Htarget Hconn Hexists Hchoice.
    pose proof (ensureConnected_quiet env w) as Hq1. rewrite Hconn in Hq1.
    simpl in Hq1.
    unfold SyncManager.downloadFile.
    erewrite operation_ok.
    2:{ unfold SyncManager.requireActiveProfile. rewrite Hprofile.
        unfold bind at 1. unfold ret at 1. cbv beta iota.
        unfold bind at 1. rewrite (orElse_localTarget env _ _ _ _ _ Htarget).
        unfold bind at 1. rewrite (inWorld_run _ _ _ _ _ Hconn).
        rewrite Hconfirm.
        unfold bind at 1. unfold SyncManager.inWorld at 1, gets at 1.
        cbv beta iota. simpl SyncManager.world. simpl SyncManager.result.
        destruct Hq1 as (-> & _). rewrite Hexists.
        unfold bind at 1. rewrite (declined_dialog env _ _ Hchoice).
        reflexivity. }
    split; [done|]. simpl.
    etrans; [exact Hq1|]. apply setDialogsShown_quiet.
Qed.

(** An upload of [/ws/a.txt] over the remote [/srv/a.txt], declined. *)
Lemma declined_overwrite_skips_witness :
  ProfileManager.getActiveProfile (confirming (env noFault)) = Some profile
  ∧ confirmBeforeOverwrite (confirming (env noFault)) = true
  ∧ (SFTPManager.ensureConnected (confirming (env noFault)) world).1 = Ok "prod"
  ∧ (SFTPClient.exists_ (confirming (env noFault)) "prod"
       (remoteTarget (confirming (env noFault)) profile "/ws/a.txt" None)
       (SFTPManager.ensureConnected (confirming (env noFault)) world).2).1 = Ok true
  ∧ skipped world (SyncManager.uploadFile (confirming (env noFault)) "/ws/a.txt" None world).
Proof.
  assert ((SFTPManager.ensureConnected (confirming (env noFault)) world).1 = Ok "prod")
    as Hconn by (vm_compute; reflexivity).
  assert ((SFTPClient.exists_ (confirming (env noFault)) "prod"
             (remoteTarget (confirming (env noFault)) profile "/ws/a.txt" None)
             (SFTPManager.ensureConnected (confirming (env noFault)) world).2).1 = Ok true)
    as Hexists by (vm_compute; reflexivity).
  split; [reflexivity|]. split; [reflexivity|]. split; [exact Hconn|].
  split; [exact Hexists|].
  apply (proj1 (declined_overwrite_skips (confirming (env noFault)) world profile
                  eq_refl eq_refl)
           "/ws/a.txt" None "prod" _ _ (run_eq _ _ _ Hconn) (run_eq _ _ _ Hexists)).
  vm_compute. discriminate.
Defined.

(** C9 (the success flag of a batch).  When the plan of a bulk operation
    ([uploadFolder], [downloadFolder], [syncAll]) succeeds, so that the
    preconditions hold, the connection is there and the files are
    enumerated, and the operation is not cancelled, the result has
    [success = true] whatever the transfers of the files do; every file is
    counted once, as processed or by an error message; and when every
    transfer fails, no file is processed and there is one error message
    for each file. *)
Theorem batch_success_flag (env : Env) b w p r1 :
  bulkPlan env b {| SyncManager.result := SyncManager.freshResult;
                    SyncManager.world := w |} = (Ok p, r1) →
  (∀ i, (i < length (SyncManager.files p))%nat →
        cancellationRequested env (tokenReads (SyncManager.world r1) + i) = false) →
  let res := (run env (bulkCall b) w).1 in
  SyncResult.success res = true
  ∧ (SyncResult.filesProcessed res + length (SyncResult.errors res)
     = length (SyncManager.files p))%nat
  ∧ (Forall (λ o, o ≠ Ok tt)
       (transferOutcomes env (SyncManager.transfer p) (SyncManager.files p)
          (SyncManager.world r1)) →
     SyncResult.filesProcessed res = 0%nat
     ∧ length (SyncResult.errors res) = length (SyncManager.files p)).
Proof.
  intros Hplan Hrun. cbv zeta. rewrite (bulk_result env _ _ _ _ Hplan Hrun).
  rewrite tallyAll_success.
  pose proof (tallyAll_total (SyncManager.files p)
                (transferOutcomes env (SyncManager.transfer p)
                   (SyncManager.files p) (SyncManager.world r1))
                SyncManager.freshResult (transferOutcomes_length env _ _ _)) as Htotal.
  simpl in Htotal. split; [done|]. split; [done|].
  intros Hall. rewrite (tallyAll_failures _ _ _ Hall) in *. simpl in *. lia.
Qed.

(** [uploadFolder] of the workspace over a connection that is lost from
    the first transfer on: both uploads fail, and the batch succeeds. *)
Lemma batch_success_flag_witness :
  isOk (bulkPlan (env (faultFrom 1)) (BulkUploadFolder "/ws" None) fresh).1 = true
  ∧ SyncResult.success
      (run (env (faultFrom 1)) (bulkCall (BulkUploadFolder "/ws" None)) world).1 = true
  ∧ (run (env (faultFrom 1)) (bulkCall (BulkUploadFolder "/ws" None)) world).1
    = SyncResult.mk true 0
        ["/ws/a.txt: Error: Failed to upload file /ws/a.txt: Error: Connection lost";
         "/ws/b.log: Error: Failed to upload file /ws/b.log: Error: Connection lost"].
Proof.
  assert (isOk (bulkPlan (env (faultFrom 1)) (BulkUploadFolder "/ws" None) fresh).1 = true)
    as Hok by (vm_compute; reflexivity).
  split; [exact Hok|]. split; [|vm_compute; reflexivity].
  apply (batch_success_flag (env (faultFrom 1)) (BulkUploadFolder "/ws" None) world
           (plan (faultFrom 1) (BulkUploadFolder "/ws" None))
           (started (faultFrom 1) (BulkUploadFolder "/ws" None))
           (plan_eq _ _ Hok) (λ _ _, eq_refl)).
Defined.

(** C5 (a failure of one file does not stop the batch).  When the plan of
    a bulk operation succeeds with the files [before ++ file :: after], the
    operation is not cancelled, and the transfer of [file] is the only one
    that fails, the result has [success = true], counts the other files as
    processed, those after [file] included, and holds the one error
    message, which names [file]. *)
Theorem partial_failure_isolation (env : Env) b w p r1 before file after error :
  bulkPlan env b {| SyncManager.result := SyncManager.freshResult;
                    SyncManager.world := w |} = (Ok p, r1) →
  SyncManager.files p = before ++ file :: after →
  (∀ i, (i ≤ length before + length after)%nat →
        cancellationRequested env (tokenReads (SyncManager.world r1) + i) = false) →
  transferOutcomes env (SyncManager.transfer p) (SyncManager.files p)
    (SyncManager.world r1)
    = replicate (length before) (Ok tt)
        ++ Throw error :: replicate (length after) (Ok tt) →
  (run env (bulkCall b) w).1 =
    SyncResult.mk true (length before + length after)
      [file +:+ ": " +:+ JS.toString error].
Proof.
  intros Hplan Hfiles Hrun Houtcomes.
  rewrite (bulk_result env _ _ _ _ Hplan).
  - by rewrite Houtcomes, Hfiles, tallyAll_one_failure.
  - intros i Hi. apply Hrun. rewrite Hfiles, length_app in Hi. simpl in Hi. lia.
Qed.

(** [uploadFolder] of the workspace when the connection is lost for the
    first transfer only: [/ws/b.log] is still uploaded. *)
Lemma partial_failure_isolation_witness :
  isOk (bulkPlan (env (faultAt 2)) (BulkUploadFolder "/ws" None) fresh).1 = true
  ∧ SyncManager.files (plan (faultAt 2) (BulkUploadFolder "/ws" None))
    = [] ++ "/ws/a.txt" :: ["/ws/b.log"]
  ∧ transferOutcomes (env (faultAt 2))
      (SyncManager.transfer (plan (faultAt 2) (BulkUploadFolder "/ws" None)))
      (SyncManager.files (plan (faultAt 2) (BulkUploadFolder "/ws" None)))
      (SyncManager.world (started (faultAt 2) (BulkUploadFolder "/ws" None)))
    = replicate (length (@nil string)) (Ok tt)
        ++ Throw (JS.Error "Failed to upload file /ws/a.txt: Error: Connection lost")
        :: replicate (length ["/ws/b.log"]) (Ok tt)
  ∧ (run (env (faultAt 2)) (bulkCall (BulkUploadFolder "/ws" None)) world).1
    = SyncResult.mk true 1
        ["/ws/a.txt: Error: Failed to upload file /ws/a.txt: Error: Connection lost"].
Proof.
  assert (isOk (bulkPlan (env (faultAt 2)) (BulkUploadFolder "/ws" None) fresh).1 = true)
    as Hok by (vm_compute; reflexivity).
  assert (SyncManager.files (plan (faultAt 2) (BulkUploadFolder "/ws" None))
          = [] ++ "/ws/a.txt" :: ["/ws/b.log"]) as Hfiles
    by (vm_compute; reflexivity).
  assert (transferOutcomes (env (faultAt 2))
            (SyncManager.transfer (plan (faultAt 2) (BulkUploadFolder "/ws" None)))
            (SyncManager.files (plan (faultAt 2) (BulkUploadFolder "/ws" None)))
            (SyncManager.world (started (faultAt 2) (BulkUploadFolder "/ws" None)))
          = replicate (length (@nil string)) (Ok tt)
              ++ Throw (JS.Error "Failed to upload file /ws/a.txt: Error: Connection lost")
              :: replicate (length ["/ws/b.log"]) (Ok tt)) as Houtcomes
    by (vm_compute; reflexivity).
  split; [exact Hok|]. split; [exact Hfiles|]. split; [exact Houtcomes|].
  apply (partial_failure_isolation (env (faultAt 2)) (BulkUploadFolder "/ws" None) world
           (plan (faultAt 2) (BulkUploadFolder "/ws" None))
           (started (faultAt 2) (BulkUploadFolder "/ws" None))
           [] "/ws/a.txt" ["/ws/b.log"]
           (JS.Error "Failed to upload file /ws/a.txt: Error: Connection lost")
           (plan_eq _ _ Hok) Hfiles (λ _ _, eq_refl) Houtcomes).
Defined.

(** X1 (exclusion in [syncAll]).  For [syncAll], with a workspace
    folder and an active profile: a file whose path relative to the
    workspace folder matches an exclude pattern of the profile, as it is or
    as a dotfile, is not in the set of files to upload whatever the walk
    has found; no request that [syncAll] sends transfers it; and every
    entry for it that the history knows afterwards, committed or pending,
    was known before. *)
Theorem syncAll_excludes (env : Env) w folder profile file :
  workspaceFolder env = Some folder →
  ProfileManager.getActiveProfile env = Some profile →
  SyncManager.shouldExclude env (Path.relative folder file)
    (ServerProfile.exclude profile) = true →
  let w' := (SyncManager.syncAll env w).2 in
  (∀ localFiles,
     file ∉ SyncManager.filesToUpload env folder (ServerProfile.exclude profile)
              localFiles)
  ∧ (∃ sent, requests w' = requests w ++ sent
             ∧ ∀ p, (FastPut file p ∉ sent) ∧ (FastGet p file ∉ sent))
  ∧ (∀ e, HistoryEntry.localPath e = file → tracked w' e → tracked w e).
Proof.
  intros Hfolder Hprofile Hexcluded w'.
  destruct (syncAll_uploadsOnly env folder profile w Hfolder Hprofile)
    as [(sent & Hsent & Hall) Htracked].
  fold w' in Hsent, Htracked.
  split; [|split].
  - intros localFiles Hin. apply filesToUpload_allowed in Hin. congruence.
  - exists sent. split; [done|]. intros p.
    rewrite Forall_forall in Hall.
    split; intros Hin; destruct (Hall _ Hin) as [Hquiet|(l & r & Heq & Hl)].
    + done.
    + injection Heq as <- <-. congruence.
    + done.
    + done.
  - intros e He Htr. destruct (Htracked e Htr) as [?|Hl]; [done|].
    rewrite He in Hl. congruence.
Qed.

(** [syncAll] of the workspace, whose profile excludes [*.log]: no entry
    for [/ws/b.log] appears. *)
Lemma syncAll_excludes_witness :
  workspaceFolder (env noFault) = Some "/ws"
  ∧ ProfileManager.getActiveProfile (env noFault) = Some profile
  ∧ SyncManager.shouldExclude (env noFault) (Path.relative "/ws" "/ws/b.log")
      (ServerProfile.exclude profile) = true
  ∧ ∀ e, HistoryEntry.localPath e = "/ws/b.log" →
         tracked (SyncManager.syncAll (env noFault) world).2 e → tracked world e.
Proof.
  assert (SyncManager.shouldExclude (env noFault) (Path.relative "/ws" "/ws/b.log")
            (ServerProfile.exclude profile) = true) as H by (vm_compute; reflexivity).
  split; [reflexivity|]. split; [reflexivity|]. split; [exact H|].
  apply (syncAll_excludes (env noFault) world "/ws" profile "/ws/b.log" eq_refl eq_refl H).
Defined.

(** C3 (exclusion in the bulk operations).  [uploadFolder] does not
    apply the filter that [syncAll] applies: with [*.log] excluded by the
    active profile, [uploadFolder] of the workspace folder uploads
    [/ws/b.log], whose path relative to that folder matches the pattern, and
    commits a history entry for it. *)
Lemma uploadFolder_ignores_exclusions :
  SyncManager.shouldExclude (env noFault) (Path.relative "/ws" "/ws/b.log")
    (ServerProfile.exclude profile) = true
  ∧ requests (SyncManager.uploadFolder (env noFault) "/ws" None world).2
    = [Connect "prod"; Mkdir "/srv"; FastPut "/ws/a.txt" "/srv/a.txt";
       Mkdir "/srv"; FastPut "/ws/b.log" "/srv/b.log"]
  ∧ HistoryEntry.localPath <$>
      index (SyncManager.uploadFolder (env noFault) "/ws" None world).2
    = ["/ws/a.txt"; "/ws/b.log"].
Proof. repeat split; vm_compute; reflexivity. Qed.

(** [downloadFolder] does not apply the filter either: with [*.log]
    excluded it fetches [/srv/b.log], whose path relative to the folder on
    the server matches the pattern, writes it over the local file and
    commits a history entry for it. *)
Lemma downloadFolder_ignores_exclusions :
  SyncManager.shouldExclude (env noFault) (Path.relative "/srv" "/srv/b.log")
    (ServerProfile.exclude profile) = true
  ∧ requests (SyncManager.downloadFolder (env noFault) "/srv" None Cases.remoteLog).2
    = [Connect "prod"; ListDir "/srv"; FastGet "/srv/a.txt" "/ws/a.txt";
       FastGet "/srv/b.log" "/ws/b.log"]
  ∧ Fs.readFileSync
      (fs (SyncManager.downloadFolder (env noFault) "/srv" None Cases.remoteLog).2)
      "/ws/b.log" = inr (bytes "remote log")
  ∧ HistoryEntry.localPath <$>
      index (SyncManager.downloadFolder (env noFault) "/srv" None Cases.remoteLog).2
    = ["/ws/a.txt"; "/ws/b.log"].
Proof. repeat split; vm_compute; reflexivity. Qed.

(** * Further properties

    Properties of the code beyond the claims of the specification, each
    followed, where it has a hypothesis, by a run on the workspace of
    [Example]. *)

(** ** Strings and paths *)

Lemma append_nil (b : string) : "" +:+ b = b.
Proof. reflexivity. Qed.

Lemma append_cons c (a b : string) : String c a +:+ b = String c (a +:+ b).
Proof. reflexivity. Qed.

Ltac append_step := rewrite ?append_cons, ?append_nil; simpl.

Lemma append_assoc (a b c : string) : (a +:+ b) +:+ c = a +:+ (b +:+ c).
Proof. induction a; append_step; [done|by f_equal]. Qed.

Lemma append_nil_r (a : string) : a +:+ "" = a.
Proof. induction a; append_step; [done|by f_equal]. Qed.

Lemma noSep_app a b : noSep (a +:+ b) = noSep a && noSep b.
Proof. induction a; append_step; [done|]. rewrite IHa. by rewrite andb_assoc. Qed.

Lemma segmentsFrom_app acc s t :
  Path.segmentsFrom acc (s +:+ "/" +:+ t)
  = Path.segmentsFrom acc s ++ Path.segmentsFrom "" t.
Proof.
  revert acc. induction s as [|c s IH]; intros acc; append_step; [done|].
  destruct (Ascii.eqb c "/"); [by rewrite IH|apply IH].
Qed.

Lemma segmentsFrom_name acc n :
  noSep n = true → Path.segmentsFrom acc n = [acc +:+ n].
Proof.
  revert acc. induction n as [|c n IH]; intros acc; simpl.
  - by rewrite append_nil_r.
  - intros [Hc Hn]%andb_true_iff. apply negb_true_iff in Hc. rewrite Hc.
    rewrite IH by done. by rewrite append_assoc.
Qed.

Lemma segmentsFrom_noSep acc s :
  noSep acc = true → Forall (λ x, noSep x = true) (Path.segmentsFrom acc s).
Proof.
  revert acc. induction s as [|c s IH]; intros acc Hacc; simpl.
  - by constructor.
  - destruct (Ascii.eqb c "/") eqn:Hc.
    + constructor; [done|]. by apply IH.
    + apply IH. rewrite noSep_app, Hacc. simpl. by rewrite Hc.
Qed.

Lemma segments_noSep s : Forall (λ x, noSep x = true) (Path.segments s).
Proof. by apply segmentsFrom_noSep. Qed.

Lemma resolveDots_app b stack l1 l2 :
  Path.resolveDots b stack (l1 ++ l2)
  = Path.resolveDots b (rev (Path.resolveDots b stack l1)) l2.
Proof.
  revert stack. induction l1 as [|s l1 IH]; intros stack; simpl.
  - by rewrite rev_involutive.
  - destruct (_ || _); [apply IH|].
    destruct (String.eqb s ".."); [|apply IH].
    destruct stack as [|top below]; [apply IH|].
    destruct (String.eqb top ".."); apply IH.
Qed.

Lemma resolveDots_names b stack l :
  Forall isName l → Path.resolveDots b stack l = rev stack ++ l.
Proof.
  intros Hl. revert stack. induction Hl as [|s l (_ & H1 & H2 & H3) _ IH];
    intros stack; simpl.
  - by rewrite app_nil_r.
  - apply String.eqb_neq in H1, H2, H3. rewrite H1, H2, H3. simpl.
    rewrite IH. simpl. by rewrite <- app_assoc.
Qed.

Lemma resolveDots_isName stack segs :
  Forall isName stack → Forall (λ x, noSep x = true) segs →
  Forall isName (Path.resolveDots false stack segs).
Proof.
  intros Hstack Hsegs. revert stack Hstack.
  induction Hsegs as [|s segs Hs _ IH]; intros stack Hstack; simpl.
  - by apply Forall_rev.
  - destruct (String.eqb_spec s ""); simpl; [by apply IH|].
    destruct (String.eqb_spec s "."); simpl; [by apply IH|].
    destruct (String.eqb_spec s "..").
    + destruct stack as [|top below]; [by apply IH|].
      apply Forall_cons in Hstack as [Htop Hbelow].
      destruct (String.eqb_spec top "..") as [->|_]; [|by apply IH].
      by destruct Htop as (_ & _ & _ & ?).
    + apply IH. by constructor.
Qed.

Lemma components_isName p : Forall isName (Path.components p).
Proof. apply resolveDots_isName; [constructor|apply segments_noSep]. Qed.

Lemma segmentsFrom_concat acc x l :
  Forall (λ x, noSep x = true) (x :: l) →
  Path.segmentsFrom acc (String.concat "/" (x :: l)) = (acc +:+ x) :: l.
Proof.
  revert acc x. induction l as [|y l IH]; intros acc x Hall.
  - simpl. apply segmentsFrom_name. by apply Forall_cons in Hall as [? _].
  - apply Forall_cons in Hall as [Hx Hl].
    change (String.concat "/" (x :: y :: l))
      with (x +:+ "/" +:+ String.concat "/" (y :: l)).
    rewrite segmentsFrom_app, segmentsFrom_name, IH by done. reflexivity.
Qed.

Lemma isAbsolute_cons p :
  Path.isAbsolute p = true ↔ ∃ rest, p = String "/" rest.
Proof.
  unfold Path.isAbsolute, JS.startsWith. destruct p as [|c p].
  - split; [intros [=]|intros [? [=]]].
  - change (String.prefix "/" (String c p))
      with (if Ascii.ascii_dec "/" c then String.prefix "" p else false).
    destruct (Ascii.ascii_dec "/" c) as [<-|Hne].
    + split; [by eexists|]. intros _. by destruct p.
    + split; [intros [=]|intros [? [= -> _]]; done].
Qed.

Lemma resolveDots_wrapped l :
  Forall isName l →
  Path.resolveDots false [] ("" :: l) = l
  ∧ Path.resolveDots false [] ("" :: l ++ [""]) = l.
Proof.
  intros Hl.
  change (Path.resolveDots false [] ("" :: l)) with (Path.resolveDots false [] l).
  change (Path.resolveDots false [] ("" :: l ++ [""]))
    with (Path.resolveDots false [] (l ++ [""])).
  rewrite resolveDots_app, !resolveDots_names by done. simpl.
  by rewrite rev_involutive.
Qed.

(** The components of an absolute path are those of its normal form. *)
Lemma components_normalize p :
  Path.isAbsolute p = true → Path.components (Path.normalize p) = Path.components p.
Proof.
  intros Habs. unfold Path.normalize. rewrite Habs. simpl negb.
  pose proof (components_isName p) as Hnames. unfold Path.components in *.
  set (L := Path.resolveDots false [] (Path.segments p)) in *.
  destruct (String.eqb_spec p "") as [->|_]; [done|].
  assert (Forall (λ x, noSep x = true) L) as Hsep.
  { eapply Forall_impl; [exact Hnames|]. by intros ? [? _]. }
  destruct (resolveDots_wrapped L Hnames) as [Hplain Hslash].
  destruct L as [|x l] eqn:HL; [reflexivity|].
  assert (String.concat "/" (x :: l) ≠ "") as Hne.
  { apply Forall_cons in Hnames as [(_ & Hx & _) _].
    destruct x; [done|]. destruct l; discriminate. }
  apply String.eqb_neq in Hne. rewrite Hne.
  assert (∀ t, Path.segments ("/" +:+ String.concat "/" (x :: l) +:+ t)
               = "" :: Path.segmentsFrom "" (String.concat "/" (x :: l) +:+ t)) as Hseg.
  { intros t. reflexivity. }
  rewrite Hseg. destruct (Path.endsWithSep p).
  - change (String.concat "/" (x :: l) +:+ "/")
      with (String.concat "/" (x :: l) +:+ "/" +:+ "").
    rewrite segmentsFrom_app, segmentsFrom_concat by done. exact Hslash.
  - rewrite append_nil_r, segmentsFrom_concat by done. exact Hplain.
Qed.

Lemma normalize_isAbsolute p :
  Path.isAbsolute p = true → Path.isAbsolute (Path.normalize p) = true.
Proof.
  intros Habs. unfold Path.normalize. rewrite Habs.
  destruct (String.eqb_spec p "") as [->|_]; [done|].
  destruct (String.eqb _ ""); [reflexivity|].
  apply isAbsolute_cons. by eexists.
Qed.

Lemma isAbsolute_app a b :
  Path.isAbsolute a = true → Path.isAbsolute (a +:+ b) = true.
Proof.
  intros [rest ->]%isAbsolute_cons. apply isAbsolute_cons. by eexists.
Qed.

(** [join] on an absolute path goes on from its components. *)
Lemma components_join a b :
  Path.isAbsolute a = true →
  Path.components (Path.join a b)
  = Path.resolveDots false (rev (Path.components a)) (Path.segments b).
Proof.
  intros Habs. unfold Path.join.
  destruct (String.eqb_spec a "") as [->|_]; [done|].
  destruct (String.eqb_spec b "") as [->|_].
  - rewrite components_normalize by done. simpl. by rewrite rev_involutive.
  - rewrite components_normalize by (by apply isAbsolute_app).
    unfold Path.components, Path.segments.
    by rewrite segmentsFrom_app, resolveDots_app.
Qed.

Lemma join_isAbsolute a b :
  Path.isAbsolute a = true → Path.isAbsolute (Path.join a b) = true.
Proof.
  intros Habs. unfold Path.join.
  destruct (String.eqb_spec a "") as [->|_]; [done|].
  destruct (String.eqb_spec b "") as [->|_]; apply normalize_isAbsolute;
    [done|by apply isAbsolute_app].
Qed.

Lemma components_join_name a n :
  Path.isAbsolute a = true → isName n →
  Path.components (Path.join a n) = Path.components a ++ [n].
Proof.
  intros Habs Hn. rewrite components_join by done.
  unfold Path.segments. rewrite segmentsFrom_name, append_nil by apply Hn.
  rewrite (resolveDots_names false _ [n]) by (by constructor).
  by rewrite rev_involutive.
Qed.

Lemma segments_concat l :
  Forall (λ x, noSep x = true) l → l ≠ [] →
  Path.segments (String.concat "/" l) = l.
Proof.
  intros Hl Hne. destruct l as [|x l]; [done|].
  unfold Path.segments. by rewrite segmentsFrom_concat.
Qed.

Lemma components_join_names a l :
  Path.isAbsolute a = true → Forall isName l →
  Path.components (Path.join a (String.concat "/" l)) = Path.components a ++ l.
Proof.
  intros Habs Hl. rewrite components_join by done.
  destruct l as [|x l].
  - simpl. by rewrite rev_involutive, app_nil_r.
  - rewrite segments_concat; [|eapply Forall_impl; [done|by intros ? [? _]]|done].
    by rewrite resolveDots_names, rev_involutive.
Qed.

Lemma stripCommon_app a r : Path.stripCommon a (a ++ r) = ([], r).
Proof.
  induction a as [|x a IH]; simpl; [by destruct r|].
  by rewrite String.eqb_refl.
Qed.

(** Below [from], [relative] gives the names that lead down. *)
Lemma relative_below from to rest :
  Path.components to = Path.components from ++ rest →
  Path.relative from to = String.concat "/" rest.
Proof.
  intros H. unfold Path.relative. by rewrite H, stripCommon_app.
Qed.

(** ** The check for binary content *)

Section BinaryCheck.

Lemma isControlByte_spec b :
  FileComparator.isControlByte b = true ↔ (Byte.to_N b < 8)%N.
Proof.
  unfold FileComparator.isControlByte. cbv zeta.
  destruct (N.eqb_spec (Byte.to_N b) 0), (N.ltb_spec (Byte.to_N b) 8),
    (N.eqb_spec (Byte.to_N b) 9), (N.eqb_spec (Byte.to_N b) 10),
    (N.eqb_spec (Byte.to_N b) 13); simpl; split; intros; try done; lia.
Qed.

Lemma scan_spec l :
  FileComparator.scan l = true ↔ ∃ i b, l !! i = Some b ∧ (Byte.to_N b < 8)%N.
Proof.
  induction l as [|b l IH]; simpl.
  - split; [done|]. by intros (i & b & ? & _).
  - destruct (FileComparator.isControlByte b) eqn:Hb.
    + split; [|done]. intros _. exists 0%nat, b. split; [done|].
      by apply isControlByte_spec.
    + rewrite IH. split.
      * intros (i & b' & Hi & Hlt). by exists (S i), b'.
      * intros ([|i] & b' & Hi & Hlt).
        -- injection Hi as ->. apply isControlByte_spec in Hlt. congruence.
        -- by exists i, b'.
Qed.

(** X2 (binary content).  [isBinaryFile] answers true exactly when one of the
    first 8000 bytes of the content is below 8.  The exceptions its test
    makes for the bytes 9, 10 and 13 never apply, and no byte from 8 to 31
    makes a content binary. *)
Theorem isBinaryFile_spec content :
  FileComparator.isBinaryFile content = true ↔
  ∃ i b, Z.of_nat i < 8000 ∧ content !! i = Some b ∧ (Byte.to_N b < 8)%N.
Proof.
  unfold FileComparator.isBinaryFile. rewrite scan_spec. split.
  - intros (i & b & Hi & Hlt). apply lookup_take_Some in Hi as [Hi Hlen].
    exists i, b. split; [lia|done].
  - intros (i & b & Hlen & Hi & Hlt). exists i, b. split; [|done].
    apply lookup_take_Some. split; [done|lia].
Qed.

End BinaryCheck.

(** ** The paths of PathUtils *)

Section RemotePaths.

Lemma noBackslash_get s :
  noBackslash s = true ↔ ∀ i, String.get i s ≠ Some PathUtils.backslash.
Proof.
  induction s as [|c s IH]; simpl.
  - split; [by intros _ []|done].
  - rewrite andb_true_iff, negb_true_iff, IH. split.
    + intros [Hc Hs] [|i]; simpl; [|apply Hs].
      intros [= ->]. by rewrite Ascii.eqb_refl in Hc.
    + intros H. split; [|intros i; apply (H (S i))].
      destruct (Ascii.eqb_spec c PathUtils.backslash) as [->|]; [|done].
      by destruct (H 0%nat).
Qed.

Lemma startsWithSlash_get s :
  PathUtils.startsWithSlash s = true ↔ String.get 0 s = Some "/"%char.
Proof.
  destruct s as [|c s]; [split; intros [=]|simpl].
  destruct (Ascii.eqb_spec c "/") as [->|]; [done|]. split; [intros [=]|].
  by intros [= ->].
Qed.

Lemma noSlashRun_get s :
  noSlashRun s = true ↔
  ∀ i, String.get i s = Some "/"%char → String.get (S i) s ≠ Some "/"%char.
Proof.
  induction s as [|c s IH].
  - split; [by intros _ []|done].
  - change (noSlashRun (String c s))
      with (negb (Ascii.eqb c "/" && PathUtils.startsWithSlash s) && noSlashRun s).
    rewrite andb_true_iff, negb_true_iff, IH. split.
    + intros [Hc Hs] [|i]; [|apply Hs].
      intros [= ->]. simpl in Hc. intros H%startsWithSlash_get. congruence.
    + intros H. split; [|intros i; apply (H (S i))].
      destruct (Ascii.eqb_spec c "/") as [->|]; [|done]. simpl.
      apply not_true_iff_false. intros Hs%startsWithSlash_get.
      by apply (H 0%nat).
Qed.

Lemma noBackslash_slashes s : noBackslash (PathUtils.slashes s) = true.
Proof.
  induction s as [|c s IH]; [done|].
  change (noBackslash (PathUtils.slashes (String c s)))
    with (negb (Ascii.eqb (if Ascii.eqb c PathUtils.backslash then "/"%char else c)
                  PathUtils.backslash)
          && noBackslash (PathUtils.slashes s)).
  rewrite IH, andb_true_r.
  destruct (Ascii.eqb c PathUtils.backslash) eqn:Hc; [reflexivity|by rewrite Hc].
Qed.

Lemma slashes_fixed s : noBackslash s = true → PathUtils.slashes s = s.
Proof.
  induction s as [|c s IH]; [done|].
  change (noBackslash (String c s))
    with (negb (Ascii.eqb c PathUtils.backslash) && noBackslash s).
  intros [Hc Hs]%andb_true_iff. apply negb_true_iff in Hc.
  change (PathUtils.slashes (String c s))
    with (String (if Ascii.eqb c PathUtils.backslash then "/"%char else c)
            (PathUtils.slashes s)).
  by rewrite Hc, IH.
Qed.

Lemma noBackslash_squeeze s :
  noBackslash s = true → noBackslash (PathUtils.squeeze s) = true.
Proof.
  induction s as [|c s IH]; [done|].
  change (noBackslash (String c s))
    with (negb (Ascii.eqb c PathUtils.backslash) && noBackslash s).
  intros [Hc Hs]%andb_true_iff.
  change (PathUtils.squeeze (String c s))
    with (if Ascii.eqb c "/" && PathUtils.startsWithSlash s
          then PathUtils.squeeze s else String c (PathUtils.squeeze s)).
  destruct (_ && _); [by apply IH|].
  change (noBackslash (String c (PathUtils.squeeze s)))
    with (negb (Ascii.eqb c PathUtils.backslash) && noBackslash (PathUtils.squeeze s)).
  by rewrite Hc, IH.
Qed.

Lemma startsWithSlash_squeeze s :
  PathUtils.startsWithSlash (PathUtils.squeeze s) = PathUtils.startsWithSlash s.
Proof.
  induction s as [|c s IH]; [done|].
  change (PathUtils.squeeze (String c s))
    with (if Ascii.eqb c "/" && PathUtils.startsWithSlash s
          then PathUtils.squeeze s else String c (PathUtils.squeeze s)).
  destruct (Ascii.eqb c "/") eqn:Hc; simpl; [|by rewrite Hc].
  destruct (PathUtils.startsWithSlash s) eqn:Hs; simpl; [|by rewrite Hc].
  by rewrite IH, Hc.
Qed.

Lemma noSlashRun_squeeze s : noSlashRun (PathUtils.squeeze s) = true.
Proof.
  induction s as [|c s IH]; [done|].
  change (PathUtils.squeeze (String c s))
    with (if Ascii.eqb c "/" && PathUtils.startsWithSlash s
          then PathUtils.squeeze s else String c (PathUtils.squeeze s)).
  destruct (Ascii.eqb c "/" && PathUtils.startsWithSlash s) eqn:Hrun; [done|].
  change (noSlashRun (String c (PathUtils.squeeze s)))
    with (negb (Ascii.eqb c "/" && PathUtils.startsWithSlash (PathUtils.squeeze s))
          && noSlashRun (PathUtils.squeeze s)).
  by rewrite startsWithSlash_squeeze, Hrun, IH.
Qed.

Lemma squeeze_fixed s : noSlashRun s = true → PathUtils.squeeze s = s.
Proof.
  induction s as [|c s IH]; [done|].
  change (noSlashRun (String c s))
    with (negb (Ascii.eqb c "/" && PathUtils.startsWithSlash s) && noSlashRun s).
  intros [Hc Hs]%andb_true_iff. apply negb_true_iff in Hc.
  change (PathUtils.squeeze (String c s))
    with (if Ascii.eqb c "/" && PathUtils.startsWithSlash s
          then PathUtils.squeeze s else String c (PathUtils.squeeze s)).
  by rewrite Hc, IH.
Qed.

(** X3 (normal remote paths).  The path [normalizeRemotePath] returns holds no
    backslash and no slash that another slash follows, and normalising it
    again gives it back. *)
Theorem normalizeRemotePath_normal remotePath :
  let normal := PathUtils.normalizeRemotePath remotePath in
  (∀ i, String.get i normal ≠ Some PathUtils.backslash)
  ∧ (∀ i, String.get i normal = Some "/"%char →
          String.get (S i) normal ≠ Some "/"%char)
  ∧ PathUtils.normalizeRemotePath normal = normal.
Proof.
  cbv zeta. unfold PathUtils.normalizeRemotePath.
  pose proof (noBackslash_squeeze _ (noBackslash_slashes remotePath)) as Hb.
  pose proof (noSlashRun_squeeze (PathUtils.slashes remotePath)) as Hr.
  split; [by apply noBackslash_get|]. split; [by apply noSlashRun_get|].
  by rewrite slashes_fixed, squeeze_fixed.
Qed.

End RemotePaths.

Section Children.

Lemma prefix_dotdot s :
  String.prefix ".." s =
    match s with
    | String a (String b _) => Ascii.eqb a "." && Ascii.eqb b "."
    | _ => false
    end.
Proof.
  destruct s as [|a [|b s]]; [done| |].
  - change (String.prefix ".." (String a ""))
      with (if Ascii.ascii_dec "." a then String.prefix "." "" else false).
    by destruct (Ascii.ascii_dec "." a).
  - change (String.prefix ".." (String a (String b s)))
      with (if Ascii.ascii_dec "." a
            then if Ascii.ascii_dec "." b then String.prefix "" s else false
            else false).
    destruct (Ascii.ascii_dec "." a) as [<-|Ha], (Ascii.ascii_dec "." b) as [<-|Hb];
      simpl.
    + by destruct s.
    + symmetry. apply Ascii.eqb_neq. congruence.
    + symmetry. apply andb_false_iff. left. apply Ascii.eqb_neq. congruence.
    + symmetry. apply andb_false_iff. left. apply Ascii.eqb_neq. congruence.
Qed.

Lemma concat_cons d r :
  String.concat "/" (d :: r) =
    match r with [] => d | _ => d +:+ "/" +:+ String.concat "/" r end.
Proof. by destruct r. Qed.

Lemma startsWith_dotdot_concat d r :
  isName d →
  JS.startsWith (String.concat "/" (d :: r)) ".." = JS.startsWith d "..".
Proof.
  intros (Hsep & Hne & Hdot & _). unfold JS.startsWith.
  rewrite concat_cons. destruct r as [|x r]; [done|].
  rewrite !prefix_dotdot. destruct d as [|a [|b d]]; [done| |done].
  rewrite append_cons, append_nil.
  change ("/" +:+ String.concat "/" (x :: r))
    with (String "/" (String.concat "/" (x :: r))).
  destruct (Ascii.eqb_spec a ".") as [->|]; [done|done].
Qed.

Lemma concat_names_relative l :
  Forall isName l → Path.isAbsolute (String.concat "/" l) = false.
Proof.
  intros Hl. destruct l as [|d r]; [done|].
  apply Forall_cons in Hl as [(Hsep & Hne & _) _].
  apply not_true_iff_false. intros [rest Heq]%isAbsolute_cons.
  rewrite concat_cons in Heq. destruct d as [|c d]; [done|].
  assert (c = "/"%char) as ->.
  { destruct r; [by injection Heq|]. rewrite append_cons in Heq. by injection Heq. }
  done.
Qed.

Lemma stripCommon_spec a b up down :
  Path.stripCommon a b = (up, down) →
  ∃ common, a = common ++ up ∧ b = common ++ down.
Proof.
  revert b. induction a as [|x a IH]; intros b; simpl.
  - intros [= <- <-]. by exists [].
  - destruct b as [|y b]; [intros [= <- <-]; by exists []|].
    destruct (String.eqb_spec x y) as [->|_].
    + intros (common & -> & ->)%IH. by exists (y :: common).
    + intros [= <- <-]. by exists [].
Qed.

Lemma startsWith_dotdot_up up down :
  up ≠ [] →
  JS.startsWith (String.concat "/" (map (λ _ : string, "..") up ++ down)) ".." = true.
Proof.
  intros Hup. destruct up as [|u up]; [done|]. simpl map. simpl app.
  unfold JS.startsWith. rewrite concat_cons, prefix_dotdot.
  by destruct (map _ up ++ down).
Qed.

(** X4 (children of a directory).  [isChildOf] answers true exactly when the
    components of the child path are those of the parent path followed by
    further names, the first of which, if there is one, does not start with
    two dots.  So a path is a child of itself, and an entry of the parent
    whose own name starts with two dots is not taken for a child. *)
Theorem isChildOf_spec childPath parentPath :
  PathUtils.isChildOf childPath parentPath = true ↔
  ∃ rest,
    Path.components childPath = Path.components parentPath ++ rest
    ∧ ∀ name, head rest = Some name → JS.startsWith name ".." = false.
Proof.
  unfold PathUtils.isChildOf, Path.relative. cbv zeta.
  pose proof (components_isName childPath) as Hnames.
  split.
  - destruct (Path.stripCommon _ _) as [up down] eqn:Hstrip.
    apply stripCommon_spec in Hstrip as (common & Hparent & Hchild).
    intros [Hdots _]%andb_true_iff. apply negb_true_iff in Hdots.
    destruct (decide (up = [])) as [->|Hup];
      [|by rewrite startsWith_dotdot_up in Hdots].
    rewrite app_nil_r in Hparent. subst common. exists down. split; [done|].
    intros name Hname. destruct down as [|d down]; [done|].
    injection Hname as ->. cbn [map app] in Hdots.
    rewrite Hchild in Hnames. apply Forall_app in Hnames as [_ Hnames].
    apply Forall_cons in Hnames as [Hname _].
    by rewrite startsWith_dotdot_concat in Hdots.
  - intros (rest & Hchild & Hhead). rewrite Hchild, stripCommon_app.
    cbn [map app].
    rewrite Hchild in Hnames. apply Forall_app in Hnames as [_ Hnames].
    rewrite (concat_names_relative _ Hnames), andb_true_r.
    apply negb_true_iff. destruct rest as [|d rest]; [done|].
    apply Forall_cons in Hnames as [Hname _].
    rewrite startsWith_dotdot_concat by done. by apply Hhead.
Qed.

End Children.

Section RoundTrip.

Lemma below_names from to rest :
  Path.components to = Path.components from ++ rest → Forall isName rest.
Proof.
  intros H. pose proof (components_isName to) as Hnames.
  rewrite H in Hnames. by apply Forall_app in Hnames as [_ ?].
Qed.

(** Mapping a path below [from] to the same place below [onto]. *)
Lemma rebase from onto path rest :
  Path.isAbsolute onto = true →
  Path.components path = Path.components from ++ rest →
  Path.components (Path.join onto (Path.relative from path))
  = Path.components onto ++ rest.
Proof.
  intros Habs Hbelow. rewrite (relative_below _ _ _ Hbelow).
  apply components_join_names; [done|by eapply below_names].
Qed.

(** X5 (round trip of the paths).  For absolute bases and a local path below
    the local base, [getRemotePath] gives the path of the same names below
    the remote base, and [getLocalPath] takes that path back to the local
    one: the two paths have the same components. *)
Theorem remote_path_round_trip localPath localBase remoteBase rest :
  Path.isAbsolute localBase = true →
  Path.isAbsolute remoteBase = true →
  Path.components localPath = Path.components localBase ++ rest →
  Path.components (PathUtils.getRemotePath localPath localBase remoteBase)
  = Path.components remoteBase ++ rest
  ∧ Path.components
      (PathUtils.getLocalPath
         (PathUtils.getRemotePath localPath localBase remoteBase)
         remoteBase localBase)
    = Path.components localPath.
Proof.
  intros Hlocal Hremote Hbelow.
  unfold PathUtils.getLocalPath, PathUtils.getRemotePath. cbv zeta.
  pose proof (rebase localBase remoteBase localPath rest Hremote Hbelow) as Hup.
  split; [done|]. rewrite Hbelow. by apply (rebase remoteBase localBase).
Qed.

(** X6 (round trip of the default targets).  With an absolute workspace folder
    and an absolute remote base, the remote path the SyncManager derives for
    a local path below the folder lies below the remote base under the same
    names, and the local path it derives for that remote path is found
    without an error and has the components of the local path it came from. *)
Theorem default_targets_round_trip (env : Env) folder localPath remoteBase rest r :
  workspaceFolder env = Some folder →
  Path.isAbsolute folder = true →
  Path.isAbsolute remoteBase = true →
  Path.components localPath = Path.components folder ++ rest →
  Path.components (SyncManager.getRemotePath env localPath remoteBase)
  = Path.components remoteBase ++ rest
  ∧ ∃ target,
      SyncManager.getLocalPath env
        (SyncManager.getRemotePath env localPath remoteBase) remoteBase r
      = (Ok target, r)
      ∧ Path.components target = Path.components localPath.
Proof.
  intros Hfolder Hlocal Hremote Hbelow.
  unfold SyncManager.getLocalPath, SyncManager.getRemotePath. rewrite Hfolder.
  pose proof (rebase folder remoteBase localPath rest Hremote Hbelow) as Hup.
  split; [done|]. eexists. split; [reflexivity|].
  rewrite Hbelow. by apply (rebase remoteBase folder).
Qed.

(** X7 (absolute paths).  With an absolute base path, [ensureAbsolutePath]
    returns an absolute path whatever the input path is. *)
Theorem ensureAbsolutePath_absolute inputPath basePath :
  Path.isAbsolute basePath = true →
  Path.isAbsolute (PathUtils.ensureAbsolutePath inputPath (Some basePath)) = true.
Proof.
  intros Hbase. unfold PathUtils.ensureAbsolutePath.
  destruct (Path.isAbsolute inputPath) eqn:Hinput; [done|].
  assert (given (Some basePath) = true) as ->.
  { apply isAbsolute_cons in Hbase as [rest ->]. reflexivity. }
  by apply join_isAbsolute.
Qed.

End RoundTrip.

(** [/ws/sub/a.txt] goes to [/srv/sub/a.txt] and comes back. *)
Lemma remote_path_round_trip_witness :
  Path.components (PathUtils.getRemotePath "/ws/sub/a.txt" "/ws" "/srv")
  = Path.components "/srv" ++ ["sub"; "a.txt"]
  ∧ Path.components
      (PathUtils.getLocalPath (PathUtils.getRemotePath "/ws/sub/a.txt" "/ws" "/srv")
         "/srv" "/ws")
    = Path.components "/ws/sub/a.txt".
Proof.
  apply (remote_path_round_trip "/ws/sub/a.txt" "/ws" "/srv" ["sub"; "a.txt"]);
    vm_compute; reflexivity.
Defined.

(** The same round trip through the SyncManager of the examples. *)
Lemma default_targets_round_trip_witness :
  Path.components (SyncManager.getRemotePath (env noFault) "/ws/sub/a.txt" "/srv")
  = Path.components "/srv" ++ ["sub"; "a.txt"]
  ∧ ∃ target,
      SyncManager.getLocalPath (env noFault)
        (SyncManager.getRemotePath (env noFault) "/ws/sub/a.txt" "/srv") "/srv" fresh
      = (Ok target, fresh)
      ∧ Path.components target = Path.components "/ws/sub/a.txt".
Proof.
  apply (default_targets_round_trip (env noFault) "/ws" "/ws/sub/a.txt" "/srv"
           ["sub"; "a.txt"] fresh); vm_compute; reflexivity.
Defined.

(** A relative path is resolved against the folder [/ws]. *)
Lemma ensureAbsolutePath_absolute_witness :
  Path.isAbsolute "/ws" = true
  ∧ Path.isAbsolute (PathUtils.ensureAbsolutePath "sub/a.txt" (Some "/ws")) = true.
Proof.
  split; [vm_compute; reflexivity|].
  apply (ensureAbsolutePath_absolute "sub/a.txt" "/ws"). vm_compute; reflexivity.
Defined.

(** ** The listing of the history *)

Section NewestFirst.

Lemma insertNewestFirst_elem x y l :
  y ∈ HistoryStorage.insertNewestFirst x l ↔ y = x ∨ y ∈ l.
Proof. by rewrite insertNewestFirst_perm, elem_of_cons. Qed.

Lemma insertNewestFirst_sorted x l :
  StronglySorted notOlder l →
  StronglySorted notOlder (HistoryStorage.insertNewestFirst x l).
Proof.
  induction 1 as [|y l Hl IH Hy]; simpl.
  - repeat constructor.
  - destruct (Z.leb_spec (HistoryEntry.timestamp y) (HistoryEntry.timestamp x)).
    + constructor; [by constructor|]. constructor; [done|].
      eapply Forall_impl; [exact Hy|]. unfold notOlder. intros ??. lia.
    + constructor; [done|]. apply Forall_forall.
      intros z [->|Hz]%insertNewestFirst_elem.
      * unfold notOlder. lia.
      * by eapply Forall_forall in Hy.
Qed.

Lemma sortNewestFirst_sorted l :
  StronglySorted notOlder (HistoryStorage.sortNewestFirst l).
Proof.
  unfold HistoryStorage.sortNewestFirst.
  induction l as [|x l IH]; simpl; [constructor|].
  by apply insertNewestFirst_sorted.
Qed.

(** Entries of one age keep the order they have in the index. *)
Lemma insertNewestFirst_stable t x l :
  StronglySorted notOlder l →
  filter (λ e, HistoryEntry.timestamp e = t) (HistoryStorage.insertNewestFirst x l)
  = filter (λ e, HistoryEntry.timestamp e = t) (x :: l).
Proof.
  induction 1 as [|y l Hl IH Hy]; simpl; [done|].
  destruct (Z.leb_spec (HistoryEntry.timestamp y) (HistoryEntry.timestamp x));
    [done|].
  rewrite (filter_cons _ y), IH, !(filter_cons _ x), !(filter_cons _ y).
  destruct (decide (HistoryEntry.timestamp x = t)),
    (decide (HistoryEntry.timestamp y = t)); try done. lia.
Qed.

Lemma sortNewestFirst_stable t l :
  filter (λ e, HistoryEntry.timestamp e = t) (HistoryStorage.sortNewestFirst l)
  = filter (λ e, HistoryEntry.timestamp e = t) l.
Proof.
  unfold HistoryStorage.sortNewestFirst.
  induction l as [|x l IH]; simpl; [done|].
  rewrite insertNewestFirst_stable by apply sortNewestFirst_sorted.
  by rewrite !filter_cons, IH.
Qed.

(** X8 (the history is listed newest first).  [getHistoryForFile] returns the
    entries of the index for the file, and [getAllHistory] all the entries of
    the index, each of them once, sorted by time stamp with the newest
    first, entries of one time stamp in the order of the index; neither
    changes the state nor throws. *)
Theorem history_newest_first localPath w :
  (∃ history,
     HistoryManager.getHistoryForFile localPath w = (Ok history, w)
     ∧ newestFirst (entriesFor localPath (index w)) history)
  ∧ (∃ history,
       HistoryManager.getAllHistory w = (Ok history, w)
       ∧ newestFirst (index w) history).
Proof.
  split; (eexists; split; [reflexivity|]); unfold newestFirst, entriesFor;
    (split; [apply sortNewestFirst_perm|]);
    (split; [apply sortNewestFirst_sorted|]); intros t; apply sortNewestFirst_stable.
Qed.

End NewestFirst.

(** ** The names of the version directories *)

Section Strings.

Lemma length_append (a b : string) :
  String.length (a +:+ b) = (String.length a + String.length b)%nat.
Proof. induction a; append_step; [done|by f_equal]. Qed.

Lemma replaceColonDot_app a b :
  JS.replaceColonDot (a +:+ b) = JS.replaceColonDot a +:+ JS.replaceColonDot b.
Proof. induction a; append_step; [done|]. by rewrite IHa. Qed.

Lemma length_replaceColonDot s :
  String.length (JS.replaceColonDot s) = String.length s.
Proof. induction s; simpl; [done|by f_equal]. Qed.

Lemma substring_all s : String.substring 0 (String.length s) s = s.
Proof. induction s; simpl; [done|by f_equal]. Qed.

Lemma substring_app a b n :
  String.substring 0 (String.length a + n) (a +:+ b)
  = a +:+ String.substring 0 n b.
Proof. induction a; append_step; [done|by f_equal]. Qed.

Lemma dropLast_app n a b :
  (n ≤ String.length b)%nat → JS.dropLast n (a +:+ b) = a +:+ JS.dropLast n b.
Proof.
  intros Hn. unfold JS.dropLast. rewrite length_append.
  replace (String.length a + String.length b - n)%nat
    with (String.length a + (String.length b - n))%nat by lia.
  apply substring_app.
Qed.

Lemma dropLast_all s : JS.dropLast (String.length s) s = "".
Proof. unfold JS.dropLast. rewrite Nat.sub_diag. by destruct s. Qed.

Lemma length_zeros n : String.length (JS.zeros n) = n.
Proof.
  induction n; [done|].
  change (JS.zeros (S n)) with ("0" +:+ JS.zeros n).
  rewrite length_append, IHn. reflexivity.
Qed.

Lemma pretty_short k : (k < 1000)%nat → (String.length (pretty k) ≤ 3)%nat.
Proof.
  intros Hk.
  assert (forallb (λ k, String.length (pretty k) <=? 3)%nat (seq 0 1000) = true)
    as Hall by (vm_compute; reflexivity).
  rewrite forallb_forall in Hall. apply Nat.leb_le, Hall, in_seq. lia.
Qed.

Lemma length_pad_millis n : 0 ≤ n < 1000 → String.length (JS.pad 3 n) = 3%nat.
Proof.
  intros Hn. unfold JS.pad. cbv zeta. rewrite length_append, length_zeros.
  pose proof (pretty_short (Z.to_nat n)). lia.
Qed.

End Strings.

Section Seconds.

Lemma toISOString_seconds t :
  JS.toISOString t
  = isoSeconds (t / 1000) +:+ "." +:+ JS.pad 3 (t mod 1000) +:+ "Z".
Proof.
  unfold JS.toISOString, isoSeconds. cbv zeta.
  replace (t / 86400000) with (t / 1000 / 86400)
    by (Z.div_mod_to_equations; lia).
  replace (t mod 86400000 / 3600000) with ((t / 1000) mod 86400 / 3600)
    by (Z.div_mod_to_equations; lia).
  replace (t mod 86400000 / 60000 mod 60) with ((t / 1000) mod 86400 / 60 mod 60)
    by (Z.div_mod_to_equations; lia).
  replace (t mod 86400000 / 1000 mod 60) with (((t / 1000) mod 86400) mod 60)
    by (Z.div_mod_to_equations; lia).
  replace ((t mod 86400000) mod 1000) with (t mod 1000)
    by (Z.div_mod_to_equations; lia).
  by rewrite !append_assoc.
Qed.

(** The name of a snapshot directory shows the second, not the
    millisecond. *)
Lemma versionDir_seconds (env : Env) entry :
  HistoryStorage.getVersionDir env entry
  = Path.join (historyDir env)
      (JS.replaceColonDot (isoSeconds (HistoryEntry.timestamp entry / 1000))
         +:+ "_" +:+ HistoryEntry.profileName entry).
Proof.
  unfold HistoryStorage.getVersionDir. cbv zeta. f_equal. f_equal.
  rewrite toISOString_seconds, replaceColonDot_app.
  set (tail := JS.replaceColonDot ("." +:+ JS.pad 3 _ +:+ "Z")).
  assert (String.length tail = 5%nat) as Hlen.
  { unfold tail. rewrite length_replaceColonDot, append_cons, append_nil.
    simpl. rewrite length_append, length_pad_millis; [done|].
    apply Z.mod_pos_bound. lia. }
  rewrite dropLast_app by lia. by rewrite <- Hlen, dropLast_all, append_nil_r.
Qed.

End Seconds.

(** ** Snapshots on the file tree *)

Section FileFrames.

(** Creating directories leaves every regular file as it is. *)
Lemma mkdirp_walk_file p n n' q data :
  Fs.mkdirp p n = inr n' →
  Fs.walk q n = Fs.Found (Fs.File data) → Fs.walk q n' = Fs.Found (Fs.File data).
Proof.
  revert n n' q. induction p as [|c p IH]; intros n n' q; simpl.
  - destruct n; [done|]. by intros [= <-].
  - destruct n as [|es]; [done|].
    destruct (Fs.child c es) as [m|] eqn:Hc.
    + destruct (Fs.mkdirp p m) as [|m'] eqn:Hm; [done|]. intros [= <-].
      destruct q as [|c' q]; simpl; [done|].
      destruct (decide (c' = c)) as [->|Hne].
      * rewrite Hc, (child_setChild_eq _ _ _ _ Hc). by apply IH.
      * by rewrite child_setChild_ne.
    + destruct (Fs.mkdirp p (Fs.Dir [])) as [|m'] eqn:Hm; [done|]. intros [= <-].
      destruct q as [|c' q]; simpl; [done|].
      destruct (decide (c' = c)) as [->|Hne].
      * by rewrite Hc.
      * by rewrite child_app_new_ne.
Qed.

(** Creating directories creates no regular file. *)
Lemma mkdirp_walk_file_back p n n' q data :
  Fs.mkdirp p n = inr n' →
  Fs.walk q n' = Fs.Found (Fs.File data) → Fs.walk q n = Fs.Found (Fs.File data).
Proof.
  revert n n' q. induction p as [|c p IH]; intros n n' q; simpl.
  - destruct n; [done|]. by intros [= <-].
  - destruct n as [|es]; [done|].
    destruct (Fs.child c es) as [m|] eqn:Hc.
    + destruct (Fs.mkdirp p m) as [|m'] eqn:Hm; [done|]. intros [= <-].
      destruct q as [|c' q]; simpl; [done|].
      destruct (decide (c' = c)) as [->|Hne].
      * rewrite Hc, (child_setChild_eq _ _ _ _ Hc). by apply IH.
      * by rewrite child_setChild_ne.
    + destruct (Fs.mkdirp p (Fs.Dir [])) as [|m'] eqn:Hm; [done|]. intros [= <-].
      destruct q as [|c' q]; simpl; [done|].
      destruct (decide (c' = c)) as [->|Hne].
      * rewrite child_app_new_eq by done. intros Hwalk.
        apply (IH _ _ _ Hm) in Hwalk. by destruct q.
      * by rewrite child_app_new_ne.
Qed.

Lemma mkdirSync_readFileSync_back root root' dir path data :
  Fs.mkdirSync root dir = inr root' →
  Fs.readFileSync root' path = inr data → Fs.readFileSync root path = inr data.
Proof.
  unfold Fs.mkdirSync. rewrite !readFileSync_inr. apply mkdirp_walk_file_back.
Qed.

Lemma mkdirSync_readFileSync root root' dir path data :
  Fs.mkdirSync root dir = inr root' →
  Fs.readFileSync root path = inr data → Fs.readFileSync root' path = inr data.
Proof.
  unfold Fs.mkdirSync. rewrite !readFileSync_inr. apply mkdirp_walk_file.
Qed.

(** A write leaves a regular file with its bytes, or with the bytes
    written when it is the file written. *)
Lemma writeFileSync_readFileSync root root' target written path data :
  Fs.writeFileSync root target written = inr root' →
  Fs.readFileSync root path = inr data →
  Fs.readFileSync root' path
  = inr (if decide (Path.components path = Path.components target)
         then written else data).
Proof.
  unfold Fs.writeFileSync. rewrite !readFileSync_inr. intros Hput Hwalk.
  case_decide as Heq.
  - rewrite Heq. by eapply put_walk.
  - by eapply put_walk_other.
Qed.

End FileFrames.

Section Backup.
Context (env : Env).

Lemma backupFile_inv localPath entry w backup w' :
  HistoryStorage.backupFile env localPath entry w = (Ok backup, w') →
  backup.1 = snapshotPath env (index w) localPath entry
  ∧ index w' = index w ∧ pendingBackups w' = pendingBackups w
  ∧ remote w' = remote w ∧ requests w' = requests w
  ∧ (∀ data,
       Fs.readFileSync (fs w) localPath = inr data →
       Fs.readFileSync (fs w') backup.1 = inr data
       ∧ Fs.readFileSync (fs w') localPath = inr data
       ∧ backup.2 = withContent env entry data)
  ∧ (∀ data,
       Fs.readFileSync (fs w') localPath = inr data →
       Fs.readFileSync (fs w) localPath = inr data).
Proof.
  unfold HistoryStorage.backupFile. cbv zeta.
  set (versionDir := HistoryStorage.getVersionDir env entry).
  unfold bind at 1. unfold gets at 1. cbv beta iota.
  assert ((∃ w1,
    (if Fs.existsSync (fs w) versionDir then ret tt
     else fsUpdate "mkdir" versionDir (λ root, Fs.mkdirSync root versionDir)) w
    = (Ok tt, w1)
    ∧ index w1 = index w ∧ pendingBackups w1 = pendingBackups w
    ∧ remote w1 = remote w ∧ requests w1 = requests w
    ∧ ∀ data, Fs.readFileSync (fs w) localPath = inr data ↔
              Fs.readFileSync (fs w1) localPath = inr data)
    ∨ (∃ e, (if Fs.existsSync (fs w) versionDir then ret tt
             else fsUpdate "mkdir" versionDir (λ root, Fs.mkdirSync root versionDir)) w
            = (Throw e, w))) as Hdir.
  { destruct (Fs.existsSync (fs w) versionDir).
    - left. eexists. by do 5 (split; [done|]).
    - unfold fsUpdate, bind, gets, orThrow, modify.
      destruct (Fs.mkdirSync (fs w) versionDir) as [code|root1] eqn:Hmk; simpl.
      + right. by eexists.
      + left. eexists. do 5 (split; [done|]).
        intros data. simpl. split.
        * by apply (mkdirSync_readFileSync _ _ versionDir).
        * by apply (mkdirSync_readFileSync_back _ _ versionDir). }
  destruct Hdir as [(w1 & Hdir & Hindex & Hpending & Hremote & Hrequests & Hfile)
                   |(e & Hdir)]; unfold bind at 1; rewrite Hdir; [|done].
  unfold HistoryStorage.generateVersionSuffix.
  unfold bind at 1 2. unfold gets at 1. unfold ret at 1. cbv beta iota.
  unfold bind at 1. unfold gets at 1. cbv beta iota.
  rewrite Hindex.
  set (path := Path.join versionDir _).
  assert (path = snapshotPath env (index w) localPath entry) as Hpath by done.
  destruct (Fs.existsSync (fs w1) localPath) eqn:Hexists.
  - unfold fsUpdate, HistoryStorage.computeHash, fsRead, bind, gets, orThrow,
      modify, ret, throw.
    destruct (Fs.copyFileSync (fs w1) localPath path) as [code|root2] eqn:Hcopy;
      [done|]. simpl.
    destruct (Fs.readFileSync root2 localPath) as [code|content] eqn:Hread;
      [done|]. simpl. rewrite Hread.
    intros [= <- <-]. simpl. do 5 (split; [done|]).
    unfold Fs.copyFileSync in Hcopy.
    destruct (Fs.readFileSync (fs w1) localPath) as [code|data1] eqn:Hdata1;
      [done|].
    pose proof (writeFileSync_readFileSync _ _ _ _ _ _ Hcopy Hdata1) as Hlocal.
    rewrite Hread in Hlocal.
    assert (content = data1) as -> by (case_decide; congruence).
    split.
    + intros data Hdata. apply Hfile in Hdata. injection Hdata as <-.
      split; [|done]. unfold Fs.writeFileSync in Hcopy.
      apply readFileSync_inr. by eapply put_walk.
    + intros data. rewrite Hread. intros [= <-]. by apply Hfile.
  - unfold ret. intros [= <- <-]. simpl. do 5 (split; [done|]).
    split; [|intros data; apply Hfile].
    intros data Hdata. apply Hfile in Hdata.
    unfold Fs.existsSync in Hexists. apply readFileSync_inr in Hdata.
    by rewrite Hdata in Hexists.
Qed.

End Backup.

(** ** The SFTP client and its manager *)

Section Sftp.
Context (env : Env).

Lemma request_run r w :
  SFTPClient.request env r w =
    (match sftpFault env (length (requests w)) with
     | Some message => Throw (JS.Error message)
     | None => Ok tt
     end, setRequests (requests w ++ [r]) w).
Proof.
  unfold SFTPClient.request, bind, gets, modify. cbv beta iota.
  by destruct (sftpFault env _).
Qed.

Lemma ensureConnected_run client w :
  SFTPClient.ensureConnected client w =
    (if decide (connections w !! client = Some true) then Ok tt
     else Throw (JS.Error "Not connected to SFTP server"), w).
Proof.
  unfold SFTPClient.ensureConnected, bind, gets. cbv beta iota.
  destruct (connections w !! client) as [[]|]; by case_decide.
Qed.

Lemma exists_run client remotePath w :
  SFTPClient.exists_ env client remotePath w =
    if decide (connections w !! client = Some true) then
      (Ok (bool_decide (sftpFault env (length (requests w)) = None)
           && Fs.existsSync (remote w) remotePath),
       setRequests (requests w ++ [Stat remotePath]) w)
    else (Throw (JS.Error "Not connected to SFTP server"), w).
Proof.
  unfold SFTPClient.exists_. unfold bind at 1. rewrite ensureConnected_run.
  case_decide; [|done].
  unfold tryCatch, SFTPClient.libStat. unfold bind at 1 2.
  rewrite request_run. destruct (sftpFault env _); [done|].
  unfold bind, gets, ret. cbv beta iota. simpl.
  by destruct (Fs.existsSync (remote w) remotePath).
Qed.

(** X9 ([exists] on the server).  On an open connection [exists] sends one
    [stat] request and does not throw: it answers true exactly when the
    request goes through and the path exists on the server, so a fault of
    the connection reads as a missing path.  Without an open connection it
    throws and sends nothing. *)
Theorem exists_answers client remotePath w :
  (connections w !! client = Some true →
   ∃ answer,
     SFTPClient.exists_ env client remotePath w
     = (Ok answer, setRequests (requests w ++ [Stat remotePath]) w)
     ∧ (answer = true
        ↔ sftpFault env (length (requests w)) = None
          ∧ Fs.existsSync (remote w) remotePath = true))
  ∧ (connections w !! client ≠ Some true →
     SFTPClient.exists_ env client remotePath w
     = (Throw (JS.Error "Not connected to SFTP server"), w)).
Proof.
  rewrite exists_run. split; intros Hconn.
  - rewrite decide_True by done. eexists. split; [reflexivity|].
    rewrite andb_true_iff, bool_decide_eq_true. done.
  - by rewrite decide_False.
Qed.

Lemma mkdirQuietly_run dir w :
  ∃ root,
    tryCatch (SFTPClient.libMkdir env dir) (λ _, ret tt) w
    = (Ok tt, setRemote root (setRequests (requests w ++ [Mkdir dir]) w)).
Proof.
  unfold tryCatch, SFTPClient.libMkdir. unfold bind at 1. rewrite request_run.
  destruct (sftpFault env _).
  - exists (remote w). by destruct w.
  - unfold bind, gets, orThrow, modify. cbv beta iota. simpl.
    destruct (Fs.mkdirSync (remote w) dir) as [code|root]; simpl.
    + exists (remote w). by destruct w.
    + by exists root.
Qed.

Lemma putFile_inv client localPath remotePath w w' :
  SFTPClient.putFile env client localPath remotePath w = (Ok tt, w') →
  fs w' = fs w ∧ index w' = index w ∧ pendingBackups w' = pendingBackups w
  ∧ requests w'
    = requests w ++ [Mkdir (Path.dirname remotePath); FastPut localPath remotePath]
  ∧ ∃ data,
      Fs.readFileSync (fs w) localPath = inr data
      ∧ Fs.readFileSync (remote w') remotePath = inr data.
Proof.
  unfold SFTPClient.putFile. unfold bind at 1. rewrite ensureConnected_run.
  case_decide; [|done]. cbv zeta. unfold tryCatch at 1. unfold bind at 1.
  destruct (mkdirQuietly_run (Path.dirname remotePath) w) as [root ->].
  unfold SFTPClient.libFastPut. unfold bind at 1. rewrite request_run.
  destruct (sftpFault env _); [done|].
  unfold fsRead, bind, gets, orThrow, modify. cbv beta iota. simpl.
  destruct (Fs.readFileSync (fs w) localPath) as [code|data] eqn:Hdata; [done|].
  simpl. destruct (Fs.writeFileSync root remotePath data) as [code|root'] eqn:Hput;
    [done|].
  simpl. intros [= <-]. simpl. rewrite <- app_assoc. do 4 (split; [done|]).
  exists data. split; [done|]. apply readFileSync_inr. by eapply put_walk.
Qed.

(** X10 ([putFile] transfers the bytes).  When [putFile] returns, the file on
    the server holds the bytes of the local file; the local files, the index
    and the pending snapshots are unchanged, and exactly two requests were
    sent, the creation of the remote directory and the transfer. *)
Theorem putFile_transfers client localPath remotePath w w' :
  SFTPClient.putFile env client localPath remotePath w = (Ok tt, w') →
  fs w' = fs w ∧ index w' = index w ∧ pendingBackups w' = pendingBackups w
  ∧ requests w'
    = requests w ++ [Mkdir (Path.dirname remotePath); FastPut localPath remotePath]
  ∧ ∃ data,
      Fs.readFileSync (fs w) localPath = inr data
      ∧ Fs.readFileSync (remote w') remotePath = inr data.
Proof. intros Hput. by eapply putFile_inv. Qed.

(** X11 ([getFile] transfers the bytes).  When [getFile] returns, the local
    file holds the bytes of the file on the server; the files on the server,
    the index and the pending snapshots are unchanged, and the one request
    sent is the transfer. *)
Theorem getFile_transfers client remotePath localPath w w' :
  SFTPClient.getFile env client remotePath localPath w = (Ok tt, w') →
  remote w' = remote w ∧ index w' = index w
  ∧ pendingBackups w' = pendingBackups w
  ∧ requests w' = requests w ++ [FastGet remotePath localPath]
  ∧ ∃ data,
      Fs.readFileSync (remote w) remotePath = inr data
      ∧ Fs.readFileSync (fs w') localPath = inr data.
Proof.
  unfold SFTPClient.getFile. unfold bind at 1. rewrite ensureConnected_run.
  case_decide; [|done]. cbv zeta. unfold tryCatch at 1. unfold bind at 1 2.
  unfold gets at 1. cbv beta iota.
  assert (∃ w1,
    ((if Fs.existsSync (fs w) (Path.dirname localPath) then ret tt
      else fsUpdate "mkdir" (Path.dirname localPath)
             (λ root, Fs.mkdirSync root (Path.dirname localPath))) w).2 = w1
    ∧ remote w1 = remote w ∧ index w1 = index w
    ∧ pendingBackups w1 = pendingBackups w ∧ requests w1 = requests w) as Hdir.
  { eexists. split; [reflexivity|].
    destruct (Fs.existsSync _ _); [done|].
    unfold fsUpdate, bind, gets, orThrow, modify. cbv beta iota.
    by destruct (Fs.mkdirSync _ _). }
  destruct Hdir as (w1 & Hw1 & Hremote & Hindex & Hpending & Hrequests).
  match type of Hw1 with (?m w).2 = _ =>
    destruct (m w) as [[[]|e] w0]; [|done] end.
  simpl in Hw1. subst w0.
  unfold SFTPClient.libFastGet. unfold bind at 1. rewrite request_run.
  destruct (sftpFault env _); [done|].
  unfold fsUpdate, bind, gets, orThrow, modify. cbv beta iota. simpl.
  rewrite Hremote.
  destruct (Fs.readFileSync (remote w) remotePath) as [code|data] eqn:Hdata; [done|].
  simpl. destruct (Fs.writeFileSync (fs w1) localPath data) as [code|root'] eqn:Hput;
    [done|].
  simpl. intros [= <-]. simpl. rewrite Hrequests. do 4 (split; [done|]).
  exists data. split; [done|]. apply readFileSync_inr. by eapply put_walk.
Qed.

Lemma getClient_run name w :
  SFTPManager.getClient name w =
    (Ok (if decide (connections w !! name = Some true) then Some name else None), w).
Proof.
  unfold SFTPManager.getClient, bind, gets. cbv beta iota.
  destruct (connections w !! name) as [[]|]; by case_decide.
Qed.

(** What [ensureConnected] of the manager does when it returns: nothing
    when the client of the active profile is connected, and else one
    request to connect, after which the client is. *)
Lemma ensureConnected_inv client w w1 :
  SFTPManager.ensureConnected env w = (Ok client, w1) →
  (∃ profile, ProfileManager.getActiveProfile env = Some profile
              ∧ ServerProfile.name profile = client)
  ∧ client ≠ ""
  ∧ connections w1 !! client = Some true
  ∧ (if decide (connections w !! client = Some true) then w1 = w
     else w1 = setConnections (<[client := true]> (<[client := false]> (connections w)))
                 (setRequests (requests w ++ [Connect client]) w)
          ∧ sftpFault env (length (requests w)) = None).
Proof.
  unfold SFTPManager.ensureConnected.
  destruct (ProfileManager.getActiveProfile env) as [profile|]; [|done].
  destruct (String.eqb_spec (ServerProfile.name profile) "") as [|Hname]; [done|].
  unfold bind at 1. rewrite getClient_run. case_decide as Hconn.
  - intros [= <- <-]. split; [by eexists|]. split; [done|]. split; [done|].
    by rewrite decide_True.
  - unfold SFTPManager.connect.
    destruct (ProfileManager.getProfile env _); [|done].
    unfold bind at 1. rewrite getClient_run. rewrite decide_False by done.
    unfold bind at 1 2. unfold modify at 1. cbv beta iota.
    unfold SFTPClient.connect, tryCatch, SFTPClient.libConnect.
    unfold bind at 1. rewrite request_run. simpl.
    destruct (sftpFault env _) eqn:Hfault; [done|].
    unfold modify, ret. intros [= <- <-]. split; [by eexists|].
    split; [done|]. simpl. split; [apply lookup_insert_eq|].
    by rewrite decide_False.
Qed.

(** X12 (one connection per profile).  When [ensureConnected] returns a client,
    a second call returns the same client and changes nothing.  The first
    call changes nothing either when the client was connected before, and
    otherwise sends the one request that connects it, leaving the files and
    the index as they were. *)
Theorem ensureConnected_once client w w1 :
  SFTPManager.ensureConnected env w = (Ok client, w1) →
  SFTPManager.ensureConnected env w1 = (Ok client, w1)
  ∧ (connections w !! client = Some true → w1 = w)
  ∧ (connections w !! client ≠ Some true →
     requests w1 = requests w ++ [Connect client]
     ∧ fs w1 = fs w ∧ remote w1 = remote w ∧ index w1 = index w).
Proof.
  intros Hrun.
  destruct (ensureConnected_inv _ _ _ Hrun)
    as ((profile & Hprofile & Hname) & Hne & Hconn & Hw1).
  split; [|split].
  - unfold SFTPManager.ensureConnected. rewrite Hprofile, Hname.
    apply String.eqb_neq in Hne. rewrite Hne.
    unfold bind. rewrite getClient_run. by rewrite decide_True.
  - intros H. by rewrite decide_True in Hw1.
  - intros H. rewrite decide_False in Hw1 by done. by destruct Hw1 as [-> _].
Qed.


End Sftp.

(** [a.txt] is put on the server over the open connection. *)
Lemma putFile_transfers_witness :
  ∃ data,
    Fs.readFileSync (fs Cases.connected) "/ws/a.txt" = inr data
    ∧ Fs.readFileSync
        (remote (SFTPClient.putFile (env noFault) "prod" "/ws/a.txt" "/srv/a.txt"
                   Cases.connected).2) "/srv/a.txt" = inr data.
Proof.
  apply (putFile_transfers (env noFault) "prod" "/ws/a.txt" "/srv/a.txt"
           Cases.connected
           (SFTPClient.putFile (env noFault) "prod" "/ws/a.txt" "/srv/a.txt"
              Cases.connected).2).
  vm_compute; reflexivity.
Defined.

(** [a.txt] is fetched from the server over the open connection. *)
Lemma getFile_transfers_witness :
  ∃ data,
    Fs.readFileSync (remote Cases.connected) "/srv/a.txt" = inr data
    ∧ Fs.readFileSync
        (fs (SFTPClient.getFile (env noFault) "prod" "/srv/a.txt" "/ws/a.txt"
               Cases.connected).2) "/ws/a.txt" = inr data.
Proof.
  apply (getFile_transfers (env noFault) "prod" "/srv/a.txt" "/ws/a.txt"
           Cases.connected
           (SFTPClient.getFile (env noFault) "prod" "/srv/a.txt" "/ws/a.txt"
              Cases.connected).2).
  vm_compute; reflexivity.
Defined.

(** The first call connects, the second finds the connection. *)
Lemma ensureConnected_once_witness :
  SFTPManager.ensureConnected (env noFault) world = (Ok "prod", Cases.connected)
  ∧ SFTPManager.ensureConnected (env noFault) Cases.connected
    = (Ok "prod", Cases.connected).
Proof.
  assert (SFTPManager.ensureConnected (env noFault) world
          = (Ok "prod", Cases.connected)) as H by (vm_compute; reflexivity).
  split; [exact H|].
  apply (ensureConnected_once (env noFault) "prod" world Cases.connected H).
Defined.

(** ** The results of single transfers *)

Section SingleFile.
Context (env : Env).

Lemma recordAfter_ok op lp rp w :
  (HistoryManager.recordAfter env op lp rp w).1 = Ok tt.
Proof.
  destruct (pendingBackups w !! HistoryManager.getBackupKey lp rp op) as [e|] eqn:Hp.
  - by destruct (recordAfter_pending env op lp rp w e Hp) as [? _].
  - by rewrite recordAfter_idle.
Qed.

Lemma failed_result error r :
  SyncManager.result r = SyncManager.freshResult →
  singleFileResult (SyncManager.result (SyncManager.operationFailed error r).2).
Proof.
  intros Hr. right. right. simpl. rewrite Hr. by eexists.
Qed.

(** A step that leaves the result alone either ends the operation as
    failed or hands over to what follows. *)
Lemma prefix_step {A} (P : M SyncManager.Run A) (K : A → M SyncManager.Run unit) r :
  respects keepsResult P →
  SyncManager.result r = SyncManager.freshResult →
  (∀ x r1, SyncManager.result r1 = SyncManager.freshResult →
           singleFileResult
             (SyncManager.result (tryCatch (K x) SyncManager.operationFailed r1).2)) →
  singleFileResult
    (SyncManager.result (tryCatch (bind P K) SyncManager.operationFailed r).2).
Proof.
  intros HP Hr HK. specialize (HP r). unfold keepsResult in HP.
  unfold tryCatch, bind in *. destruct (P r) as [[x|e] r1]; simpl in HP.
  - apply HK. congruence.
  - apply failed_result. congruence.
Qed.

Lemma transfer_tail (before transfer after : M World unit) r :
  SyncManager.result r = SyncManager.freshResult →
  (∀ w, (after w).1 = Ok tt) →
  singleFileResult
    (SyncManager.result
       (tryCatch
          (SyncManager.inWorld before;;
           SyncManager.inWorld transfer;;
           SyncManager.updateResult (SyncManager.setFilesProcessed 1);;
           SyncManager.inWorld after)
          SyncManager.operationFailed r).2).
Proof.
  intros Hr Hafter.
  apply prefix_step; [apply inWorld_keepsResult|done|intros _ r1 Hr1].
  apply prefix_step; [apply inWorld_keepsResult|done|intros _ r2 Hr2].
  unfold tryCatch, bind, SyncManager.updateResult, modify, SyncManager.inWorld.
  cbn [SyncManager.world SyncManager.result].
  specialize (Hafter (SyncManager.world r2)).
  destruct (after (SyncManager.world r2)) as [[[]|e] w']; [|done].
  right. left. simpl. by rewrite Hr2.
Qed.

Lemma operation_result body w :
  (SyncManager.operation body w).1
  = SyncManager.result
      (tryCatch body SyncManager.operationFailed
         {| SyncManager.result := SyncManager.freshResult;
            SyncManager.world := w |}).2.
Proof. unfold SyncManager.operation. by destruct (tryCatch _ _ _). Qed.

Ltac keepsResult_steps :=
  repeat first [ apply inWorld_keepsResult | progress respects_with idtac ].

Ltac single_file_prefix :=
  apply prefix_step; [keepsResult_steps|done|intros ? ? ?].

(** X14 (results of a transfer of one file).  [uploadFile] and [downloadFile]
    end in one of three results: success with no file processed (the
    transfer was declined), success with one file processed, or failure
    with no file processed and one error message.  A result never reports
    both a processed file and an error. *)
Theorem single_file_results w :
  (∀ localPath remotePath,
     singleFileResult (SyncManager.uploadFile env localPath remotePath w).1)
  ∧ (∀ remotePath localPath,
       singleFileResult (SyncManager.downloadFile env remotePath localPath w).1).
Proof.
  split; intros a b.
  - unfold SyncManager.uploadFile. rewrite operation_result.
    apply prefix_step;
      [unfold SyncManager.requireActiveProfile; keepsResult_steps|done
      |intros profile r1 Hr1].
    apply prefix_step;
      [unfold SyncManager.orElse; keepsResult_steps|done|intros target r2 Hr2].
    apply prefix_step; [keepsResult_steps|done|intros client r3 Hr3].
    apply prefix_step; [keepsResult_steps|done|intros occupied r4 Hr4].
    apply prefix_step;
      [unfold SyncManager.overwriteDeclined; keepsResult_steps|done
      |intros declined r5 Hr5].
    destruct declined.
    + left. simpl. done.
    + apply transfer_tail; [done|]. intros w0. apply recordAfter_ok.
  - unfold SyncManager.downloadFile. rewrite operation_result.
    apply prefix_step;
      [unfold SyncManager.requireActiveProfile; keepsResult_steps|done
      |intros profile r1 Hr1].
    apply prefix_step;
      [unfold SyncManager.orElse, SyncManager.getLocalPath; keepsResult_steps|done
      |intros target r2 Hr2].
    apply prefix_step; [keepsResult_steps|done|intros client r3 Hr3].
    apply prefix_step; [keepsResult_steps|done|intros occupied r4 Hr4].
    apply prefix_step;
      [unfold SyncManager.overwriteDeclined; keepsResult_steps|done
      |intros declined r5 Hr5].
    destruct declined.
    + left. simpl. done.
    + apply transfer_tail; [done|]. intros w0. apply recordAfter_ok.
Qed.

End SingleFile.

(** ** Snapshots and uploads *)

Section Snapshots.
Context (env : Env).

(** X15 (the snapshot before a transfer).  With an active profile and a local
    file that holds [data], a [recordBefore] that returns has copied [data]
    to the snapshot path of the new entry, left the local file and the index
    as they were, and put the entry under the key of the transfer among the
    pending ones, with the size and the hash of [data]. *)
Theorem snapshot_taken profile operation localPath remotePath data w w' :
  ProfileManager.getActiveProfile env = Some profile →
  Fs.readFileSync (fs w) localPath = inr data →
  HistoryManager.recordBefore env operation localPath remotePath w = (Ok tt, w') →
  let entry := entryBefore env profile operation localPath remotePath w in
  pendingBackups w'
  = <[HistoryManager.getBackupKey localPath remotePath operation :=
        withContent env entry data]> (pendingBackups w)
  ∧ index w' = index w
  ∧ Fs.readFileSync (fs w') (snapshotPath env (index w) localPath entry) = inr data
  ∧ Fs.readFileSync (fs w') localPath = inr data.
Proof.
  intros Hprofile Hdata. rewrite (recordBefore_run env), Hprofile. cbv zeta.
  assert (Fs.existsSync (fs w) localPath = true) as ->.
  { unfold Fs.existsSync. apply readFileSync_inr in Hdata. by rewrite Hdata. }
  fold (entryBefore env profile operation localPath remotePath w).
  set (entry := entryBefore env profile operation localPath remotePath w).
  set (w0 := setClockReads _ _).
  unfold bind, modify.
  destruct (HistoryStorage.backupFile env localPath entry w0)
    as [[backup|e] w1] eqn:Hbackup; [|done].
  apply backupFile_inv in Hbackup
    as (Hpath & Hindex & Hpending & _ & _ & Hfile & _).
  destruct (Hfile data Hdata) as (Hsnapshot & Hlocal & Hentry).
  unfold w0 in Hpath, Hindex, Hpending.
  cbn [index pendingBackups setClockReads setRandomReads] in Hpath, Hindex, Hpending.
  intros [= <-]. simpl. rewrite Hpending, Hentry, <- Hpath. by rewrite Hindex.
Qed.

(** X16 (snapshots that collide).  The directory of a snapshot is named after
    the second of its time stamp and the profile, and its file after the
    base name of the local file and the ordinal.  So when two files of the
    same base name are snapshotted within one second for one profile with
    equal ordinals, the second snapshot is written to the path of the first
    and replaces its content. *)
Theorem snapshots_collide path1 path2 entry1 entry2 data2 w backup1 w1 backup2 w2 :
  HistoryEntry.timestamp entry1 / 1000 = HistoryEntry.timestamp entry2 / 1000 →
  HistoryEntry.profileName entry1 = HistoryEntry.profileName entry2 →
  Path.basename path1 = Path.basename path2 →
  HistoryStorage.versionOrdinal (index w) path1 entry1
  = HistoryStorage.versionOrdinal (index w) path2 entry2 →
  HistoryStorage.backupFile env path1 entry1 w = (Ok backup1, w1) →
  Fs.readFileSync (fs w1) path2 = inr data2 →
  HistoryStorage.backupFile env path2 entry2 w1 = (Ok backup2, w2) →
  backup2.1 = backup1.1 ∧ Fs.readFileSync (fs w2) backup1.1 = inr data2.
Proof.
  intros Hsecond Hprofile Hname Hordinal Hfirst Hdata Hsecond_run.
  apply backupFile_inv in Hfirst as (Hpath1 & Hindex & _).
  apply backupFile_inv in Hsecond_run as (Hpath2 & _ & _ & _ & _ & Hfile & _).
  destruct (Hfile data2 Hdata) as (Hsnapshot & _).
  assert (backup2.1 = backup1.1) as Hsame.
  { rewrite Hpath1, Hpath2, Hindex. unfold snapshotPath.
    by rewrite !versionDir_seconds, Hsecond, Hprofile, Hname, Hordinal. }
  split; [done|]. by rewrite <- Hsame.
Qed.

End Snapshots.

Section Upload.
Context (env : Env).

Lemma bind_inv {S A B} (m : M S A) (k : A → M S B) s b s' :
  bind m k s = (Ok b, s') → ∃ a s1, m s = (Ok a, s1) ∧ k a s1 = (Ok b, s').
Proof. unfold bind. destruct (m s) as [[a|e] s1]; [eauto|done]. Qed.

Lemma inWorld_inv {A} (m : M World A) r a r' :
  SyncManager.inWorld m r = (Ok a, r') →
  m (SyncManager.world r) = (Ok a, SyncManager.world r')
  ∧ SyncManager.result r' = SyncManager.result r.
Proof.
  unfold SyncManager.inWorld. destruct (m (SyncManager.world r)) as [res w'].
  by intros [= -> <-].
Qed.

Lemma operation_done body w result w' :
  SyncManager.operation body w = (result, w') →
  SyncResult.success result = true →
  ∃ r, body {| SyncManager.result := SyncManager.freshResult;
               SyncManager.world := w |} = (Ok tt, r)
       ∧ SyncManager.result r = result ∧ SyncManager.world r = w'.
Proof.
  unfold SyncManager.operation, tryCatch.
  destruct (body _) as [[[]|e] r] eqn:Hbody.
  - intros [= <- <-] _. by exists r.
  - simpl. by intros [= <- <-].
Qed.

Lemma recordBefore_keeps_file operation localPath remotePath w w' data :
  HistoryManager.recordBefore env operation localPath remotePath w = (Ok tt, w') →
  Fs.readFileSync (fs w') localPath = inr data →
  Fs.readFileSync (fs w) localPath = inr data.
Proof.
  rewrite (recordBefore_run env).
  destruct (ProfileManager.getActiveProfile env); [|by intros [= <-]].
  cbv zeta. destruct (Fs.existsSync (fs w) localPath); [|by intros [= <-]].
  unfold bind, modify.
  destruct (HistoryStorage.backupFile env _ _ _) as [[backup|e] w1] eqn:Hbackup;
    [|done].
  apply backupFile_inv in Hbackup as (_ & _ & _ & _ & _ & _ & Hback).
  intros [= <-]. simpl. apply Hback.
Qed.

(** X17 (an upload that is reported happened).  With an active profile, when
    [uploadFile] reports one file processed and no error, the local file
    could be read, and the file on the server at the target of the upload
    holds its bytes. *)
Theorem uploadFile_transfers profile localPath remotePath w w' :
  ProfileManager.getActiveProfile env = Some profile →
  SyncManager.uploadFile env localPath remotePath w
  = (SyncResult.mk true 1 [], w') →
  ∃ data,
    Fs.readFileSync (fs w) localPath = inr data
    ∧ Fs.readFileSync (remote w') (remoteTarget env profile localPath remotePath)
      = inr data.
Proof.
  intros Hprofile Hrun. unfold SyncManager.uploadFile in Hrun.
  apply operation_done in Hrun as (r & Hbody & Hresult & <-); [|done].
  unfold SyncManager.requireActiveProfile in Hbody. rewrite Hprofile in Hbody.
  rewrite bind_ret, orElse_remoteTarget, bind_ret in Hbody.
  set (target := remoteTarget env profile localPath remotePath) in *.
  apply bind_inv in Hbody as (client & r1 & Hconn & Hbody).
  apply inWorld_inv in Hconn as [Hconn Hr1]. simpl in Hconn, Hr1.
  apply bind_inv in Hbody as (occupied & r2 & Hoccupied & Hbody).
  apply bind_inv in Hbody as (declined & r3 & Hdeclined & Hbody).
  assert (fs (SyncManager.world r3) = fs w
          ∧ SyncManager.result r3 = SyncManager.freshResult) as [Hfs Hr3].
  { assert (respects (keeps fs) (SFTPManager.ensureConnected env)) as H1
      by respects_model keeps_field.
    assert (∀ p, respects (keeps fs) (SFTPClient.exists_ env client p)) as H2
      by (intros p; respects_model keeps_field).
    specialize (H1 w). rewrite Hconn in H1. unfold keeps in H1. simpl in H1.
    assert (fs (SyncManager.world r2) = fs w
            ∧ SyncManager.result r2 = SyncManager.freshResult) as [Hfs2 Hr2].
    { destruct (confirmBeforeOverwrite env).
      - apply inWorld_inv in Hoccupied as [Hoccupied Hr2].
        specialize (H2 target (SyncManager.world r1)).
        rewrite Hoccupied in H2. unfold keeps in H2. simpl in H2.
        split; congruence.
      - injection Hoccupied as _ <-. by split. }
    destruct occupied.
    - unfold SyncManager.overwriteDeclined in Hdeclined.
      apply bind_inv in Hdeclined as (choice & r' & Hdialog & Hret).
      apply inWorld_inv in Hdialog as [Hdialog Hr'].
      injection Hret as _ <-.
      unfold SyncManager.showWarningMessage in Hdialog.
      injection Hdialog as _ Hw. rewrite <- Hw. simpl. split; congruence.
    - injection Hdeclined as _ <-. by split. }
  destruct declined.
  { injection Hbody as <-. rewrite Hr3 in Hresult. discriminate. }
  apply bind_inv in Hbody as ([] & r4 & Hbefore & Hbody).
  apply inWorld_inv in Hbefore as [Hbefore _].
  apply bind_inv in Hbody as ([] & r5 & Hput & Hbody).
  apply inWorld_inv in Hput as [Hput _].
  apply bind_inv in Hbody as ([] & r6 & Hcount & Hafter).
  injection Hcount as <-. apply inWorld_inv in Hafter as [Hafter _].
  simpl in Hafter.
  apply putFile_inv in Hput as (_ & _ & _ & _ & data & Hdata & Hremote).
  exists data. split.
  - rewrite <- Hfs. by eapply recordBefore_keeps_file.
  - assert (respects (keeps remote)
              (HistoryManager.recordAfterUpload env localPath target)) as H
      by (unfold HistoryManager.recordAfterUpload; respects_model keeps_field).
    specialize (H (SyncManager.world r5)). rewrite Hafter in H.
    unfold keeps in H. simpl in H. by rewrite H.
Qed.

End Upload.

(** The snapshot [recordBeforeUpload] takes of [a.txt]. *)
Lemma snapshot_taken_witness :
  snapshotPath (env noFault) (index world) "/ws/a.txt"
    (entryBefore (env noFault) profile upload "/ws/a.txt" "/srv/a.txt" world)
  = snapshot
  ∧ Fs.readFileSync (fs afterSnapshot) snapshot = inr (bytes "one").
Proof.
  assert (snapshotPath (env noFault) (index world) "/ws/a.txt"
            (entryBefore (env noFault) profile upload "/ws/a.txt" "/srv/a.txt" world)
          = snapshot) as Hpath by (vm_compute; reflexivity).
  split; [exact Hpath|]. rewrite <- Hpath.
  apply (snapshot_taken (env noFault) profile upload "/ws/a.txt" "/srv/a.txt"
           (bytes "one") world afterSnapshot); vm_compute; reflexivity.
Defined.

(** Uploads of [/ws/a.txt] and of [/ws/sub/a.txt] within one second: the
    snapshot of the second file replaces the one of the first. *)
Lemma snapshots_collide_witness :
  Fs.readFileSync (fs Cases.afterFirst) snapshot = inr (bytes "one")
  ∧ Fs.readFileSync
      (fs (HistoryStorage.backupFile (env noFault) "/ws/sub/a.txt" Cases.second
             Cases.afterFirst).2) snapshot = inr (bytes "two").
Proof.
  split; [vm_compute; reflexivity|].
  apply (snapshots_collide (env noFault) "/ws/a.txt" "/ws/sub/a.txt" Cases.first
           Cases.second (bytes "two") Cases.twoFiles
           (snapshot, withContent (env noFault) Cases.first (bytes "one"))
           Cases.afterFirst
           (snapshot, withContent (env noFault) Cases.second (bytes "two"))
           (HistoryStorage.backupFile (env noFault) "/ws/sub/a.txt" Cases.second
              Cases.afterFirst).2);
    vm_compute; reflexivity.
Defined.

(** The upload of [a.txt] puts its bytes on the server. *)
Lemma uploadFile_transfers_witness :
  ∃ data,
    Fs.readFileSync (fs world) "/ws/a.txt" = inr data
    ∧ Fs.readFileSync
        (remote (SyncManager.uploadFile (env noFault) "/ws/a.txt" None world).2)
        (remoteTarget (env noFault) profile "/ws/a.txt" None) = inr data.
Proof.
  apply (uploadFile_transfers (env noFault) profile "/ws/a.txt" None world
           (SyncManager.uploadFile (env noFault) "/ws/a.txt" None world).2);
    vm_compute; reflexivity.
Defined.

(** ** Cancellation *)

Section Cancellation.
Context (env : Env).

Lemma operation_thrown body w e r :
  body {| SyncManager.result := SyncManager.freshResult; SyncManager.world := w |}
    = (Throw e, r) →
  SyncManager.operation body w =
    (SyncManager.pushError (JS.toString e) (SyncManager.setFailed (SyncManager.result r)),
     SyncManager.world r).
Proof.
  intros H. unfold SyncManager.operation, tryCatch. rewrite H.
  by destruct r.
Qed.

(** The loop of a bulk operation that is cancelled before its [k]-th file
    throws, with the tally of the files before. *)
Lemma forEachFile_cancelled cancelled transfer files k res w :
  (∀ f, respects (keeps tokenReads) (transfer f)) →
  (k < length files)%nat →
  (∀ i, (i < k)%nat → cancellationRequested env (tokenReads w + i) = false) →
  cancellationRequested env (tokenReads w + k) = true →
  ∃ w', SyncManager.forEachFile env cancelled transfer files
          {| SyncManager.result := res; SyncManager.world := w |}
        = (Throw (JS.Error cancelled),
           {| SyncManager.result :=
                tallyAll (take k files)
                  (transferOutcomes env transfer (take k files) w) res;
              SyncManager.world := w' |}).
Proof.
  intros Htoken. revert k res w.
  induction files as [|file files IH]; intros k res w Hk Hbefore Hcancel;
    [simpl in Hk; lia|].
  simpl SyncManager.forEachFile.
  unfold bind at 1. unfold SyncManager.inWorld at 1.
  unfold SyncManager.isCancellationRequested at 1.
  cbn [SyncManager.world SyncManager.result].
  destruct k as [|k].
  - rewrite Nat.add_0_r in Hcancel. rewrite Hcancel. by eexists.
  - pose proof (Hbefore 0%nat ltac:(lia)) as H0.
    rewrite Nat.add_0_r in H0. rewrite H0.
    set (w1 := setTokenReads (S (tokenReads w)) w).
    pose proof (Htoken file w1) as Hkeep. unfold keeps in Hkeep.
    unfold bind at 1. unfold tryCatch at 1. unfold bind at 1.
    unfold SyncManager.inWorld at 1.
    cbn [SyncManager.world SyncManager.result].
    assert (∀ w2, tokenReads w2 = tokenReads w1 →
              (∀ i, (i < k)%nat →
                    cancellationRequested env (tokenReads w2 + i) = false)
              ∧ cancellationRequested env (tokenReads w2 + k) = true) as Hrest.
    { intros w2 ->. unfold w1. cbn [tokenReads setTokenReads]. split.
      - intros i Hi.
        replace (S (tokenReads w) + i)%nat with (tokenReads w + S i)%nat by lia.
        apply Hbefore. lia.
      - by replace (S (tokenReads w) + k)%nat with (tokenReads w + S k)%nat by lia. }
    simpl in Hk. cbn [take transferOutcomes tallyAll].
    unfold SyncManager.isCancellationRequested. cbn [fst snd]. fold w1.
    destruct (transfer file w1) as [[[]|error] w2] eqn:Htransfer;
      simpl in Hkeep; simpl.
    + destruct (Hrest w2 Hkeep) as [Hb Hc].
      destruct (IH k (SyncManager.countFile res) w2 ltac:(lia) Hb Hc) as [w' Hw'].
      rewrite Hw'. by eexists.
    + destruct (Hrest w2 Hkeep) as [Hb Hc].
      destruct (IH k (SyncManager.pushError (file +:+ ": " +:+ JS.toString error) res)
                  w2 ltac:(lia) Hb Hc) as [w' Hw'].
      rewrite Hw'. by eexists.
Qed.

(** X18 (a cancelled batch).  When the plan of a bulk operation succeeds and
    the cancellation is first seen before the [k]-th file, the result is the
    tally of the files before it, each counted as processed or as one
    error, with [success = false] and the message of the cancellation added:
    the files from the [k]-th on do not count. *)
Theorem cancelled_batch b w p r1 k :
  bulkPlan env b {| SyncManager.result := SyncManager.freshResult;
                    SyncManager.world := w |} = (Ok p, r1) →
  (k < length (SyncManager.files p))%nat →
  (∀ i, (i < k)%nat →
        cancellationRequested env (tokenReads (SyncManager.world r1) + i) = false) →
  cancellationRequested env (tokenReads (SyncManager.world r1) + k) = true →
  (run env (bulkCall b) w).1 =
    SyncManager.pushError ("Error: " +:+ cancelledMessage b)
      (SyncManager.setFailed
         (tallyAll (take k (SyncManager.files p))
            (transferOutcomes env (SyncManager.transfer p)
               (take k (SyncManager.files p)) (SyncManager.world r1))
            SyncManager.freshResult)).
Proof.
  intros Hplan Hk Hbefore Hcancel. rewrite (run_bulk env).
  pose proof (bulkPlan_result env b
                {| SyncManager.result := SyncManager.freshResult;
                   SyncManager.world := w |}) as Hres.
  rewrite Hplan in Hres. unfold keepsResult in Hres. simpl in Hres.
  pose proof (bulkPlan_token env b _ _ _ Hplan) as Htoken. simpl in Htoken.
  destruct r1 as [res1 w1]. simpl in *. subst res1.
  destruct (forEachFile_cancelled (cancelledMessage b) _ _ k
              SyncManager.freshResult w1 Htoken Hk Hbefore Hcancel) as [w' Hloop].
  rewrite (operation_thrown _ _ _ _
             (eq_trans (bind_ok _ _ _ _ _ Hplan) Hloop)).
  done.
Qed.

End Cancellation.

Lemma plan_started (e : Env) b :
  isOk (bulkPlan e b fresh).1 = true →
  bulkPlan e b fresh = (Ok (Cases.plan e b), Cases.started e b).
Proof.
  unfold Cases.plan, Cases.started. by destruct (bulkPlan e b fresh) as [[p|err] r].
Qed.

(** [uploadFolder] of the workspace, cancelled after its first file: one
    file is counted, and the result is a failure with the one message. *)
Lemma cancelled_batch_witness :
  (run (Cases.cancelledAt 1) (bulkCall (BulkUploadFolder "/ws" None)) world).1
  = SyncResult.mk false 1 ["Error: Upload cancelled"].
Proof.
  assert (isOk (bulkPlan (Cases.cancelledAt 1) (BulkUploadFolder "/ws" None) fresh).1
          = true) as Hok by (vm_compute; reflexivity).
  assert (∀ i, (i < 1)%nat →
            cancellationRequested (Cases.cancelledAt 1)
              (tokenReads
                 (SyncManager.world
                    (Cases.started (Cases.cancelledAt 1) (BulkUploadFolder "/ws" None)))
               + i) = false) as Hbefore.
  { intros i Hi. replace i with 0%nat by lia. vm_compute. reflexivity. }
  rewrite (cancelled_batch (Cases.cancelledAt 1) (BulkUploadFolder "/ws" None) world
             (Cases.plan (Cases.cancelledAt 1) (BulkUploadFolder "/ws" None))
             (Cases.started (Cases.cancelledAt 1) (BulkUploadFolder "/ws" None)) 1
             (plan_started _ _ Hok) ltac:(vm_compute; lia) Hbefore
             ltac:(vm_compute; reflexivity)).
  vm_compute. reflexivity.
Defined.

(** ** The scheduler *)

Section Scheduler.
Context (env : Env).

Import SyncScheduler.

Lemma shouldAutoUpload_file document :
  shouldAutoUpload env document = true →
  shouldAutoUpload env {| scheme := "file"; fsPath := fsPath document |} = true.
Proof.
  unfold shouldAutoUpload. cbn [scheme fsPath]. rewrite String.eqb_refl.
  by destruct (String.eqb (scheme document) "file").
Qed.

Lemma shouldAutoUpload_profile document :
  shouldAutoUpload env document = true →
  ∃ profile, ProfileManager.getActiveProfile env = Some profile.
Proof.
  unfold shouldAutoUpload.
  destruct (negb _); [done|].
  destruct (ProfileManager.getActiveProfile env) as [profile|]; [|done].
  by exists profile.
Qed.

(** A save that is scheduled: the timer of the file, if the map holds
    one, is cleared, and a new one is set and put in the map. *)
Lemma scheduleUpload_scheduled document s :
  isAutoUploadEnabled s = true →
  shouldAutoUpload env document = true →
  let s' := scheduleUpload env document s in
  let file := fsPath document in
  isAutoUploadEnabled s' = true
  ∧ nextTimer s' = S (nextTimer s)
  ∧ uploading s' = uploading s
  ∧ debounceTimers s' = <[file := nextTimer s]> (debounceTimers s)
  ∧ timers s'
    = <[nextTimer s := file]>
        (match debounceTimers s !! file with
         | Some existingTimer => delete existingTimer (timers s)
         | None => timers s
         end).
Proof.
  intros Henabled Heligible. cbv zeta. unfold scheduleUpload.
  rewrite Henabled, Heligible. cbn [negb].
  destruct (shouldAutoUpload_profile _ Heligible) as [profile ->].
  by destruct (debounceTimers s !! fsPath document).
Qed.

Lemma scheduleUpload_skipped document s :
  isAutoUploadEnabled s = false ∨ shouldAutoUpload env document = false →
  scheduleUpload env document s = s.
Proof.
  unfold scheduleUpload. intros [->| ->]; [done|].
  by destruct (isAutoUploadEnabled s).
Qed.

Lemma scheduleUpload_cases document s :
  scheduleUpload env document s = s
  ∨ (isAutoUploadEnabled s = true ∧ shouldAutoUpload env document = true).
Proof.
  destruct (isAutoUploadEnabled s) eqn:Henabled;
    [|left; apply scheduleUpload_skipped; by left].
  destruct (shouldAutoUpload env document) eqn:Heligible;
    [by right|left; apply scheduleUpload_skipped; by right].
Qed.

Lemma scheduleUpload_givenOut document s :
  givenOut env s → givenOut env (scheduleUpload env document s).
Proof.
  intros [Hlive Hmap].
  destruct (scheduleUpload_cases document s) as [->|[Henabled Heligible]]; [done|].
  destruct (scheduleUpload_scheduled document s Henabled Heligible)
    as (_ & Hnext & _ & Hm & Ht).
  split.
  - intros h f. rewrite Ht, Hnext.
    intros [[<- <-]|[Hne Hl]]%lookup_insert_Some.
    + split; [lia|by apply shouldAutoUpload_file].
    + assert (timers s !! h = Some f) as Hs.
      { destruct (debounceTimers s !! fsPath document); [|done].
        by apply lookup_delete_Some in Hl as [_ ?]. }
      apply Hlive in Hs as [? ?]. split; [lia|done].
  - intros f h. rewrite Hm, Hnext.
    intros [[<- <-]|[Hne Hl]]%lookup_insert_Some; [lia|].
    apply Hmap in Hl. lia.
Qed.

Lemma scheduleUpload_settled document s :
  givenOut env s → settled s → fsPath document ∉ uploading s →
  settled (scheduleUpload env document s).
Proof.
  intros [Hlive Hmap] [Hd Hup] Hquiet.
  destruct (scheduleUpload_cases document s) as [->|[Henabled Heligible]]; [done|].
  destruct (scheduleUpload_scheduled document s Henabled Heligible)
    as (_ & Hnext & Hu & Hm & Ht).
  set (file := fsPath document) in *. unfold debounced in Hd.
  assert (∀ h f, h ≠ nextTimer s →
            match debounceTimers s !! file with
            | Some existingTimer => delete existingTimer (timers s)
            | None => timers s
            end !! h = Some f →
            timers s !! h = Some f ∧ f ≠ file) as Hold.
  { intros h f Hne Hl. destruct (debounceTimers s !! file) as [old|] eqn:Hfile.
    - apply lookup_delete_Some in Hl as [Hh Hl]. split; [done|].
      intros ->. apply Hd in Hl. congruence.
    - split; [done|]. intros ->. apply Hd in Hl. congruence. }
  split.
  - intros h f. rewrite Ht, Hm.
    intros [[<- <-]|[Hne Hl]]%lookup_insert_Some; [apply lookup_insert_eq|].
    destruct (Hold h f ltac:(done) Hl) as [Hs Hf].
    rewrite lookup_insert_ne by done. by apply Hd.
  - intros f h. rewrite Hu, Ht. intros Hf.
    intros [[<- <-]|[Hne Hl]]%lookup_insert_Some; [done|].
    destruct (Hold h f ltac:(done) Hl) as [Hs _]. by eapply Hup.
Qed.

Lemma elem_of_removeFirst x y l : x ∈ removeFirst y l → x ∈ l.
Proof.
  induction l as [|z l IH]; simpl; [done|].
  destruct (String.eqb z y); [by right|].
  intros [->|?]%elem_of_cons; [left|right; by apply IH].
Qed.

(** What [cancelAllScheduledUploads] leaves of the timers: those that the
    map does not hold. *)
Lemma cancelAll_timers s :
  let s' := cancelAllScheduledUploads s in
  debounceTimers s' = ∅
  ∧ nextTimer s' = nextTimer s
  ∧ uploading s' = uploading s
  ∧ ∀ h f, timers s' !! h = Some f
           ↔ timers s !! h = Some f ∧ ∀ f', debounceTimers s !! f' ≠ Some h.
Proof.
  cbv zeta. unfold cancelAllScheduledUploads. cbn [debounceTimers setDebounceTimers
    nextTimer uploading timers]. split; [done|].
  generalize (debounceTimers s). intros m.
  apply (map_fold_weak_ind
           (λ r m, nextTimer r = nextTimer s
                   ∧ uploading r = uploading s
                   ∧ ∀ h f, timers r !! h = Some f
                            ↔ timers s !! h = Some f ∧ ∀ f', m !! f' ≠ Some h)).
  - split; [done|]. split; [done|]. intros h f. split; [|by intros [? _]].
    intros Hl. split; [done|]. intros f'. by rewrite lookup_empty.
  - intros f0 x m' r Hnone (Hn & Hu & IH). split; [done|]. split; [done|].
    intros h f. cbn [timers clearTimeout]. rewrite lookup_delete_Some, IH. split.
    + intros [Hne [Hl Hfree]]. split; [done|]. intros f'.
      intros [[_ ?]|[_ ?]]%lookup_insert_Some; [done|by eapply Hfree].
    + intros [Hl Hfree]. split; [|split; [done|]].
      * intros ->. apply (Hfree f0). apply lookup_insert_eq.
      * intros f' Hf'. apply (Hfree f'). rewrite lookup_insert_ne; [done|].
        intros <-. congruence.
Qed.

Lemma step_givenOut e s w : givenOut env s → givenOut env (step env e (s, w)).1.
Proof.
  intros Hg. pose proof Hg as [Hlive Hmap].
  destruct e as [document|handle|filePath|filePath| |enabled];
    unfold step; cbn [fst snd].
  - by apply scheduleUpload_givenOut.
  - unfold fire. destruct (timers s !! handle) as [file|] eqn:Hh; [|done].
    destruct (SyncManager.uploadFile env file None w) as [res w'].
    split; cbn.
    + intros h f [_ Hl]%lookup_delete_Some. by apply Hlive.
    + done.
  - unfold uploaded. destruct (bool_decide _); [|done]. split; cbn.
    + done.
    + intros f h [_ Hl]%lookup_delete_Some. by eapply Hmap.
  - unfold cancelScheduledUpload.
    destruct (debounceTimers s !! filePath) as [timer|]; [|done]. split; cbn.
    + intros h f [_ Hl]%lookup_delete_Some. by apply Hlive.
    + intros f h [_ Hl]%lookup_delete_Some. by eapply Hmap.
  - destruct (cancelAll_timers s) as (Hm & Hn & _ & Ht). split.
    + intros h f [Hl _]%Ht. rewrite Hn. by apply Hlive.
    + intros f h. by rewrite Hm, lookup_empty.
  - done.
Qed.

Lemma after_givenOut events s w :
  givenOut env s → givenOut env (after env events (s, w)).1.
Proof.
  revert s w. induction events as [|e events IH]; intros s w Hg; [done|].
  unfold after. simpl. pose proof (step_givenOut e s w Hg) as Hg'.
  destruct (step env e (s, w)) as [s' w']. by apply IH.
Qed.

Lemma initial_givenOut enabled : givenOut env (initial enabled).
Proof. split; intros ? ? H; by simpl in H. Qed.

Lemma initial_settled enabled : settled (initial enabled).
Proof.
  split; [intros h f H; by simpl in H|]. intros f h Hf. by apply elem_of_nil in Hf.
Qed.

Lemma step_settled e s w :
  givenOut env s → settled s →
  (∀ document, e = Saved document → fsPath document ∉ uploading s) →
  settled (step env e (s, w)).1.
Proof.
  intros Hg Hs Hquiet. pose proof Hs as [Hd Hup]. unfold debounced in Hd.
  destruct e as [document|handle|filePath|filePath| |enabled];
    unfold step; cbn [fst snd].
  - apply scheduleUpload_settled; [done..|]. by apply Hquiet.
  - unfold fire. destruct (timers s !! handle) as [file|] eqn:Hh; [|done].
    destruct (SyncManager.uploadFile env file None w) as [res w'].
    split; try unfold debounced; cbn.
    + intros h f [_ Hl]%lookup_delete_Some. by apply Hd.
    + intros f h Hin Hl. cbn in Hin, Hl.
      apply lookup_delete_Some in Hl as [Hne Hl].
      apply elem_of_cons in Hin as [->|Hf]; [|by eapply Hup].
      apply Hd in Hl. apply Hd in Hh. congruence.
  - unfold uploaded. destruct (bool_decide_reflect (filePath ∈ uploading s))
      as [Hin|]; [|done].
    split; try unfold debounced; cbn.
    + intros h f Hl. rewrite lookup_delete_ne; [by apply Hd|].
      intros <-. by eapply Hup.
    + intros f h Hf Hl. cbn in Hf, Hl. apply elem_of_removeFirst in Hf.
      by eapply Hup.
  - unfold cancelScheduledUpload.
    destruct (debounceTimers s !! filePath) as [timer|] eqn:Hf; [|done].
    split; try unfold debounced; cbn.
    + intros h f [Hne Hl]%lookup_delete_Some. rewrite lookup_delete_ne; [by apply Hd|].
      intros <-. apply Hd in Hl. congruence.
    + intros f h Hin Hl. cbn in Hin, Hl.
      apply lookup_delete_Some in Hl as [_ Hl]. by eapply Hup.
  - destruct (cancelAll_timers s) as (Hm & _ & Hu & Ht). split.
    + unfold debounced. intros h f [Hl Hfree]%Ht. apply Hd in Hl. by destruct (Hfree f).
    + intros f h. rewrite Hu. intros Hf Hl. apply Ht in Hl as [Hl _].
      by eapply Hup.
  - done.
Qed.

Lemma after_settled events s w :
  givenOut env s → settled s → undisturbed env events (s, w) = true →
  settled (after env events (s, w)).1.
Proof.
  revert s w. induction events as [|e events IH]; intros s w Hg Hs Hquiet; [done|].
  simpl in Hquiet. apply andb_true_iff in Hquiet as [He Hrest].
  unfold after. simpl.
  pose proof (step_givenOut e s w Hg) as Hg'.
  assert (settled (step env e (s, w)).1) as Hs'.
  { apply step_settled; [done..|]. intros document ->.
    cbn [fst] in He. apply negb_true_iff in He. by apply bool_decide_eq_false in He. }
  destruct (step env e (s, w)) as [s' w']. by apply IH.
Qed.

(** X19 (one timer per file).  As long as no document is saved while a callback
    awaits the upload of its file, every live timer is the one the map holds
    for its file, so no file has two live timers. *)
Theorem one_timer_per_file events enabled w :
  undisturbed env events (initial enabled, w) = true →
  let s := (after env events (initial enabled, w)).1 in
  debounced s
  ∧ ∀ h1 h2 filePath,
      timers s !! h1 = Some filePath → timers s !! h2 = Some filePath → h1 = h2.
Proof.
  intros Hquiet. cbv zeta.
  destruct (after_settled events (initial enabled) w) as [Hd _];
    [apply initial_givenOut|apply initial_settled|done|].
  split; [done|]. intros h1 h2 f H1%Hd H2%Hd. congruence.
Qed.



(** X22 (a save during an upload).  In any state a scheduler can reach, with
    auto-upload enabled and an eligible document: when the document is
    saved, its timer fires, the document is saved again while the callback
    awaits the upload, and the upload then ends, the callback takes the
    entry of the second timer off the map.  That timer is live and not in the
    map, and it is still live after [dispose]. *)
Theorem timer_outlives_dispose events enabled w document :
  let st := after env events (initial enabled, w) in
  isAutoUploadEnabled st.1 = true →
  shouldAutoUpload env document = true →
  let h := nextTimer st.1 in
  let st' := after env [Saved document; Fired h; Saved document;
                        Uploaded (fsPath document)] st in
  debounceTimers (dispose st'.1) = ∅
  ∧ timers (dispose st'.1) !! S h = Some (fsPath document).
Proof.
  cbv zeta. intros Henabled Heligible.
  pose proof (after_givenOut events (initial enabled) w (initial_givenOut enabled))
    as [Hlive Hmap].
  destruct (after env events (initial enabled, w)) as [s w0]. cbn [fst] in *.
  set (file := fsPath document).
  change (after env [Saved document; Fired (nextTimer s); Saved document;
                     Uploaded file] (s, w0))
    with (step env (Uploaded file)
            (step env (Saved document)
               (step env (Fired (nextTimer s))
                  (scheduleUpload env document s, w0)))).
  destruct (scheduleUpload_scheduled document s Henabled Heligible)
    as (He1 & Hn1 & Hu1 & Hm1 & Ht1). fold file in Hm1, Ht1.
  set (s1 := scheduleUpload env document s) in *.
  set (s2 := setUploading (file :: uploading s1) (clearTimeout (nextTimer s) s1)).
  assert (∃ w1, step env (Fired (nextTimer s)) (s1, w0) = (s2, w1)) as [w1 ->].
  { unfold step, fire. rewrite Ht1, lookup_insert_eq.
    destruct (SyncManager.uploadFile env file None w0) as [res w1].
    by exists w1. }
  change (step env (Saved document) (s2, w1))
    with (scheduleUpload env document s2, w1).
  destruct (scheduleUpload_scheduled document s2 He1 Heligible)
    as (He3 & Hn3 & Hu3 & Hm3 & Ht3). fold file in Hm3, Ht3.
  set (s3 := scheduleUpload env document s2) in *.
  change (step env (Uploaded file) (s3, w1)) with (uploaded file s3, w1).
  cbn [fst]. unfold uploaded.
  assert (file ∈ uploading s3) as Hin by (rewrite Hu3; left).
  rewrite (bool_decide_eq_true_2 _ Hin).
  set (s4 := setUploading _ _). unfold dispose.
  destruct (cancelAll_timers s4) as (Hm & _ & _ & Ht).
  split; [done|]. apply Ht.
  assert (nextTimer s2 = S (nextTimer s)) as Hn2 by done.
  split.
  - unfold s4. cbn [timers setUploading setDebounceTimers].
    rewrite Ht3, Hn2. apply lookup_insert_eq.
  - intros f'. unfold s4. cbn [debounceTimers setUploading setDebounceTimers].
    intros [Hne Hl]%lookup_delete_Some.
    rewrite Hm3, lookup_insert_ne in Hl by done.
    unfold s2 in Hl. cbn [debounceTimers setUploading clearTimeout] in Hl.
    rewrite Hm1, lookup_insert_ne in Hl by done.
    apply Hmap in Hl. lia.
Qed.

End Scheduler.

(** [a.txt] is saved, uploaded, and saved again: one timer is live. *)
Lemma one_timer_per_file_witness :
  let s := (SyncScheduler.after (env noFault)
              [SyncScheduler.Saved Cases.document; SyncScheduler.Fired 0;
               SyncScheduler.Uploaded "/ws/a.txt"; SyncScheduler.Saved Cases.document]
              (SyncScheduler.initial true, world)).1 in
  debounced s
  ∧ ∀ h1 h2 filePath,
      SyncScheduler.timers s !! h1 = Some filePath →
      SyncScheduler.timers s !! h2 = Some filePath → h1 = h2.
Proof.
  apply (one_timer_per_file (env noFault)
           [SyncScheduler.Saved Cases.document; SyncScheduler.Fired 0;
            SyncScheduler.Uploaded "/ws/a.txt"; SyncScheduler.Saved Cases.document]
           true world).
  vm_compute; reflexivity.
Defined.



(** [a.txt] is saved again while its first upload runs: the timer of the
    second save is live after the disposal. *)
Lemma timer_outlives_dispose_witness :
  SyncScheduler.timers
    (SyncScheduler.dispose
       (SyncScheduler.after (env noFault)
          [SyncScheduler.Saved Cases.document; SyncScheduler.Fired 0;
           SyncScheduler.Saved Cases.document; SyncScheduler.Uploaded "/ws/a.txt"]
          (SyncScheduler.initial true, world)).1) !! 1%nat
  = Some "/ws/a.txt".
Proof.
  apply (timer_outlives_dispose (env noFault) [] true world Cases.document);
    vm_compute; reflexivity.
Defined.

(** ** The scheduler and the filter of syncAll *)

Section Agreement.
Context (env : Env).

Lemma prefix_app a b : String.prefix a (a +:+ b) = true.
Proof.
  induction a as [|c a IH]; [by destruct b|].
  rewrite append_cons.
  change (String.prefix (String c a) (String c (a +:+ b)))
    with (if Ascii.ascii_dec c c then String.prefix a (a +:+ b) else false).
  by destruct (Ascii.ascii_dec c c).
Qed.

Lemma substring_skip a s n m :
  String.substring (String.length a + n) m (a +:+ s) = String.substring n m s.
Proof. induction a; append_step; [done|apply IHa]. Qed.

Lemma substringFrom_app a b :
  SyncScheduler.substringFrom (String.length a + 1) (a +:+ "/" +:+ b) = b.
Proof.
  unfold SyncScheduler.substringFrom.
  assert (String.length (a +:+ "/" +:+ b) - (String.length a + 1)
          = String.length b)%nat as ->.
  { rewrite length_append. change ("/" +:+ b) with (String "/" b). simpl. lia. }
  rewrite substring_skip. change ("/" +:+ b) with (String "/" b). simpl.
  apply substring_all.
Qed.

Lemma components_child folder rest :
  Forall isName rest →
  Path.components (folder +:+ "/" +:+ String.concat "/" rest)
  = Path.components folder ++ rest.
Proof.
  intros Hrest. unfold Path.components, Path.segments.
  rewrite segmentsFrom_app, resolveDots_app.
  destruct rest as [|x rest]; [simpl; by rewrite rev_involutive, app_nil_r|].
  rewrite segmentsFrom_concat, append_nil;
    [|eapply Forall_impl; [done|by intros ? [? _]]].
  by rewrite resolveDots_names, rev_involutive.
Qed.

(** X23 (the two exclusion filters agree).  With a workspace folder and an
    active profile, for a file whose path is the path of the folder, a
    slash, and names joined by slashes: the scheduler accepts the file for
    upload on save exactly when [syncAll] keeps it among the files to
    upload. *)
Theorem auto_upload_agrees_with_syncAll folder profile rest localFiles :
  workspaceFolder env = Some folder →
  ProfileManager.getActiveProfile env = Some profile →
  Forall isName rest →
  let file := folder +:+ "/" +:+ String.concat "/" rest in
  file ∈ localFiles →
  SyncScheduler.shouldAutoUpload env
    {| SyncScheduler.scheme := "file"; SyncScheduler.fsPath := file |} = true
  ↔ file ∈ SyncManager.filesToUpload env folder (ServerProfile.exclude profile)
             localFiles.
Proof.
  intros Hfolder Hprofile Hrest file Hfile.
  unfold SyncScheduler.shouldAutoUpload, SyncManager.filesToUpload.
  cbn [SyncScheduler.scheme SyncScheduler.fsPath].
  rewrite String.eqb_refl, Hprofile, Hfolder. cbn [negb]. cbv zeta.
  unfold JS.startsWith, file. rewrite prefix_app. cbn [negb].
  rewrite substringFrom_app.
  rewrite list_elem_of_filter, negb_true_iff.
  rewrite (relative_below folder _ rest) by (by apply components_child).
  unfold SyncScheduler.shouldExclude. split; [done|by intros [? _]].
Qed.

End Agreement.

(** [a.txt] is uploaded on save and by [syncAll]. *)
Lemma auto_upload_agrees_with_syncAll_witness :
  (SyncScheduler.shouldAutoUpload (env noFault) Cases.document = true
   ↔ "/ws/a.txt" ∈ SyncManager.filesToUpload (env noFault) "/ws"
                      (ServerProfile.exclude profile) ["/ws/a.txt"; "/ws/b.log"])
  ∧ SyncScheduler.shouldAutoUpload (env noFault) Cases.document = true.
Proof.
  split; [|vm_compute; reflexivity].
  apply (auto_upload_agrees_with_syncAll (env noFault) "/ws" profile ["a.txt"]
           ["/ws/a.txt"; "/ws/b.log"] eq_refl eq_refl).
  - repeat constructor; done.
  - left.
Defined.

(** ** The active profile *)

Lemma find_name_None name (l : list ServerProfile.t) :
  find (λ p, String.eqb (ServerProfile.name p) name) l = None
  ↔ ∀ p, p ∈ l → ServerProfile.name p ≠ name.
Proof.
  induction l as [|q l IH]; simpl.
  - split; [by intros _ p ?%elem_of_nil|done].
  - destruct (String.eqb_spec (ServerProfile.name q) name) as [Heq|Hne].
    + split; [done|]. intros H. destruct (H q); [left|done].
    + rewrite IH. split.
      * intros H p [->|Hp]%elem_of_cons; [done|by apply H].
      * intros H p Hp. apply H. by right.
Qed.

Lemma find_name_Some name (l : list ServerProfile.t) p :
  find (λ p, String.eqb (ServerProfile.name p) name) l = Some p →
  p ∈ l ∧ ServerProfile.name p = name.
Proof.
  induction l as [|q l IH]; simpl; [done|].
  destruct (String.eqb_spec (ServerProfile.name q) name) as [Heq|Hne].
  - intros [= <-]. split; [left|done].
  - intros [? ?]%IH. split; [by right|done].
Qed.

(** X24 (the active profile).  [getActiveProfile] finds no profile exactly when
    there is none, or when an active name is set that no profile bears: a
    name that is out of date is not replaced by the first profile.  A
    profile it finds is one of the list, and bears the active name when one
    is set. *)
Theorem active_profile_resolution (env : Env) :
  (ProfileManager.getActiveProfile env = None
   ↔ profiles env = []
     ∨ (activeProfile env ≠ ""
        ∧ ∀ p, p ∈ profiles env → ServerProfile.name p ≠ activeProfile env))
  ∧ ∀ profile,
      ProfileManager.getActiveProfile env = Some profile →
      profile ∈ profiles env
      ∧ (activeProfile env = "" ∨ ServerProfile.name profile = activeProfile env).
Proof.
  unfold ProfileManager.getActiveProfile, ProfileManager.getProfile.
  destruct (String.eqb_spec (activeProfile env) "") as [Hnone|Hname]; split.
  - destruct (profiles env) as [|q l]; simpl.
    + split; [by left|done].
    + split; [done|]. by intros [?|[? _]].
  - intros profile Hhead. split; [|by left].
    destruct (profiles env); [done|]. simpl in Hhead. injection Hhead as <-. left.
  - rewrite find_name_None. split; [by right|].
    intros [Hempty|[_ H]]; [|done]. rewrite Hempty. by intros p ?%elem_of_nil.
  - intros profile [? ?]%find_name_Some. split; [done|by right].
Qed.
